(** * Gemini File Search dashboard (app.py): model and verified properties

    The dashboard is a single Python script.  Its logic is embedded here
    shallowly: pure helpers become functions, the handlers of the script
    become computations in a state-and-exception monad over an explicit
    script state (the remote service, the session mapping, the temporary
    files on disk, the script's own variables and a log of what was done).

    A string ([String.string]) holds the UTF-8 encoding of a Python [str].
    [lower] acts on the ASCII letters; [strip] removes the white space of
    [str.isspace], character by character. *)

From Stdlib Require Import String Ascii ZArith List Bool Lia DecimalString.
From stdpp Require Import base option gmap strings list.

Open Scope string_scope.
Set Warnings "-register-all".

(** ** Strings and paths *)

Module Str.
Local Open Scope Z_scope.

(** [str.lower] *)
Definition lower_ascii (c : ascii) : ascii :=
  let n := nat_of_ascii c in
  if ((65 <=? n) && (n <=? 90))%nat then ascii_of_nat (n + 32) else c.

Fixpoint lower (s : string) : string :=
  match s with
  | EmptyString => EmptyString
  | String c s' => String (lower_ascii c) (lower s')
  end.

(** [str.isspace] on one character, given by its code point: the characters
    TAB to CR, FS to US and the space, and the white space outside ASCII:
    U+0085, U+00A0, U+1680, U+2000 to U+200A, U+2028, U+2029, U+202F, U+205F
    and U+3000. *)
Definition is_space (cp : N) : bool :=
  (((9 <=? cp) && (cp <=? 13)) || ((28 <=? cp) && (cp <=? 32))
   || (cp =? 133) || (cp =? 160) || (cp =? 5760)
   || ((8192 <=? cp) && (cp <=? 8202))
   || (cp =? 8232) || (cp =? 8233) || (cp =? 8239) || (cp =? 8287)
   || (cp =? 12288))%N.

(** The characters of a string: each one is a byte followed by the
    continuation bytes ([10xxxxxx]) after it. *)
Definition is_continuation (c : ascii) : bool :=
  ((128 <=? N_of_ascii c) && (N_of_ascii c <? 192))%N.

Fixpoint utf8_chars (s : string) : list string :=
  match s with
  | EmptyString => []
  | String c s' =>
      match utf8_chars s' with
      | String d ch :: rest =>
          if is_continuation d then String c (String d ch) :: rest
          else String c EmptyString :: String d ch :: rest
      | l => String c EmptyString :: l
      end
  end.

(** The code point of one character, when the bytes are its shortest UTF-8
    encoding. *)
Definition code_point (ch : string) : option N :=
  let b := N_of_ascii in
  let between (lo hi cp : N) := if ((lo <=? cp) && (cp <? hi))%N then Some cp else None in
  match ch with
  | String c0 EmptyString => between 0%N 128%N (b c0)
  | String c0 (String c1 EmptyString) =>
      if ((192 <=? b c0) && (b c0 <? 224))%N
      then between 128%N 2048%N ((b c0 - 192) * 64 + (b c1 - 128))%N
      else None
  | String c0 (String c1 (String c2 EmptyString)) =>
      if ((224 <=? b c0) && (b c0 <? 240))%N
      then between 2048%N 65536%N
                   (((b c0 - 224) * 64 + (b c1 - 128)) * 64 + (b c2 - 128))%N
      else None
  | String c0 (String c1 (String c2 (String c3 EmptyString))) =>
      if ((240 <=? b c0) && (b c0 <? 248))%N
      then between 65536%N 1114112%N
                   ((((b c0 - 240) * 64 + (b c1 - 128)) * 64 + (b c2 - 128)) * 64
                    + (b c3 - 128))%N
      else None
  | _ => None
  end.

Definition is_space_char (ch : string) : bool :=
  match code_point ch with
  | Some cp => is_space cp
  | None => false
  end.

(** [lstrip] on the characters of a string *)
Fixpoint lstrip (l : list string) : list string :=
  match l with
  | [] => []
  | ch :: l' => if is_space_char ch then lstrip l' else l
  end.

(** [rstrip] on the characters of a string *)
Definition rstrip (l : list string) : list string := rev (lstrip (rev l)).

Fixpoint join (l : list string) : string :=
  match l with
  | [] => EmptyString
  | ch :: l' => (ch ++ join l')%string
  end.

(** [str.strip()] *)
Definition strip (s : string) : string := join (rstrip (lstrip (utf8_chars s))).

(** [s.rfind(c)] for a one-character needle: the last index of [c], or -1. *)
Fixpoint rfind_from (c : ascii) (s : string) (i last : Z) : Z :=
  match s with
  | EmptyString => last
  | String a s' => rfind_from c s' (i + 1) (if Ascii.eqb a c then i else last)
  end.

Definition rfind (c : ascii) (s : string) : Z := rfind_from c s 0 (-1).

(** the slices [p[:i]] and [p[i:]] for [0 <= i] *)
Definition slice_to (i : Z) (p : string) : string :=
  substring 0 (Z.to_nat i) p.

Definition slice_from (i : Z) (p : string) : string :=
  substring (Z.to_nat i) (String.length p - Z.to_nat i) p.

(** [sub in s] *)
Fixpoint contains (sub s : string) : bool :=
  String.prefix sub s ||
  match s with
  | EmptyString => false
  | String _ s' => contains sub s'
  end.

End Str.

Module OsPath.
Local Open Scope Z_scope.

(** [os.path.splitext] of the POSIX library ([sep] is the slash, there is
    no [altsep], [extsep] is the dot): the extension starts at the last
    dot of the last path component, unless that component has only dots
    before it.

    The [while] loop of the library scans [filenameIndex] from
    [sepIndex + 1] up to [dotIndex]; [scan] is that loop, with the number
    of positions left as its measure. *)
Fixpoint scan (p : string) (filenameIndex : nat) (remaining : nat) : bool :=
  match remaining with
  | O => false
  | S remaining' =>
      match String.get filenameIndex p with
      | Some c =>
          if Ascii.eqb c "."%char then scan p (S filenameIndex) remaining' else true
      | None => true
      end
  end.

Definition splitext (p : string) : string * string :=
  let sepIndex := Str.rfind "/"%char p in
  let dotIndex := Str.rfind "."%char p in
  if (sepIndex <? dotIndex) &&
     scan p (Z.to_nat (sepIndex + 1)) (Z.to_nat (dotIndex - (sepIndex + 1)))
  then (Str.slice_to dotIndex p, Str.slice_from dotIndex p)
  else (p, EmptyString).

End OsPath.

(** ** The MIME resolver *)

(** The [common] dictionary of [guess_mime], in source order. *)
Definition common : list (string * string) :=
  [ (".md", "text/markdown");
    (".txt", "text/plain");
    (".csv", "text/csv");
    (".json", "application/json");
    (".pdf", "application/pdf");
    (".html", "text/html");
    (".xml", "application/xml") ].

(** [d.get(k)] on a dictionary literal *)
Fixpoint dict_get {V : Type} (d : list (string * V)) (k : string) : option V :=
  match d with
  | [] => None
  | (k', v) :: d' => if String.eqb k' k then Some v else dict_get d' k
  end.

(** Truth value of an optional string: [None] and the empty string are false. *)
Definition str_truthy (m : option string) : bool :=
  match m with
  | Some EmptyString | None => false
  | Some _ => true
  end.

(** [guess_mime].  [guess_type] stands for the first component of
    [mimetypes.guess_type], the platform's table, which is not part of the
    program. *)
Definition guess_mime (guess_type : string -> option string) (filename : string)
  : string :=
  let mime := guess_type filename in
  let mime :=
    if negb (str_truthy mime) then
      let ext := Str.lower (snd (OsPath.splitext filename)) in
      dict_get common ext
    else mime in
  if str_truthy mime then default EmptyString mime else "application/octet-stream".

(** ** Python values *)

(** The values the script handles.  [VObj] is an object of the client library
    (a store, a document, an operation handle, a response) seen through its
    data attributes; [VDict] is a dictionary with string keys, in insertion
    order. *)
Inductive pyval : Type :=
| VNone
| VBool (b : bool)
| VStr (s : string)
| VList (xs : list pyval)
| VTuple (xs : list pyval)
| VDict (kvs : list (string * pyval))
| VObj (attrs : list (string * pyval)).

(** [bool(v)] *)
Definition truthy (v : pyval) : bool :=
  match v with
  | VNone => false
  | VBool b => b
  | VStr s => negb (String.eqb s "")
  | VList xs | VTuple xs => negb (Nat.eqb (List.length xs) 0)
  | VDict kvs => negb (Nat.eqb (List.length kvs) 0)
  | VObj _ => true
  end.

(** [a == b], structural.  The program compares resource identifiers only. *)
Fixpoint py_eq (a b : pyval) {struct a} : bool :=
  let fix eq_list (xs ys : list pyval) {struct xs} : bool :=
    match xs, ys with
    | [], [] => true
    | x :: xs', y :: ys' => py_eq x y && eq_list xs' ys'
    | _, _ => false
    end in
  let fix eq_kvs (xs ys : list (string * pyval)) {struct xs} : bool :=
    match xs, ys with
    | [], [] => true
    | (k, x) :: xs', (k', y) :: ys' => String.eqb k k' && py_eq x y && eq_kvs xs' ys'
    | _, _ => false
    end in
  match a, b with
  | VNone, VNone => true
  | VBool x, VBool y => Bool.eqb x y
  | VStr x, VStr y => String.eqb x y
  | VList xs, VList ys => eq_list xs ys
  | VTuple xs, VTuple ys => eq_list xs ys
  | VDict xs, VDict ys => eq_kvs xs ys
  | VObj xs, VObj ys => eq_kvs xs ys
  | _, _ => false
  end.

(** [hasattr(o, a)] and [getattr(o, a, d)] on data attributes.  None of the
    attribute names the script asks for exists on a built-in value. *)
Definition hasattr (o : pyval) (a : string) : bool :=
  match o with
  | VObj attrs => bool_decide (is_Some (dict_get attrs a))
  | _ => false
  end.

Definition getattr (o : pyval) (a : string) (d : pyval) : pyval :=
  match o with
  | VObj attrs => default d (dict_get attrs a)
  | _ => d
  end.

(** [_safe_get]: [getattr] under a [try] whose handler returns the default. *)
Definition _safe_get (obj : pyval) (attr : string) (d : pyval) : pyval :=
  getattr obj attr d.

(** [d[k] = v] on a dictionary: update in place, or append the new key. *)
Fixpoint dict_set (d : list (string * pyval)) (k : string) (v : pyval)
  : list (string * pyval) :=
  match d with
  | [] => [(k, v)]
  | (k', v') :: d' =>
      if String.eqb k' k then (k', v) :: d' else (k', v') :: dict_set d' k v
  end.

(** ** Exceptions and results *)

(** An exception: its class and its message ([str(e)]). *)
Inductive exn : Type := PyExc (cls : string) (msg : string).

Definition str_of_exn (e : exn) : string :=
  match e with PyExc _ msg => msg end.

(** What a call into the client library or the operating system does: it
    returns or it raises. *)
Inductive reply (A : Type) : Type :=
| Returns (a : A)
| Raises (e : exn).
Arguments Returns {A} a.
Arguments Raises {A} e.

(** What a piece of the script does: it completes with a value, it raises, or
    ([Diverge]) the polling loop is still running when the step budget of
    the model is used up. *)
Inductive outcome (A : Type) : Type :=
| Ok (a : A)
| Raise (e : exn)
| Diverge.
Arguments Ok {A} a.
Arguments Raise {A} e.
Arguments Diverge {A}.

(** ** Listing results *)

(** What a [list] call of the client returns: a plain value (a list, a tuple,
    an object with data attributes only), or a pager, an object with data
    attributes and the methods [has_next_page] and [next_page].  A pager
    carries what each method does when called; a listing is finite. *)
Inductive robj : Type :=
| RVal (v : pyval)
| RPager (attrs : list (string * pyval))
         (has_next_page : reply pyval)
         (next_page : reply robj).

Definition robj_hasattr (o : robj) (a : string) : bool :=
  match o with
  | RVal v => hasattr v a
  | RPager attrs _ _ =>
      bool_decide (is_Some (dict_get attrs a))
      || String.eqb a "has_next_page" || String.eqb a "next_page"
  end.

(** [getattr(o, a, d)] for a data attribute [a] *)
Definition robj_getattr (o : robj) (a : string) (d : pyval) : pyval :=
  match o with
  | RVal v => getattr v a d
  | RPager attrs _ _ => default d (dict_get attrs a)
  end.

(** [type(v).__name__].  The class of an object is not part of a [pyval];
    its name stands as [object]. *)
Definition type_name (v : pyval) : string :=
  match v with
  | VNone => "NoneType"
  | VBool _ => "bool"
  | VStr _ => "str"
  | VList _ => "list"
  | VTuple _ => "tuple"
  | VDict _ => "dict"
  | VObj _ => "object"
  end.

(** [xs.extend(v)]: the items of [v] are appended; a value that is not
    iterable raises [TypeError] and leaves [xs] as it was. *)
Fixpoint chars (s : string) : list pyval :=
  match s with
  | EmptyString => []
  | String c s' => VStr (String c EmptyString) :: chars s'
  end.

Definition extend (xs : list pyval) (v : pyval) : reply (list pyval) :=
  match v with
  | VList ys | VTuple ys => Returns (xs ++ ys)%list
  | VStr s => Returns (xs ++ chars s)%list
  | VDict kvs => Returns (xs ++ map (fun kv => VStr (fst kv)) kvs)%list
  | VNone | VBool _ | VObj _ =>
      Raises (PyExc "TypeError" ("'" ++ type_name v ++ "' object is not iterable"))
  end.

(** The loop under the inner [try] of [list_stores] and [list_store_documents]:
<<
    while hasattr(pager, "has_next_page") and pager.has_next_page():
        pager = pager.next_page()
        stores.extend(getattr(pager, "page", []))
>>
    It returns the list [stores] as the loop leaves it, and how the loop is
    left. *)
Fixpoint next_pages (pager : robj) (stores : list pyval)
  : list pyval * reply unit :=
  match pager with
  | RVal v =>
      if hasattr v "has_next_page"
      then (stores, Raises (PyExc "TypeError" "object is not callable"))
      else (stores, Returns tt)
  | RPager _ has_next_page next_page =>
      match has_next_page with
      | Raises e => (stores, Raises e)
      | Returns more =>
          if truthy more then
            match next_page with
            | Raises e => (stores, Raises e)
            | Returns pager' =>
                match extend stores (robj_getattr pager' "page" (VList [])) with
                | Raises e => (stores, Raises e)
                | Returns stores' => next_pages pager' stores'
                end
            end
          else (stores, Returns tt)
      end
  end.

(** The statements under the outer [try], after the [list] call has returned
    [pager]; [collection] is ["stores"] or ["documents"].  It returns the
    value of the local variable when the block is left, and how it is left. *)
Definition drain (collection : string) (pager : robj) (stores : list pyval)
  : pyval * reply unit :=
  if robj_hasattr pager "page" then
    match extend stores (robj_getattr pager "page" VNone) with
    | Raises e => (VList stores, Raises e)
    | Returns stores1 =>
        (* try: while ...  except Exception: pass *)
        (VList (fst (next_pages pager stores1)), Returns tt)
    end
  else if robj_hasattr pager collection then
    (robj_getattr pager collection VNone, Returns tt)
  else
    match pager with
    | RVal (VList xs) | RVal (VTuple xs) => (VList xs, Returns tt)
    | _ => (VList stores, Returns tt)
    end.

(** ** The query runner's system instruction *)

Definition dq : string := String "034" EmptyString.
Definition nl : string := String "010" EmptyString.

(** The no-break space U+00A0 and the ideographic space U+3000, in UTF-8. *)
Definition nbsp : string :=
  String (ascii_of_nat 194) (String (ascii_of_nat 160) EmptyString).
Definition ideographic_space : string :=
  String (ascii_of_nat 227) (String (ascii_of_nat 128)
                                    (String (ascii_of_nat 128) EmptyString)).
Definition quoted (s : string) : string := dq ++ s ++ dq.

(** The sentences of the triple-quoted literal of [sys_prompt]; in the source
    each stands between double quotes on a line of its own. *)
Definition prompt_sentences : list string :=
  [ "You are a specialized tool for verifying the existence and details of a bug bounty program based on the user's input. ";
    "**Strictly use the File Search tool on the provided vector store** to find a matching bug bounty program. ";
    "If a match is found, extract the required details. ";
    "**Respond strictly in a single JSON object only**, with no explanations, extra text, or markdown formatting (e.g., no ```json ```). ";
    "The required fields are: ";
    "* **'Found'**: (string, 'Yes' or 'No') — Indicate if a bug bounty program was found for the input. ";
    "* **'Source'**: (string, the name or ID of the document/file in the vector store where the information was found, or 'N/A' if not found). ";
    "* **'Rewards'**: (string, 'Yes' or 'No') — Indicate if the program offers monetary or non-monetary rewards. ";
    "Example of expected output: {'Found': 'Yes', 'Source': 'vector_store_doc_123', 'Rewards': 'Yes'}" ].

(** The triple-quoted literal: the quoted sentences, each on its line behind
    the indentation of the source, and the space before the closing quotes. *)
Definition prompt_literal : string :=
  String.concat (nl ++ "                            ") (map quoted prompt_sentences)
  ++ " ".

(** ** The script state *)

(** A formatted message: the literal parts of an f-string and the values
    interpolated into it. *)
Inductive fpart : Type :=
| Lit (s : string)
| Val (v : pyval).

Inductive widget : Type :=
| SidebarError | SidebarSuccess | SidebarInfo
| StError | StSuccess | StWarning | StInfo | StWrite | StMarkdown
| StTable | StJson | StCode.

(** What the script does to the outside, in the order it does it. *)
Inductive event : Type :=
| EvListStores (page_size : nat) (failed : option exn)
| EvListDocuments (parent : pyval) (page_size : nat) (failed : option exn)
| EvDeleteStore (name : pyval) (failed : option exn)
| EvDeleteDocument (name : pyval) (force : bool) (failed : option exn)
| EvUpload (file : string) (file_search_store_name : pyval)
           (display_name : string) (failed : option exn)
| EvOperationsGet (operation : pyval) (failed : option exn)
| EvGenerateContent (model : string) (contents : string) (config : pyval)
                    (failed : option exn)
| EvSleep (seconds : nat)
| EvTempFile (suffix : string) (failed : option exn)
| EvTempWrite (path : string) (failed : option exn)
| EvRemove (path : string) (failed : option exn)
| EvUi (w : widget) (msg : list fpart).

(** An uploaded file of the file picker: its name and its bytes. *)
Record uploaded_file : Type := UploadedFile {
  uf_name : string;
  uf_buffer : string
}.

Section Script.

(** The remote service and the operating system, as the script sees them:
    a state [W] the script cannot observe, advanced by every call. *)
Context {W : Type}.

Record Env : Type := {
  (* client.file_search_stores.list(config={"page_size": n}) *)
  file_search_stores_list : nat -> W -> W * reply robj;
  (* client.file_search_stores.documents.list(parent=p, config={"page_size": n}) *)
  documents_list : pyval -> nat -> W -> W * reply robj;
  (* client.file_search_stores.delete(name=n) *)
  file_search_stores_delete : pyval -> W -> W * reply unit;
  (* client.file_search_stores.documents.delete(name=n, config={"force": f}) *)
  documents_delete : pyval -> bool -> W -> W * reply unit;
  (* client.file_search_stores.upload_to_file_search_store(file, store, display_name) *)
  upload_to_file_search_store : string -> pyval -> string -> W -> W * reply pyval;
  (* client.operations.get(operation) *)
  operations_get : pyval -> W -> W * reply pyval;
  (* client.models.generate_content(model, contents, config) *)
  generate_content : string -> string -> pyval -> W -> W * reply pyval;
  (* tempfile.NamedTemporaryFile(delete=False, suffix=s): the new file's path *)
  named_temporary_file : string -> W -> W * reply string;
  (* tmp.write(buffer) *)
  tmp_write : string -> string -> W -> W * reply unit;
  (* first component of mimetypes.guess_type *)
  guess_type : string -> option string
}.

Variable env : Env.

(** [session] is [st.session_state]; [files] are the temporary files on
    disk; [display_name], [temp_path] and [results] are the script's
    variables of these names ([None]: not bound); [log] is what was done so
    far, oldest first. *)
Record state : Type := State {
  world : W;
  session : gmap string pyval;
  files : list string;
  display_name : option string;
  temp_path : option string;
  results : list pyval;
  log : list event
}.

Definition set_world (w : W) (s : state) : state :=
  State w (session s) (files s) (display_name s) (temp_path s) (results s) (log s).
Definition set_session (m : gmap string pyval) (s : state) : state :=
  State (world s) m (files s) (display_name s) (temp_path s) (results s) (log s).
Definition set_files (fs : list string) (s : state) : state :=
  State (world s) (session s) fs (display_name s) (temp_path s) (results s) (log s).
Definition set_display_name (v : option string) (s : state) : state :=
  State (world s) (session s) (files s) v (temp_path s) (results s) (log s).
Definition set_temp_path (v : option string) (s : state) : state :=
  State (world s) (session s) (files s) (display_name s) v (results s) (log s).
Definition set_results (r : list pyval) (s : state) : state :=
  State (world s) (session s) (files s) (display_name s) (temp_path s) r (log s).
Definition add_log (e : event) (s : state) : state :=
  State (world s) (session s) (files s) (display_name s) (temp_path s) (results s)
        (log s ++ [e])%list.

(** *** The monad of script fragments *)

Definition M (A : Type) : Type := state -> state * outcome A.

Definition ret {A} (a : A) : M A := fun s => (s, Ok a).

Definition bind {A B} (m : M A) (k : A -> M B) : M B :=
  fun s =>
    match m s with
    | (s', Ok a) => k a s'
    | (s', Raise e) => (s', Raise e)
    | (s', Diverge) => (s', Diverge)
    end.

Definition raise {A} (e : exn) : M A := fun s => (s, Raise e).

Definition diverge {A} : M A := fun s => (s, Diverge).

(** [try: m  except Exception as e: h e] *)
Definition try_except {A} (m : M A) (h : exn -> M A) : M A :=
  fun s =>
    match m s with
    | (s', Raise e) => h e s'
    | r => r
    end.

(** [try: m  finally: f].  The [finally] block runs however [m] is left;
    when it raises, its exception replaces the outcome of [m]. *)
Definition try_finally {A} (m : M A) (f : M unit) : M A :=
  fun s =>
    match m s with
    | (s', Diverge) => (s', Diverge)
    | (s', r) =>
        match f s' with
        | (s'', Ok _) => (s'', r)
        | (s'', Raise e) => (s'', Raise e)
        | (s'', Diverge) => (s'', Diverge)
        end
    end.

Definition get {A} (f : state -> A) : M A := fun s => (s, Ok (f s)).
Definition modify (f : state -> state) : M unit := fun s => (f s, Ok tt).
Definition emit (e : event) : M unit := modify (add_log e).

(** A call into the client library or the operating system: the world
    advances, the call is logged with its failure if any, and a raised
    exception becomes an exception of the script. *)
Definition failure {A} (r : reply A) : option exn :=
  match r with Returns _ => None | Raises e => Some e end.

Definition call {A} (f : W -> W * reply A) (ev : option exn -> event) : M A :=
  fun s =>
    let '(w', r) := f (world s) in
    let s' := add_log (ev (failure r)) (set_world w' s) in
    match r with
    | Returns a => (s', Ok a)
    | Raises e => (s', Raise e)
    end.

(** Reading a script variable: an unbound name raises [NameError]. *)
Definition read_var (name : string) (f : state -> option string) : M string :=
  fun s =>
    match f s with
    | Some v => (s, Ok v)
    | None => (s, Raise (PyExc "NameError" ("name '" ++ name ++ "' is not defined")))
    end.

Definition ui (w : widget) (msg : list fpart) : M unit := emit (EvUi w msg).

(** [st.session_state[k] = v], [st.session_state.get(k, d)] and
    [st.session_state.pop(k, None)] *)
Definition session_set (k : string) (v : pyval) : M unit :=
  modify (fun s => set_session (<[k := v]> (session s)) s).
Definition session_get (k : string) (d : pyval) : M pyval :=
  get (fun s => default d (session s !! k)).
Definition session_pop (k : string) : M unit :=
  modify (fun s => set_session (delete k (session s)) s).

#[global] Instance M_ret : MRet M := @ret.
#[global] Instance M_bind : MBind M := fun A B k m => bind m k.

(** [o.a], which raises [AttributeError] when the attribute is missing *)
Definition attr (o : pyval) (a : string) : M pyval :=
  match o with
  | VObj attrs =>
      match dict_get attrs a with
      | Some v => ret v
      | None => raise (PyExc "AttributeError" ("object has no attribute '" ++ a ++ "'"))
      end
  | _ => raise (PyExc "AttributeError" ("object has no attribute '" ++ a ++ "'"))
  end.

(** *** Store and document listing *)

Definition ensure_store_in_state (store : pyval) : M unit :=
  session_set "file_search_store" store;;
  name ← attr store "name";
  session_set "file_search_store_name" name.

Definition list_stores : M pyval :=
  let stores := [] in
  '(stores, how) ←
    try_except
      (pager ← call (file_search_stores_list env 20) (EvListStores 20);
       ret (drain "stores" pager stores))
      (fun e => ret (VList stores, Raises e));
  match how with
  | Raises e =>
      ui SidebarError [Lit "Failed to list stores: "; Lit (str_of_exn e)];;
      ret stores
  | Returns _ => ret stores
  end.

Definition list_store_documents (store_name : pyval) : M pyval :=
  let docs := [] in
  '(docs, how) ←
    try_except
      (pager ← call (documents_list env store_name 20) (EvListDocuments store_name 20);
       ret (drain "documents" pager docs))
      (fun e => ret (VList docs, Raises e));
  match how with
  | Raises e =>
      ui StError [Lit "Failed to list store files: "; Lit (str_of_exn e)];;
      ret docs
  | Returns _ => ret docs
  end.

(** *** Sidebar: store activation and deletion *)

(** The activation branch, run with the store picked in the sidebar;
    [active_name] is read from the session before it. *)
Definition activate (selected_store : pyval) : M unit :=
  active_name ← session_get "file_search_store_name" (VStr "");
  if truthy selected_store then
    let sel_name := _safe_get selected_store "name" (VStr "") in
    (if truthy sel_name && negb (py_eq sel_name active_name) then
       ensure_store_in_state selected_store;;
       session_set "file_search_store_display_name"
                   (_safe_get selected_store "display_name" (VStr ""));;
       docs ← list_store_documents sel_name;
       session_set "store_documents" docs;;
       session_set "_store_docs_for" sel_name
     else ret tt);;
    ui SidebarSuccess [Lit "Active store: "; Val sel_name]
  else ret tt.

Definition delete_active_store (delete_clicked : bool) (selected_store : pyval)
  : M unit :=
  if delete_clicked && truthy selected_store then
    let store_to_delete_name := _safe_get selected_store "name" (VStr "") in
    if negb (truthy store_to_delete_name) then
      ui SidebarError [Lit "No store resource name available for deletion."]
    else
      try_except
        (call (file_search_stores_delete env store_to_delete_name)
              (EvDeleteStore store_to_delete_name);;
         ui SidebarSuccess [Lit "Deleted store: "; Val store_to_delete_name];;
         current ← session_get "file_search_store_name" VNone;
         if py_eq current store_to_delete_name then
           session_pop "file_search_store";;
           session_pop "file_search_store_name";;
           session_pop "store_documents";;
           session_pop "_store_docs_for"
         else ret tt)
        (fun e1 => ui SidebarError [Lit "Failed to delete store: "; Lit (str_of_exn e1)]);;
      (* Refresh stores list *)
      stores ← list_stores;
      session_set "stores_list" stores
  else ret tt.

(** *** Documents: batch delete *)

Definition append_result (r : pyval) : M unit :=
  modify (fun s => set_results (results s ++ [r])%list s).

(** the [for doc_name in selected_doc_names] loop *)
Fixpoint delete_each (selected_doc_names : list pyval) : M unit :=
  match selected_doc_names with
  | [] => ret tt
  | doc_name :: rest =>
      try_except
        (call (documents_delete env doc_name true) (EvDeleteDocument doc_name true);;
         append_result (VDict [("document", doc_name); ("status", VStr "deleted")]))
        (fun e1 =>
           append_result (VDict [("document", doc_name);
                                 ("status", VStr ("error: " ++ str_of_exn e1))]));;
      delete_each rest
  end.

Definition delete_documents (delete_docs_clicked : bool)
           (selected_doc_names : list pyval) (store_name : pyval) : M unit :=
  if delete_docs_clicked && truthy (VList selected_doc_names) then
    modify (set_results []);;
    delete_each selected_doc_names;;
    (* Refresh documents list after deletion *)
    docs ← list_store_documents store_name;
    session_set "store_documents" docs;;
    ui StSuccess [Lit "Deletion attempted. See results below."];;
    rs ← get results;
    ui StTable [Val (VList rs)]
  else ret tt.

(** *** Documents: upload and import *)

(** [tempfile.NamedTemporaryFile(delete=False, suffix=...)]: when it
    returns, the new file is on disk. *)
Definition create_temp (suffix : string) : M string :=
  tmp ← call (named_temporary_file env suffix) (EvTempFile suffix);
  modify (fun s => set_files (tmp :: files s) s);;
  ret tmp.

(** [os.remove(path)]: removes the file, or raises when there is none. *)
Definition os_remove (path : string) : M unit :=
  fun s =>
    if bool_decide (path ∈ files s) then
      (add_log (EvRemove path None)
               (set_files (filter (fun p => p ≠ path) (files s)) s), Ok tt)
    else
      let e := PyExc "FileNotFoundError" "No such file or directory" in
      (add_log (EvRemove path (Some e)) s, Raise e).

(** The polling loop,
<<
  while not getattr(operation, "done", False):
      time.sleep(2)
      operation = client.operations.get(operation)
>>
    run for at most [fuel] rounds. *)
Definition not_done (operation : pyval) : bool :=
  negb (truthy (getattr operation "done" (VBool false))).

Fixpoint poll (fuel : nat) (operation : pyval) : M pyval :=
  if not_done operation then
    match fuel with
    | O => diverge
    | S fuel' =>
        emit (EvSleep 2);;
        operation' ← call (operations_get env operation) (EvOperationsGet operation);
        poll fuel' operation'
    end
  else ret operation.

(** The body of [for f in uploaded_files], block by block.  First the
    statements under [try]. *)
Definition upload_try (fuel : nat) (store_name : pyval) (f : uploaded_file)
  : M unit :=
  (* with tempfile.NamedTemporaryFile(...) as tmp: *)
  tmp ← create_temp (snd (OsPath.splitext (uf_name f)));
  call (tmp_write env tmp (uf_buffer f)) (EvTempWrite tmp);;
  modify (set_temp_path (Some tmp));;
  let base_name := fst (OsPath.splitext (uf_name f)) in
  modify (set_display_name (Some base_name));;
  let mime_type := guess_mime (guess_type env) (uf_name f) in
  ui StWrite [Lit "Uploading to File Search store: "; Lit (uf_name f);
              Lit " (detected mime: "; Lit mime_type; Lit ")"];;
  dn ← read_var "display_name" display_name;
  ui StWrite [Lit "Uploading & importing into File Search store: ";
              Val store_name; Lit " (display name: "; Lit dn; Lit ")"];;
  tp ← read_var "temp_path" temp_path;
  operation ← call (upload_to_file_search_store env tp store_name dn)
                   (EvUpload tp store_name dn);
  (* Poll until import is complete *)
  poll fuel operation;;
  append_result (VDict [("file", VStr (uf_name f));
                        ("display_name", VStr dn);
                        ("mime_type", VStr mime_type);
                        ("status", VStr "success")]);;
  ui StSuccess [Lit "Indexed: "; Lit (uf_name f)].

(** The handler, [except Exception as e]. *)
Definition upload_except (f : uploaded_file) (e : exn) : M unit :=
  dn ← read_var "display_name" display_name;
  append_result (VDict [("file", VStr (uf_name f));
                        ("display_name", VStr dn);
                        ("status", VStr ("error: " ++ str_of_exn e))]);;
  ui StError [Lit "Upload/import failed for "; Lit (uf_name f);
              Lit ": "; Lit (str_of_exn e)].

(** The [finally] block: [os.remove(temp_path)] under a [try] that ignores
    every exception. *)
Definition upload_finally : M unit :=
  try_except
    (tp ← read_var "temp_path" temp_path;
     os_remove tp)
    (fun _ => ret tt).

Definition upload_one (fuel : nat) (store_name : pyval) (f : uploaded_file)
  : M unit :=
  try_finally
    (try_except (upload_try fuel store_name f) (upload_except f))
    upload_finally.

Fixpoint upload_each (fuel : nat) (store_name : pyval)
         (uploaded_files : list uploaded_file) : M unit :=
  match uploaded_files with
  | [] => ret tt
  | f :: rest =>
      upload_one fuel store_name f;;
      upload_each fuel store_name rest
  end.

Definition upload_and_import (fuel : nat) (upload_clicked : bool)
           (uploaded_files : list uploaded_file) (store_name : pyval) : M unit :=
  if upload_clicked then
    if Nat.eqb (List.length uploaded_files) 0 then
      ui StWarning [Lit "Please select at least one file."]
    else
      modify (set_results []);;
      upload_each fuel store_name uploaded_files;;
      rs ← get results;
      ui StTable [Val (VList rs)]
  else ret tt.

(** *** Ask *)

(** [sys_prompt]: the literal followed by [f"Input: {question.strip()}"]. *)
Definition sys_prompt (use_default_prompt : bool) (question : string) : pyval :=
  if use_default_prompt
  then VStr (prompt_literal ++ "Input: " ++ Str.strip question)
  else VNone.

(** The configuration of the [generate_content] call. *)
Definition build_config (use_default_prompt : bool) (question : string)
           (store_name : pyval) : pyval :=
  let config :=
    [("tools",
      VList [VDict [("file_search",
                     VDict [("file_search_store_names", VList [store_name])])]])] in
  if use_default_prompt
  then VDict (dict_set config "system_instruction"
                       (sys_prompt use_default_prompt question))
  else VDict config.

Definition ask_question (ask : bool) (question : string) (model_name : string)
           (use_default_prompt : bool) (store_name : pyval) : M unit :=
  if ask && truthy (VStr (Str.strip question)) then
    try_except
      (let config := build_config use_default_prompt question store_name in
       response ← call (generate_content env model_name (Str.strip question) config)
                       (EvGenerateContent model_name (Str.strip question) config);
       ui StMarkdown [Lit "### Answer"];;
       (let text := getattr response "text" (VStr "") in
        ui StWrite [Val (if truthy text then text else VStr "")]);;
       (* Raw response; what [to_dict()] returns is shown as the response *)
       if hasattr response "to_dict"
       then ui StJson [Val response]
       else ui StCode [Val response])
      (fun e =>
         ui StError [Lit "Generation failed: "; Lit (str_of_exn e)];;
         ui StCode [Lit "repr: "; Lit (str_of_exn e)])
  else if ask then ui StWarning [Lit "Please enter a question."]
  else ret tt.

(** The second tab: [store_name] is the identifier of the active store, read
    from the session; without one the tab only says so.  With one, the tab
    renders its widgets; the check box has a key, so its value is stored in
    the session under that key. *)
Definition ask_tab (ask : bool) (question : string) (model_name : string)
           (use_default_prompt : bool) : M unit :=
  store_name ← session_get "file_search_store_name" VNone;
  if negb (truthy store_name) then
    ui StInfo [Lit "Create or select a File Search store in the sidebar first."]
  else
    (* st.checkbox(..., key="_use_default_sys_prompt") *)
    session_set "_use_default_sys_prompt" (VBool use_default_prompt);;
    ask_question ask question model_name use_default_prompt store_name.

End Script.

Arguments Env W : clear implicits.
Arguments state W : clear implicits.

(** ** The rest of the page

    The blocks of the script around the handlers above: the buttons that
    create and refresh stores, the choice of the preselected store, the
    automatic loading of the documents of the active store, the documents
    panel with its deletion controls, and the two tabs and the sidebar that
    put the handlers together. *)

Section Page.

Context {W : Type}.
Variable env : Env W.

(** [client.file_search_stores.create(config={"display_name": d})].  The
    call is not a field of [Env]: it is a parameter [create] of the blocks
    that use it, and the log has no event for it. *)
Definition create_call (create : string -> W -> W * reply pyval) (d : string)
  : M pyval :=
  fun s =>
    let '(w', r) := create d (world s) in
    match r with
    | Returns store => (set_world w' s, Ok store)
    | Raises e => (set_world w' s, Raise e)
    end.

(** The [Create Store] button. *)
Definition create_store (create : string -> W -> W * reply pyval)
           (clicked : bool) (store_name_display : string) : M unit :=
  if clicked then
    try_except
      (store ← create_call create store_name_display;
       name ← attr store "name";
       ui StSuccess [Lit "Store created: "; Val name];;
       (* Refresh stores list so the newly created store appears *)
       stores ← list_stores env;
       session_set "stores_list" stores)
      (fun e => ui StError [Lit "Failed to create store: "; Lit (str_of_exn e)])
  else ret tt.

(** The [Refresh stores] button. *)
Definition refresh_stores (clicked : bool) : M unit :=
  if clicked then
    stores ← list_stores env;
    session_set "stores_list" stores
  else ret tt.

(** The loop that picks the preselected store,
<<
  default_idx = 0
  for i, s in enumerate(stores_list):
      if _safe_get(s, "name", "") == active_name:
          default_idx = i
          break
>>
    from position [i] on, with [default_idx] as it stands. *)
Fixpoint default_idx_from (i : nat) (stores_list : list pyval) (active_name : pyval)
         (default_idx : nat) : nat :=
  match stores_list with
  | [] => default_idx
  | s :: rest =>
      if py_eq (_safe_get s "name" (VStr "")) active_name then i
      else default_idx_from (S i) rest active_name default_idx
  end.

Definition default_idx (stores_list : list pyval) (active_name : pyval) : nat :=
  default_idx_from 0 stores_list active_name 0.

(** The sidebar.  [selected_label] is what the radio button gives back, and
    [selected_store] what the label map has for it: a store of the list, or
    [None].  The radio button has a key, so its value is stored in the
    session under that key. *)
Definition sidebar (create : string -> W -> W * reply pyval)
           (create_clicked : bool) (store_name_display : string)
           (refresh_clicked : bool) (selected_label : string)
           (selected_store : pyval) (delete_clicked : bool) : M unit :=
  create_store create create_clicked store_name_display;;
  refresh_stores refresh_clicked;;
  stores_list ← session_get "stores_list" (VList []);
  if truthy stores_list then
    (* the labels are built by iterating over the list *)
    match extend [] stores_list with
    | Raises e => raise e
    | Returns _ =>
        (* st.sidebar.radio(..., key="stores_radio") *)
        session_set "stores_radio" (VStr selected_label);;
        activate env selected_store;;
        delete_active_store env delete_clicked selected_store
    end
  else
    ui SidebarInfo [Lit "Click 'Refresh stores' to load available File Search stores."].

(** Loading the documents of the active store when the cache is missing or
    tagged with another store. *)
Definition autoload_documents (store_name : pyval) : M unit :=
  cached ← get (fun s => bool_decide (is_Some (session s !! "store_documents")));
  tag ← session_get "_store_docs_for" VNone;
  if negb cached || negb (py_eq tag store_name) then
    docs ← list_store_documents env store_name;
    session_set "store_documents" docs;;
    session_set "_store_docs_for" store_name
  else ret tt.

(** [str(n)] for a length *)
Definition str_of_nat (n : nat) : string :=
  NilZero.string_of_uint (Nat.to_uint n).

(** One row of the documents table. *)
Definition doc_row (d : pyval) : pyval :=
  VDict [("display_name", _safe_get d "display_name" (VStr ""));
         ("name", _safe_get d "name" (VStr ""));
         ("create_time", _safe_get d "create_time" (VStr ""));
         ("update_time", _safe_get d "update_time" (VStr ""))].

(** [[_safe_get(d, "name", "") for d in docs if _safe_get(d, "name", "")]] *)
Fixpoint options_keys (docs : list pyval) : list pyval :=
  match docs with
  | [] => []
  | d :: rest =>
      if truthy (_safe_get d "name" (VStr ""))
      then _safe_get d "name" (VStr "") :: options_keys rest
      else options_keys rest
  end.

(** The documents panel: the [Refresh store files] button, the table and the
    deletion controls.  [chosen] is what the multiselect gives back when
    [Select all documents] is not ticked.  The check box and the multiselect
    have keys, so the value of each is stored in the session under its key
    when it is rendered. *)
Definition documents_panel (refresh_clicked : bool) (select_all_docs : bool)
           (chosen : list pyval) (delete_docs_clicked : bool) (store_name : pyval)
  : M unit :=
  (if refresh_clicked then
     docs ← list_store_documents env store_name;
     session_set "store_documents" docs
   else ret tt);;
  docs ← session_get "store_documents" (VList []);
  if truthy docs then
    match extend [] docs with
    | Raises e => raise e
    | Returns ds =>
        ui StTable [Val (VList (map doc_row ds))];;
        (* Document deletion controls *)
        let options_keys := options_keys ds in
        (* st.checkbox("Select all documents", key="_select_all_docs") *)
        session_set "_select_all_docs" (VBool select_all_docs);;
        (if select_all_docs
         then ui StInfo [Lit "All "; Lit (str_of_nat (List.length options_keys));
                         Lit " documents will be deleted."]
         else
           (* st.multiselect(..., key="_selected_doc_names_some") *)
           session_set "_selected_doc_names_some" (VList chosen));;
        let selected_doc_names := if select_all_docs then options_keys else chosen in
        delete_documents env delete_docs_clicked selected_doc_names store_name
    end
  else
    ui StWrite [Lit "No files listed yet. Click 'Refresh store files' to load documents."].

(** The first tab. *)
Definition upload_tab (fuel : nat) (refresh_clicked select_all_docs : bool)
           (chosen : list pyval) (delete_docs_clicked upload_clicked : bool)
           (uploaded_files : list uploaded_file) : M unit :=
  store_name ← session_get "file_search_store_name" VNone;
  if negb (truthy store_name) then
    ui StInfo [Lit "Create or select a File Search store in the sidebar first."]
  else
    ui StMarkdown [Lit "Current store: `"; Val store_name; Lit "`"];;
    autoload_documents store_name;;
    documents_panel refresh_clicked select_all_docs chosen delete_docs_clicked
                    store_name;;
    upload_and_import env fuel upload_clicked uploaded_files store_name.

End Page.

(** ** Stubs

    Stand-ins for the remote service, used to run the handlers on concrete
    inputs.  The world of a stub counts the status checks made so far. *)

Definition stub_env (listing : reply robj) (delete_doc : pyval -> reply unit)
           (write : string -> reply unit) (upload : reply pyval)
           (status : nat -> reply pyval)
           (table : string -> option string) : Env nat :=
  {| file_search_stores_list := fun _ w => (w, listing);
     documents_list := fun _ _ w => (w, listing);
     file_search_stores_delete := fun _ w => (w, Returns tt);
     documents_delete := fun name _ w => (w, delete_doc name);
     upload_to_file_search_store := fun _ _ _ w => (w, upload);
     operations_get := fun _ w => (S w, status w);
     generate_content := fun _ _ _ w => (w, Returns (VObj [("text", VStr "{}")]));
     named_temporary_file := fun suffix w => (w, Returns ("/tmp/tmpk3x9" ++ suffix));
     tmp_write := fun path _ w => (w, write path);
     guess_type := table |}.

(** A stub whose [list] calls reply [listing] and whose other calls return. *)
Definition listing_env (listing : reply robj) : Env nat :=
  stub_env listing (fun _ => Returns tt) (fun _ => Returns tt) (Returns VNone)
           (fun _ => Returns VNone) (fun _ => None).

(** A stub whose delete of the document [missing] raises. *)
Definition deleting_env (missing : string) : Env nat :=
  stub_env (Returns (RVal (VList [])))
           (fun name => if py_eq name (VStr missing)
                        then Raises (PyExc "ClientError" "404 NOT_FOUND")
                        else Returns tt)
           (fun _ => Returns tt) (Returns VNone) (fun _ => Returns VNone)
           (fun _ => None).

(** A stub whose import is done at the [n]-th status check; before that the
    handle says it is not done. *)
Definition importing_env (n : nat) : Env nat :=
  stub_env (Returns (RVal (VList []))) (fun _ => Returns tt) (fun _ => Returns tt)
           (Returns (VObj [("name", VStr "operations/1"); ("done", VBool false)]))
           (fun checks =>
              Returns (VObj [("name", VStr "operations/1");
                             ("done", VBool (Nat.leb n (S checks)))]))
           (fun _ => None).

(** A stub whose operation handles have no [done] attribute. *)
Definition flagless_env : Env nat :=
  stub_env (Returns (RVal (VList []))) (fun _ => Returns tt) (fun _ => Returns tt)
           (Returns (VObj [("name", VStr "operations/1")]))
           (fun _ => Returns (VObj [("name", VStr "operations/1")]))
           (fun _ => None).

(** A stub on which writing the temporary file at [path] raises; every
    other call returns, and an import is done at once. *)
Definition write_failing_env (path : string) : Env nat :=
  stub_env (Returns (RVal (VList []))) (fun _ => Returns tt)
           (fun p => if String.eqb p path
                     then Raises (PyExc "OSError" "[Errno 28] No space left on device")
                     else Returns tt)
           (Returns (VObj [("done", VBool true)]))
           (fun _ => Returns (VObj [("done", VBool true)]))
           (fun _ => None).

(** A stub of the create call: the new store gets its identifier from the
    display name; an empty display name is refused. *)
Definition stub_create (d : string) (w : nat) : nat * reply pyval :=
  if String.eqb d ""
  then (w, Raises (PyExc "ClientError" "400 INVALID_ARGUMENT"))
  else (w, Returns (VObj [("name", VStr ("fileSearchStores/" ++ d));
                          ("display_name", VStr d)])).

(** A script run starts with none of its variables bound. *)
Definition fresh (sess : gmap string pyval) : state nat :=
  State 0 sess [] None None [] [].

(** A pager stub over the pages [page :: more]: every page but the last has
    a next page; after the last page [has_next_page()] is false, or, with
    [fail = Some e], it is true and [next_page()] raises [e]. *)
Fixpoint pager_of (page : list pyval) (more : list (list pyval))
         (fail : option exn) : robj :=
  match more with
  | [] =>
      match fail with
      | None => RPager [("page", VList page)] (Returns (VBool false))
                       (Raises (PyExc "IndexError" "No more pages to fetch."))
      | Some e => RPager [("page", VList page)] (Returns (VBool true)) (Raises e)
      end
  | p :: more' =>
      RPager [("page", VList page)] (Returns (VBool true))
             (Returns (pager_of p more' fail))
  end.

Definition named (prefix : string) (ids : list string) : list pyval :=
  map (fun i => VObj [("name", VStr (prefix ++ i))]) ids.

(** ** Vocabulary of the statements *)

(** The shapes of a listing result the pager drain is specified on, and what
    the drain is to return on each: a cursor over the pages [page :: more]
    (after which there is no next page, or advancing raises), an object with
    the named collection attribute, a plain list or tuple, or a [list] call
    that raises. *)
Inductive listing_shape : Type :=
| Cursor (page : list pyval) (more : list (list pyval)) (advance_fails : option exn)
| Collection (items : pyval)
| Plain (items : list pyval)
| PlainTuple (items : list pyval)
| Failed (e : exn).

Definition spec_drain (sh : listing_shape) : pyval :=
  match sh with
  | Cursor page more _ => VList (page ++ concat more)%list
  | Collection items => items
  | Plain items | PlainTuple items => VList items
  | Failed _ => VList []
  end.

Definition spec_warning (w : widget) (prefix : string) (sh : listing_shape)
  : list event :=
  match sh with
  | Failed e => [EvUi w [Lit prefix; Lit (str_of_exn e)]]
  | _ => []
  end.

(** The reply of the [list] call that has the given shape. *)
Definition as_reply (collection : string) (sh : listing_shape) : reply robj :=
  match sh with
  | Cursor page more fail => Returns (pager_of page more fail)
  | Collection items => Returns (RVal (VObj [(collection, items)]))
  | Plain items => Returns (RVal (VList items))
  | PlainTuple items => Returns (RVal (VTuple items))
  | Failed e => Raises e
  end.

(** A run that leaves the session, the files on disk and the script's
    variables as they were: it may only advance the world and write to the
    log. *)
Definition untouched {W} (s s' : state W) : Prop :=
  session s' = session s ∧ files s' = files s ∧
  display_name s' = display_name s ∧ temp_path s' = temp_path s ∧
  results s' = results s.

(** A log made of rounds of the polling loop only: a sleep of 2 seconds,
    then one status check. *)
Fixpoint poll_rounds (l : list event) : bool :=
  match l with
  | [] => true
  | EvSleep 2 :: EvOperationsGet _ _ :: rest => poll_rounds rest
  | _ => false
  end.

(** A string of white space only: every character of it is white space for
    [str.isspace]. *)
Definition all_space (s : string) : bool :=
  forallb Str.is_space_char (Str.utf8_chars s).

(** The calls to the remote service among the events of a log. *)
Definition is_remote (e : event) : bool :=
  match e with
  | EvListStores _ _ | EvListDocuments _ _ _ | EvDeleteStore _ _
  | EvDeleteDocument _ _ _ | EvUpload _ _ _ _ | EvOperationsGet _ _
  | EvGenerateContent _ _ _ _ => true
  | _ => false
  end.

Definition remote_calls (l : list event) : list event := List.filter is_remote l.

Definition is_sleep (e : event) : bool :=
  match e with EvSleep _ => true | _ => false end.

Definition is_list_stores (e : event) : bool :=
  match e with EvListStores _ _ => true | _ => false end.

(** What a run added to the log. *)
Definition new_log {W} (s s' : state W) : list event :=
  drop (List.length (log s)) (log s').

(** The result record of one item of a batch delete. *)
Definition delete_record (document : pyval) (failed : option exn) : pyval :=
  VDict [("document", document);
         ("status", VStr match failed with
                         | None => "deleted"
                         | Some e => "error: " ++ str_of_exn e
                         end)].

(** What the service answers to the forced deletes of a batch, one after the
    other, and the world after them. *)
Fixpoint delete_replies {W} (env : Env W) (names : list pyval) (w : W)
  : list (option exn) * W :=
  match names with
  | [] => ([], w)
  | name :: rest =>
      let '(w', r) := documents_delete env name true w in
      let '(fs, w'') := delete_replies env rest w' in
      (failure r :: fs, w'')
  end.

(** The handle and the world after [n] status checks that all return. *)
Fixpoint refetch {W} (env : Env W) (n : nat) (operation : pyval) (w : W)
  : option (pyval * W) :=
  match n with
  | O => Some (operation, w)
  | S n' =>
      match operations_get env operation w with
      | (w', Returns operation') => refetch env n' operation' w'
      | (_, Raises _) => None
      end
  end.

(** What [n] rounds of the polling loop write to the log. *)
Fixpoint poll_log {W} (env : Env W) (n : nat) (operation : pyval) (w : W)
  : list event :=
  match n with
  | O => []
  | S n' =>
      let '(w', r) := operations_get env operation w in
      EvSleep 2 :: EvOperationsGet operation (failure r) ::
        match r with
        | Returns operation' => poll_log env n' operation' w'
        | Raises _ => []
        end
  end.

(** The import is done after exactly [n] status checks. *)
Definition done_after {W} (env : Env W) (n : nat) (operation : pyval) (w : W)
           (final : pyval) (w' : W) : Prop :=
  refetch env n operation w = Some (final, w') ∧
  not_done final = false ∧
  ∀ k, (k < n)%nat → ∃ o wk, refetch env k operation w = Some (o, wk) ∧ not_done o = true.

(** The import is never done: every status check returns a handle that is
    not done. *)
Definition never_done {W} (env : Env W) (operation : pyval) (w : W) : Prop :=
  ∀ k, ∃ o wk, refetch env k operation w = Some (o, wk) ∧ not_done o = true.

(** The status check after [n] checks that return raises [e]: the handle
    the upload call returned and the [n] handles fetched after it are not
    done, and fetching the next one raises. *)
Definition fails_after {W} (env : Env W) (n : nat) (operation : pyval) (w : W)
           (e : exn) (w' : W) : Prop :=
  (∃ o wn, refetch env n operation w = Some (o, wn) ∧
           operations_get env o wn = (w', Raises e)) ∧
  ∀ k, (k ≤ n)%nat → ∃ o wk, refetch env k operation w = Some (o, wk) ∧ not_done o = true.

(** The remote calls of an upload: the upload call and the status checks. *)
Definition is_upload_call (e : event) : bool :=
  match e with EvUpload _ _ _ _ | EvOperationsGet _ _ => true | _ => false end.

(** The events of an upload: anything local, and of the remote calls the
    upload call and the status checks. *)
Definition upload_event (e : event) : bool := negb (is_remote e) || is_upload_call e.

(** From [s] to [s'] the log has only grown, by events that satisfy [P]. *)
Definition only_adds {W} (P : event -> bool) (s s' : state W) : Prop :=
  ∃ added, log s' = (log s ++ added)%list ∧ forallb P added = true.

(** A fragment that keeps a property [I] of the session, however it ends. *)
Definition preserves {W A} (I : gmap string pyval -> Prop) (m : M (W:=W) A) : Prop :=
  ∀ s, I (session s) → I (session (fst (m s))).

(** The document cache of the session is there and tagged with [store_name]. *)
Definition cache_tagged (store_name : pyval) (σ : gmap string pyval) : Prop :=
  is_Some (σ !! "store_documents") ∧ σ !! "_store_docs_for" = Some store_name.

(** The success record of an upload. *)
Definition success_record (guess : string -> option string) (filename : string)
  : pyval :=
  VDict [("file", VStr filename);
         ("display_name", VStr (fst (OsPath.splitext filename)));
         ("mime_type", VStr (guess_mime guess filename));
         ("status", VStr "success")].

(** Two file names that differ in the case of their extension only. *)
Definition same_but_extension_case (f1 f2 : string) : Prop :=
  fst (OsPath.splitext f1) = fst (OsPath.splitext f2) ∧
  Str.lower (snd (OsPath.splitext f1)) = Str.lower (snd (OsPath.splitext f2)).

(** A platform table in the manner of the Python library's: the suffix of a
    compression encoding ([.Z], [.gz]; these are matched with their case) is
    taken off first, then the type is looked up by the lower-cased
    extension. *)
Definition platform_table (filename : string) : option string :=
  let '(base, ext) := OsPath.splitext filename in
  let ext :=
    if String.eqb ext ".Z" || String.eqb ext ".gz"
    then snd (OsPath.splitext base) else ext in
  dict_get [(".tar", "application/x-tar"); (".pdf", "application/pdf");
            (".txt", "text/plain")] (Str.lower ext).

(** * Properties *)

(** ** Values *)

Lemma pyval_nested_ind (P : pyval → Prop) :
  P VNone →
  (∀ b, P (VBool b)) →
  (∀ s, P (VStr s)) →
  (∀ xs, Forall P xs → P (VList xs)) →
  (∀ xs, Forall P xs → P (VTuple xs)) →
  (∀ kvs, Forall (fun kv => P (snd kv)) kvs → P (VDict kvs)) →
  (∀ kvs, Forall (fun kv => P (snd kv)) kvs → P (VObj kvs)) →
  ∀ v, P v.
Proof.
  intros Hn Hb Hs Hl Ht Hd Ho.
  refine (fix go (v : pyval) : P v :=
            match v with
            | VNone => Hn
            | VBool b => Hb b
            | VStr s => Hs s
            | VList xs => Hl xs _
            | VTuple xs => Ht xs _
            | VDict kvs => Hd kvs _
            | VObj kvs => Ho kvs _
            end).
  - induction xs as [|x xs IH]; constructor; [apply go | exact IH].
  - induction xs as [|x xs IH]; constructor; [apply go | exact IH].
  - induction kvs as [|[k x] kvs IH]; constructor; [apply go | exact IH].
  - induction kvs as [|[k x] kvs IH]; constructor; [apply go | exact IH].
Qed.

Lemma py_eq_sound (a : pyval) : ∀ b, py_eq a b = true → a = b.
Proof.
  induction a as [ | x | x | xs IH | xs IH | kvs IH | kvs IH ] using pyval_nested_ind;
    intros [ | y | y | ys | ys | ys | ys ]; simpl; try discriminate; intros H.
  - reflexivity.
  - f_equal. destruct x, y; simpl in H; congruence.
  - f_equal. by apply String.eqb_eq.
  - f_equal. revert ys H.
    induction IH as [|x xs Hx _ IHxs]; intros [|y ys] H; try discriminate; [done|].
    apply andb_prop in H as [H1 H2]. f_equal; [by apply Hx | by apply IHxs].
  - f_equal. revert ys H.
    induction IH as [|x xs Hx _ IHxs]; intros [|y ys] H; try discriminate; [done|].
    apply andb_prop in H as [H1 H2]. f_equal; [by apply Hx | by apply IHxs].
  - f_equal. revert ys H.
    induction IH as [|[k x] xs Hx _ IHxs]; intros [|[k' y] ys] H;
      try discriminate; [done|].
    apply andb_prop in H as [H1 H2]. apply andb_prop in H1 as [H0 H1].
    apply String.eqb_eq in H0. simpl in Hx.
    f_equal; [f_equal; [done | by apply Hx] | by apply IHxs].
  - f_equal. revert ys H.
    induction IH as [|[k x] xs Hx _ IHxs]; intros [|[k' y] ys] H;
      try discriminate; [done|].
    apply andb_prop in H as [H1 H2]. apply andb_prop in H1 as [H0 H1].
    apply String.eqb_eq in H0. simpl in Hx.
    f_equal; [f_equal; [done | by apply Hx] | by apply IHxs].
Qed.

Lemma py_eq_refl (a : pyval) : py_eq a a = true.
Proof.
  induction a as [ | x | x | xs IH | xs IH | kvs IH | kvs IH ] using pyval_nested_ind;
    simpl.
  - reflexivity.
  - by destruct x.
  - apply String.eqb_refl.
  - induction IH as [|x xs Hx _ IHxs]; [done|]. by rewrite Hx, IHxs.
  - induction IH as [|x xs Hx _ IHxs]; [done|]. by rewrite Hx, IHxs.
  - induction IH as [|[k x] xs Hx _ IHxs]; [done|].
    simpl in Hx. by rewrite String.eqb_refl, Hx, IHxs.
  - induction IH as [|[k x] xs Hx _ IHxs]; [done|].
    simpl in Hx. by rewrite String.eqb_refl, Hx, IHxs.
Qed.

Lemma py_eq_true_iff (a b : pyval) : py_eq a b = true ↔ a = b.
Proof. split; [apply py_eq_sound | intros ->; apply py_eq_refl]. Qed.

Lemma py_eq_false_iff (a b : pyval) : py_eq a b = false ↔ a ≠ b.
Proof.
  rewrite <- py_eq_true_iff. destruct (py_eq a b); split; congruence.
Qed.

(** ** Worked examples *)

Example splitext_report : OsPath.splitext "report.pdf" = ("report", ".pdf").
Proof. reflexivity. Qed.

Example splitext_last_dot_only : OsPath.splitext "a.tar.gz" = ("a.tar", ".gz").
Proof. reflexivity. Qed.

Example splitext_leading_dot : OsPath.splitext ".bashrc" = (".bashrc", "").
Proof. reflexivity. Qed.

Example splitext_dotted_directory : OsPath.splitext "dir.d/notes" = ("dir.d/notes", "").
Proof. reflexivity. Qed.

Example strip_question : Str.strip "  Acme Corp
 " = "Acme Corp".
Proof. reflexivity. Qed.

(** White space outside ASCII is trimmed as well, and a string made of it is
    empty after [strip]. *)
Example strip_unicode_space :
  Str.strip (nbsp ++ " Acme Corp" ++ ideographic_space ++ nbsp ++ nl) = "Acme Corp" ∧
  Str.strip (nbsp ++ ideographic_space) = "".
Proof. split; reflexivity. Qed.

(** The letter U+00E0 ends with the byte that ends U+00A0; it is no white
    space, and white space inside the text stays. *)
Example strip_keeps_text :
  let a_grave := String (ascii_of_nat 195) (String (ascii_of_nat 160) EmptyString) in
  Str.strip (" voil" ++ a_grave ++ nbsp ++ a_grave ++ " ") = "voil" ++ a_grave ++ nbsp ++ a_grave.
Proof. reflexivity. Qed.

Example prompt_literal_length : String.length prompt_literal = 1128%nat.
Proof. reflexivity. Qed.

(** ** The MIME resolver *)

Lemma dict_get_None {V} (d : list (string * V)) (k : string) :
  ¬ In k (map fst d) → dict_get d k = None.
Proof.
  induction d as [|[k' v] d IH]; simpl; [done|].
  intros H. destruct (String.eqb_spec k' k) as [->|Hne].
  - exfalso. apply H. by left.
  - apply IH. intros Hin. apply H. by right.
Qed.

(** C8, as the code has it.  [guess_mime] is a function of the file name and
    the platform table: it returns the platform's type when the table has a
    non-empty one; on a miss it returns the type the override table gives for
    the lower-cased extension (the seven entries below); with neither, it
    returns application/octet-stream.  On file names the platform table
    misses, the result does not depend on the case of the extension. *)
Theorem guess_mime_resolution (guess : string → option string) (filename : string) :
  (∀ m, guess filename = Some m → m ≠ "" → guess_mime guess filename = m) ∧
  (str_truthy (guess filename) = false →
   ∀ m, In (Str.lower (snd (OsPath.splitext filename)), m)
           [ (".md", "text/markdown"); (".txt", "text/plain"); (".csv", "text/csv");
             (".json", "application/json"); (".pdf", "application/pdf");
             (".html", "text/html"); (".xml", "application/xml") ] →
        guess_mime guess filename = m) ∧
  (str_truthy (guess filename) = false →
   ¬ In (Str.lower (snd (OsPath.splitext filename)))
        [".md"; ".txt"; ".csv"; ".json"; ".pdf"; ".html"; ".xml"] →
   guess_mime guess filename = "application/octet-stream") ∧
  (∀ filename', same_but_extension_case filename filename' →
                str_truthy (guess filename) = false →
                str_truthy (guess filename') = false →
                guess_mime guess filename = guess_mime guess filename').
Proof.
  unfold guess_mime. repeat split.
  - intros m -> Hm. destruct m; [done | reflexivity].
  - intros -> m Hin. simpl.
    repeat (destruct Hin as [Hin|Hin];
            [injection Hin as Hext <-; rewrite <- Hext; reflexivity|]).
    destruct Hin.
  - intros -> Hnot. cbn [negb].
    rewrite (dict_get_None common); [reflexivity | exact Hnot].
  - intros filename' [_ Hext] -> ->. cbn [negb]. by rewrite Hext.
Qed.

(** The resolver on four names: a platform hit, an override hit, the default,
    and two spellings of an extension the platform table misses. *)
Lemma guess_mime_resolution_witness :
  guess_mime platform_table "Q3.PDF" = "application/pdf" ∧
  guess_mime platform_table "NOTES.MD" = "text/markdown" ∧
  guess_mime platform_table "core.dump" = "application/octet-stream" ∧
  guess_mime platform_table "data.Json" = guess_mime platform_table "data.JSON".
Proof.
  split; [|split; [|split]].
  - apply (proj1 (guess_mime_resolution platform_table "Q3.PDF")).
    + reflexivity.
    + discriminate.
  - apply (proj1 (proj2 (guess_mime_resolution platform_table "NOTES.MD"))).
    + reflexivity.
    + simpl. tauto.
  - apply (proj1 (proj2 (proj2 (guess_mime_resolution platform_table "core.dump")))).
    + reflexivity.
    + simpl. intros H. repeat (destruct H as [H|H]; [discriminate H|]). exact H.
  - apply (proj2 (proj2 (proj2 (guess_mime_resolution platform_table "data.Json")))).
    + split; reflexivity.
    + reflexivity.
    + reflexivity.
Defined.

(** C8 as stated fails: with a platform table that tells [.Z] from [.z], two
    names that differ in the case of the extension only get different
    types. *)
Lemma guess_mime_case_counterexample :
  ¬ (∀ (guess : string → option string) (f1 f2 : string),
       same_but_extension_case f1 f2 → guess_mime guess f1 = guess_mime guess f2).
Proof.
  intros H.
  specialize (H platform_table "a.tar.Z" "a.tar.z" (conj eq_refl eq_refl)).
  vm_compute in H. discriminate H.
Qed.

(** ** The pager drain *)

Ltac run :=
  unfold mbind, M_bind, mret, M_ret, bind, ret, raise, try_except, call, ui, emit,
    modify, get, session_set, session_get, session_pop in *.

Lemma page_of_pager (page : list pyval) more fail d :
  robj_getattr (pager_of page more fail) "page" d = VList page.
Proof. destruct more; [destruct fail|]; reflexivity. Qed.

Lemma hasattr_page_pager (page : list pyval) more fail :
  robj_hasattr (pager_of page more fail) "page" = true.
Proof. destruct more; [destruct fail|]; reflexivity. Qed.

(** The loop over a pager stub appends the further pages in order and stops
    where the stub does. *)
Lemma next_pages_pager_of more : ∀ (page : list pyval) fail acc,
  next_pages (pager_of page more fail) acc =
    ((acc ++ concat more)%list,
     match fail with None => Returns tt | Some e => Raises e end).
Proof.
  induction more as [|p more IH]; intros page fail acc.
  - destruct fail; simpl; by rewrite app_nil_r.
  - simpl. rewrite page_of_pager. simpl. rewrite IH. by rewrite <- app_assoc.
Qed.

Lemma drain_shape collection (sh : listing_shape) pager :
  as_reply collection sh = Returns pager →
  collection ≠ "page" →
  drain collection pager [] = (spec_drain sh, Returns tt).
Proof.
  intros Hsh Hc. destruct sh as [page more fail|items|items|items|e]; simpl in Hsh;
    try discriminate; injection Hsh as <-.
  - unfold drain. rewrite hasattr_page_pager, page_of_pager. simpl.
    by rewrite next_pages_pager_of.
  - unfold drain. simpl.
    destruct (String.eqb_spec collection "page") as [->|_]; [done|].
    simpl. by rewrite String.eqb_refl.
  - reflexivity.
  - reflexivity.
Qed.

Lemma list_stores_run {W} (env : Env W) (s : state W) :
  list_stores env s =
    let '(w', r) := file_search_stores_list env 20 (world s) in
    let s1 := add_log (EvListStores 20 (failure r)) (set_world w' s) in
    match r with
    | Returns pager =>
        match drain "stores" pager [] with
        | (v, Returns _) => (s1, Ok v)
        | (v, Raises e) =>
            (add_log (EvUi SidebarError [Lit "Failed to list stores: "; Lit (str_of_exn e)]) s1,
             Ok v)
        end
    | Raises e =>
        (add_log (EvUi SidebarError [Lit "Failed to list stores: "; Lit (str_of_exn e)]) s1,
         Ok (VList []))
    end.
Proof.
  unfold list_stores. run.
  destruct (file_search_stores_list env 20 (world s)) as [w' [pager|e]]; simpl.
  - destruct (drain "stores" pager []) as [v [[]|e]]; reflexivity.
  - reflexivity.
Qed.

Lemma list_store_documents_run {W} (env : Env W) (parent : pyval) (s : state W) :
  list_store_documents env parent s =
    let '(w', r) := documents_list env parent 20 (world s) in
    let s1 := add_log (EvListDocuments parent 20 (failure r)) (set_world w' s) in
    match r with
    | Returns pager =>
        match drain "documents" pager [] with
        | (v, Returns _) => (s1, Ok v)
        | (v, Raises e) =>
            (add_log (EvUi StError [Lit "Failed to list store files: "; Lit (str_of_exn e)]) s1,
             Ok v)
        end
    | Raises e =>
        (add_log (EvUi StError [Lit "Failed to list store files: "; Lit (str_of_exn e)]) s1,
         Ok (VList []))
    end.
Proof.
  unfold list_store_documents. run.
  destruct (documents_list env parent 20 (world s)) as [w' [pager|e]]; simpl.
  - destruct (drain "documents" pager []) as [v [[]|e]]; reflexivity.
  - reflexivity.
Qed.

(** Both listings always return: no exception leaves them. *)
Lemma list_stores_returns {W} (env : Env W) (s : state W) :
  ∃ s' v, list_stores env s = (s', Ok v).
Proof.
  rewrite list_stores_run.
  destruct (file_search_stores_list env 20 (world s)) as [w' [pager|e]]; simpl.
  - destruct (drain "stores" pager []) as [v [[]|e]]; eauto.
  - eauto.
Qed.

Lemma list_store_documents_returns {W} (env : Env W) parent (s : state W) :
  ∃ s' v, list_store_documents env parent s = (s', Ok v).
Proof.
  rewrite list_store_documents_run.
  destruct (documents_list env parent 20 (world s)) as [w' [pager|e]]; simpl.
  - destruct (drain "documents" pager []) as [v [[]|e]]; eauto.
  - eauto.
Qed.

(** C3.  The store listing and the document listing never let an exception
    out, and on each shape of listing result they return what the reference
    drain returns: for a cursor the current page followed by every further
    page in page order, up to the page after which there is no next page or
    advancing raises (nothing is reported then); for an object with the
    collection attribute, that collection; for a plain list or tuple, its
    items unchanged; and when the [list] call itself raises, the empty list, with
    one error message shown and the script going on. *)
Theorem pager_drain_spec {W} (env : Env W) (s : state W) (parent : pyval) :
  (∃ s' v, list_stores env s = (s', Ok v)) ∧
  (∃ s' v, list_store_documents env parent s = (s', Ok v)) ∧
  (∀ sh w',
     file_search_stores_list env 20 (world s) = (w', as_reply "stores" sh) →
     list_stores env s =
       (State w' (session s) (files s) (display_name s) (temp_path s) (results s)
              (log s ++ EvListStores 20 (failure (as_reply "stores" sh))
                     :: spec_warning SidebarError "Failed to list stores: " sh),
        Ok (spec_drain sh))) ∧
  (∀ sh w',
     documents_list env parent 20 (world s) = (w', as_reply "documents" sh) →
     list_store_documents env parent s =
       (State w' (session s) (files s) (display_name s) (temp_path s) (results s)
              (log s ++ EvListDocuments parent 20 (failure (as_reply "documents" sh))
                     :: spec_warning StError "Failed to list store files: " sh),
        Ok (spec_drain sh))).
Proof.
  split; [apply list_stores_returns|].
  split; [apply list_store_documents_returns|].
  split.
  - intros sh w' Hcall. rewrite list_stores_run, Hcall.
    destruct (as_reply "stores" sh) as [pager|e] eqn:Hsh.
    + rewrite (drain_shape "stores" sh pager Hsh) by discriminate.
      destruct sh; try discriminate; simpl; reflexivity.
    + destruct sh; try discriminate. injection Hsh as ->.
      simpl. unfold add_log, set_world. simpl. by rewrite <- app_assoc.
  - intros sh w' Hcall. rewrite list_store_documents_run, Hcall.
    destruct (as_reply "documents" sh) as [pager|e] eqn:Hsh.
    + rewrite (drain_shape "documents" sh pager Hsh) by discriminate.
      destruct sh; try discriminate; simpl; reflexivity.
    + destruct sh; try discriminate. injection Hsh as ->.
      simpl. unfold add_log, set_world. simpl. by rewrite <- app_assoc.
Qed.

(** A cursor stub with pages of sizes 5, 5 and 2 drains to the 12 items in
    page order; a cursor stub whose advance raises after the first page
    drains to that page's 5 items. *)
Lemma pager_drain_spec_witness :
  snd (list_stores
         (listing_env (as_reply "stores"
                         (Cursor (named "s" ["1"; "2"; "3"; "4"; "5"])
                                 [named "s" ["6"; "7"; "8"; "9"; "10"];
                                  named "s" ["11"; "12"]] None)))
         (fresh ∅))
  = Ok (VList (named "s" ["1"; "2"; "3"; "4"; "5"; "6"; "7"; "8"; "9"; "10";
                          "11"; "12"]))
  ∧
  snd (list_store_documents
         (listing_env (as_reply "documents"
                         (Cursor (named "d" ["1"; "2"; "3"; "4"; "5"]) []
                                 (Some (PyExc "ServerError" "503")))))
         (VStr "fileSearchStores/a") (fresh ∅))
  = Ok (VList (named "d" ["1"; "2"; "3"; "4"; "5"])).
Proof.
  split.
  - rewrite (proj1 (proj2 (proj2 (pager_drain_spec (listing_env _) (fresh ∅) VNone)))
               (Cursor (named "s" ["1"; "2"; "3"; "4"; "5"])
                       [named "s" ["6"; "7"; "8"; "9"; "10"];
                        named "s" ["11"; "12"]] None) 0%nat eq_refl).
    reflexivity.
  - rewrite (proj2 (proj2 (proj2 (pager_drain_spec (listing_env _) (fresh ∅)
                                                    (VStr "fileSearchStores/a"))))
               (Cursor (named "d" ["1"; "2"; "3"; "4"; "5"]) []
                       (Some (PyExc "ServerError" "503"))) 0%nat eq_refl).
    reflexivity.
Defined.

(** ** Deleting the active store *)

Lemma bind_ok {W A B} (m : M A) (k : A → M B) (s s1 : state W) (a : A) :
  m s = (s1, Ok a) → (m ≫= k) s = k a s1.
Proof. intros H. unfold mbind, M_bind, bind. by rewrite H. Qed.

(** C4, as the code has it.  With an empty identifier the handler reports the
    validation error and does nothing else: no remote call, session and
    cached store list as they were.  With a non-empty identifier it makes one
    remote delete and, whether that call returns or raises, then fetches the
    store list again and puts it in the session. *)
Theorem delete_active_store_spec {W} (env : Env W) (s : state W) (store : pyval) :
  truthy store = true →
  let name := _safe_get store "name" (VStr "") in
  (truthy name = false →
   delete_active_store env true store s =
     (add_log (EvUi SidebarError [Lit "No store resource name available for deletion."]) s,
      Ok tt))
  ∧
  (truthy name = true →
   ∀ w' r, file_search_stores_delete env name (world s) = (w', r) →
   ∃ s1 s2 stores shown,
     world s1 = w' ∧
     log s1 = (log s ++ [EvDeleteStore name (failure r); shown])%list ∧
     is_remote shown = false ∧
     list_stores env s1 = (s2, Ok stores) ∧
     delete_active_store env true store s =
       (set_session (<["stores_list" := stores]> (session s2)) s2, Ok tt)).
Proof.
  intros Hstore name. unfold delete_active_store. rewrite Hstore. simpl.
  fold name. split; intros Hname; rewrite Hname; simpl; [reflexivity|].
  intros w' r Hdel.
  match goal with
  | |- context [try_except ?m ?h ≫= ?k] => set (block := try_except m h)
  end.
  assert (∃ s1 shown, block s = (s1, Ok tt) ∧ world s1 = w' ∧
                      log s1 = (log s ++ [EvDeleteStore name (failure r); shown])%list ∧
                      is_remote shown = false) as (s1 & shown & Hb & Hw & Hl & Hs).
  { unfold block. run. rewrite Hdel. destruct r as [[]|e]; simpl.
    - destruct (py_eq _ name); simpl; eexists _, _;
        (split; [reflexivity|]); simpl; rewrite <- app_assoc; simpl; done.
    - eexists _, _. split; [reflexivity|]. simpl. rewrite <- app_assoc. done. }
  destruct (list_stores_returns env s1) as (s2 & stores & Hlist).
  exists s1, s2, stores, shown. repeat (split; [done|]).
  rewrite (bind_ok _ _ _ _ _ Hb). rewrite (bind_ok _ _ _ _ _ Hlist). reflexivity.
Qed.

(** Deleting a named store refreshes the cached store list; deleting a store
    without identifier only reports the validation error. *)
Lemma delete_active_store_spec_witness :
  let store := VObj [("name", VStr "fileSearchStores/a")] in
  let nameless := VObj [("display_name", VStr "old")] in
  let env := listing_env (Returns (RVal (VList [store]))) in
  (∃ s', delete_active_store env true store (fresh ∅) = (s', Ok tt) ∧
         session s' !! "stores_list" = Some (VList [store])) ∧
  delete_active_store env true nameless (fresh ∅) =
    (add_log (EvUi SidebarError [Lit "No store resource name available for deletion."])
             (fresh ∅), Ok tt).
Proof.
  intros store nameless env. split.
  - destruct (proj2 (delete_active_store_spec env (fresh ∅) store eq_refl)
                    eq_refl 0%nat (Returns tt) eq_refl)
      as (s1 & s2 & stores & shown & Hw & Hl & Hs & Hlist & Hrun).
    eexists. split; [exact Hrun|].
    simpl. rewrite lookup_insert_eq. f_equal.
    rewrite list_stores_run in Hlist. simpl in Hlist. congruence.
  - exact (proj1 (delete_active_store_spec env (fresh ∅) nameless eq_refl) eq_refl).
Defined.

(** C4 as stated fails: with an empty identifier the handler reports the
    validation error and returns; the store list is not fetched again. *)
Lemma delete_without_name_counterexample :
  ¬ (∀ (env : Env nat) (s : state nat) (store : pyval),
       truthy store = true →
       existsb is_list_stores
               (new_log s (fst (delete_active_store env true store s))) = true).
Proof.
  intros H.
  specialize (H (listing_env (Returns (RVal (VList []))))
                (fresh {[ "stores_list" := VList [VObj [("display_name", VStr "old")]] ]})
                (VObj [("display_name", VStr "old")]) eq_refl).
  vm_compute in H. discriminate H.
Qed.


(** ** Store activation *)

Lemma attr_safe_get {W} (o : pyval) (a : string) (s : state W) :
  truthy (_safe_get o a (VStr "")) = true →
  attr o a s = (s, Ok (_safe_get o a (VStr ""))).
Proof.
  unfold _safe_get, getattr, attr.
  destruct o; simpl; try discriminate.
  destruct (dict_get attrs a); simpl; [reflexivity | discriminate].
Qed.

Lemma list_store_documents_frame {W} (env : Env W) parent (s s1 : state W) docs :
  list_store_documents env parent s = (s1, Ok docs) →
  session s1 = session s ∧ files s1 = files s ∧ display_name s1 = display_name s ∧
  temp_path s1 = temp_path s ∧ results s1 = results s.
Proof.
  rewrite list_store_documents_run.
  destruct (documents_list env parent 20 (world s)) as [w' [pager|e]]; simpl.
  - destruct (drain "documents" pager []) as [v [[]|e]];
      intros [= <- <-]; repeat split.
  - intros [= <- <-]; repeat split.
Qed.

(** C7, as the code has it.  Selecting a store whose identifier is non-empty
    and differs from the active one makes it the active store, lists its
    documents afresh and caches them tagged with its identifier.  Selecting
    the active store again, or a store with an empty identifier, leaves the
    session, the cache and its tag as they were, and calls nothing. *)
Theorem activate_spec {W} (env : Env W) (s : state W) (store : pyval) :
  truthy store = true →
  let sel_name := _safe_get store "name" (VStr "") in
  let active_name := default (VStr "") (session s !! "file_search_store_name") in
  let shown := EvUi SidebarSuccess [Lit "Active store: "; Val sel_name] in
  (truthy sel_name = true → sel_name ≠ active_name →
   let sess :=
     <["file_search_store_display_name" := _safe_get store "display_name" (VStr "")]>
       (<["file_search_store_name" := sel_name]>
          (<["file_search_store" := store]> (session s))) in
   ∃ s1 docs,
     list_store_documents env sel_name (set_session sess s) = (s1, Ok docs) ∧
     activate env store s =
       (add_log shown
          (set_session (<["_store_docs_for" := sel_name]>
                          (<["store_documents" := docs]> sess)) s1),
        Ok tt))
  ∧
  (truthy sel_name = false ∨ sel_name = active_name →
   activate env store s = (add_log shown s, Ok tt)).
Proof.
  intros Hstore sel_name active_name shown.
  split.
  - intros Hname Hne sess. unfold activate.
    destruct (list_store_documents_returns env sel_name (set_session sess s))
      as (s1 & docs & Hlist).
    exists s1, docs. split; [exact Hlist|].
    apply py_eq_false_iff in Hne.
    unfold mbind at 1, M_bind at 1, bind at 1, session_get, get. simpl.
    fold active_name. rewrite Hstore. fold sel_name. rewrite Hname, Hne. simpl.
    unfold ensure_store_in_state.
    unfold mbind, M_bind, bind, session_set, modify at 1. simpl.
    rewrite attr_safe_get by exact Hname. fold sel_name. simpl.
    unfold set_session at 1 2 3. simpl. fold sess.
    change (State (world s) sess (files s) (display_name s) (temp_path s)
                  (results s) (log s)) with (set_session sess s).
    rewrite Hlist. simpl.
    destruct (list_store_documents_frame _ _ _ _ _ Hlist) as (-> & _).
    reflexivity.
  - intros Hnoop. unfold activate.
    unfold mbind at 1, M_bind at 1, bind at 1, session_get, get. simpl.
    fold active_name. rewrite Hstore. fold sel_name.
    assert (truthy sel_name && negb (py_eq sel_name active_name) = false) as ->.
    { destruct Hnoop as [-> | ->]; [reflexivity|].
      rewrite py_eq_refl. apply andb_false_r. }
    reflexivity.
Qed.

(** Activating store [a] in a fresh session loads and tags its documents;
    selecting it again when it is active leaves the session as it is. *)
Lemma activate_spec_witness :
  let a := VObj [("name", VStr "fileSearchStores/a"); ("display_name", VStr "A")] in
  let docs := named "fileSearchStores/a/documents/" ["1"; "2"] in
  let env := listing_env (Returns (RVal (VList docs))) in
  (∃ s', activate env a (fresh ∅) = (s', Ok tt) ∧
         session s' !! "file_search_store_name" = Some (VStr "fileSearchStores/a") ∧
         session s' !! "store_documents" = Some (VList docs) ∧
         session s' !! "_store_docs_for" = Some (VStr "fileSearchStores/a")) ∧
  (∀ sess, sess !! "file_search_store_name" = Some (VStr "fileSearchStores/a") →
           session (fst (activate env a (fresh sess))) = sess).
Proof.
  intros a docs env. split.
  - destruct (proj1 (activate_spec env (fresh ∅) a eq_refl) eq_refl)
      as (s1 & ds & Hlist & Hrun).
    + vm_compute. discriminate.
    + eexists. split; [exact Hrun|].
      rewrite list_store_documents_run in Hlist. simpl in Hlist.
      injection Hlist as <- <-. simpl. repeat split.
  - intros sess Hactive.
    rewrite (proj2 (activate_spec env (fresh sess) a eq_refl)); [reflexivity|].
    right. simpl. by rewrite Hactive.
Defined.

(** C7 as stated fails: a selected store whose identifier is empty differs
    from the active store and is not made active. *)
Lemma activate_empty_identifier_counterexample :
  ¬ (∀ (env : Env nat) (s : state nat) (store : pyval),
       truthy store = true →
       _safe_get store "name" (VStr "")
         ≠ default (VStr "") (session s !! "file_search_store_name") →
       session (fst (activate env store s)) !! "file_search_store_name"
         = Some (_safe_get store "name" (VStr ""))).
Proof.
  intros H.
  specialize (H (listing_env (Returns (RVal (VList []))))
                (fresh {[ "file_search_store_name" := VStr "fileSearchStores/a" ]})
                (VObj [("display_name", VStr "draft")]) eq_refl).
  assert (session (fst (activate (listing_env (Returns (RVal (VList []))))
                                 (VObj [("display_name", VStr "draft")])
                                 (fresh {[ "file_search_store_name" :=
                                             VStr "fileSearchStores/a" ]})))
            !! "file_search_store_name" = Some (VStr "fileSearchStores/a")) as Hrun
    by (vm_compute; reflexivity).
  rewrite Hrun in H.
  assert (Some (VStr "fileSearchStores/a") = Some (VStr "")) as Habs.
  { apply H. vm_compute. discriminate. }
  discriminate Habs.
Qed.

(** ** Batch delete *)

Lemma delete_replies_length {W} (env : Env W) (names : list pyval) : ∀ w,
  List.length (fst (delete_replies env names w)) = List.length names.
Proof.
  induction names as [|n names IH]; intros w; simpl; [done|].
  destruct (documents_delete env n true w) as [w' r].
  specialize (IH w'). destruct (delete_replies env names w') as [fs w''].
  simpl in *. by rewrite IH.
Qed.

(** The loop: one forced delete per identifier, in order, each answered by a
    record; an exception of one delete does not leave the loop. *)
Lemma delete_each_run {W} (env : Env W) (names : list pyval) : ∀ (s : state W),
  delete_each env names s =
    (State (snd (delete_replies env names (world s))) (session s) (files s)
           (display_name s) (temp_path s)
           (results s ++ zip_with delete_record names
                                  (fst (delete_replies env names (world s))))
           (log s ++ zip_with (fun n f => EvDeleteDocument n true f) names
                              (fst (delete_replies env names (world s)))),
     Ok tt).
Proof.
  induction names as [|n names IH]; intros s.
  - destruct s; simpl. unfold ret. simpl. by rewrite !app_nil_r.
  - simpl. run. unfold append_result, modify.
    destruct (documents_delete env n true (world s)) as [w' r] eqn:Hdel.
    destruct r as [[]|e]; simpl; rewrite IH; simpl;
      destruct (delete_replies env names w') as [fs w'']; simpl;
      by rewrite <- !app_assoc.
Qed.

Lemma remote_calls_deletes (names : list pyval) : ∀ fails,
  remote_calls (zip_with (fun n f => EvDeleteDocument n true f) names fails) =
  zip_with (fun n f => EvDeleteDocument n true f) names fails.
Proof.
  induction names as [|n names IH]; intros [|f fails]; simpl; try done.
  unfold remote_calls in IH. by rewrite IH.
Qed.

Lemma new_log_app {W} (s s' : state W) added :
  log s' = (log s ++ added)%list → new_log s s' = added.
Proof. intros H. unfold new_log. rewrite H. apply drop_app_length. Qed.

(** C5.  A batch delete over the selected identifiers makes exactly one
    forced remote delete per identifier, in order; its result has one record
    per identifier, marked deleted, or marked with the error message when
    that delete raised, and a delete that raises does not stop the later
    ones; after the loop the documents of the active store are listed
    exactly once and cached, whatever the deletes did. *)
Theorem batch_delete_spec {W} (env : Env W) (s : state W) (names : list pyval)
        (store_name : pyval) :
  names ≠ [] →
  let fails := fst (delete_replies env names (world s)) in
  let after := snd (delete_replies env names (world s)) in
  ∃ s' listed docs,
    delete_documents env true names store_name s = (s', Ok tt) ∧
    List.length fails = List.length names ∧
    results s' = zip_with delete_record names fails ∧
    remote_calls (new_log s s') =
      (zip_with (fun n f => EvDeleteDocument n true f) names fails
       ++ [EvListDocuments store_name 20 listed])%list ∧
    snd (list_store_documents env store_name (set_world after s)) = Ok docs ∧
    session s' = <["store_documents" := docs]> (session s).
Proof.
  intros Hnames fails after.
  unfold delete_documents.
  assert (truthy (VList names) = true) as -> by (by destruct names).
  simpl. unfold mbind, M_bind, bind, modify at 1. rewrite delete_each_run. simpl.
  fold fails after.
  rewrite !list_store_documents_run. simpl.
  destruct (documents_list env store_name 20 after) as [w' [pager|e]]; simpl.
  - destruct (drain "documents" pager []) as [docs [[]|e]]; simpl;
      eexists _, None, docs; (split; [reflexivity|]); simpl;
      (split; [apply delete_replies_length|]);
      (split; [reflexivity|]); (split; [|done]);
      [ erewrite (new_log_app s) by (simpl; rewrite <- !app_assoc; reflexivity)
      | erewrite (new_log_app s) by (simpl; rewrite <- !app_assoc; reflexivity) ];
      unfold remote_calls; rewrite List.filter_app; simpl;
      fold (remote_calls (zip_with (fun n f => EvDeleteDocument n true f) names fails));
      by rewrite remote_calls_deletes.
  - eexists _, (Some e), (VList []). (split; [reflexivity|]); simpl.
    (split; [apply delete_replies_length|]).
    (split; [reflexivity|]); (split; [|done]).
    erewrite (new_log_app s) by (simpl; rewrite <- !app_assoc; reflexivity).
    unfold remote_calls; rewrite List.filter_app; simpl.
    fold (remote_calls (zip_with (fun n f => EvDeleteDocument n true f) names fails)).
    by rewrite remote_calls_deletes.
Qed.

(** Three identifiers, the delete of the second one raising: three records,
    the second an error, four remote calls, the cache refreshed. *)
Lemma batch_delete_spec_witness :
  let names := [VStr "documents/1"; VStr "documents/2"; VStr "documents/3"] in
  let s := fresh {[ "store_documents" := VList (named "documents/" ["1"; "2"; "3"]) ]} in
  ∃ s',
    delete_documents (deleting_env "documents/2") true names
                     (VStr "fileSearchStores/a") s = (s', Ok tt) ∧
    results s' =
      [ VDict [("document", VStr "documents/1"); ("status", VStr "deleted")];
        VDict [("document", VStr "documents/2");
               ("status", VStr "error: 404 NOT_FOUND")];
        VDict [("document", VStr "documents/3"); ("status", VStr "deleted")] ] ∧
    List.length (remote_calls (new_log s s')) = 4%nat ∧
    session s' !! "store_documents" = Some (VList []).
Proof.
  intros names s.
  destruct (batch_delete_spec (deleting_env "documents/2") s names
                              (VStr "fileSearchStores/a"))
    as (s' & listed & docs & Hrun & Hlen & Hres & Hcalls & Hdocs & Hsess).
  - discriminate.
  - exists s'. split; [exact Hrun|].
    split; [rewrite Hres; reflexivity|].
    split; [rewrite Hcalls; reflexivity|].
    rewrite Hsess, lookup_insert_eq. f_equal.
    vm_compute in Hdocs. congruence.
Defined.

(** ** Ask *)

Lemma prefix_refl (s : string) : String.prefix s s = true.
Proof.
  induction s as [|c s IH]; simpl; [done|].
  by destruct (ascii_dec c c).
Qed.

Lemma prefix_app (s t : string) : String.prefix s (s ++ t) = true.
Proof.
  induction s as [|c s IH]; simpl; [by destruct t|].
  by destruct (ascii_dec c c).
Qed.

Lemma contains_prefix (sub s : string) :
  String.prefix sub s = true → Str.contains sub s = true.
Proof. intros H. destruct s; cbn [Str.contains]; by rewrite H. Qed.

Lemma contains_at_end (pre sub : string) :
  Str.contains sub (pre ++ sub) = true.
Proof.
  induction pre as [|c pre IH].
  - apply contains_prefix, prefix_refl.
  - change (String c pre ++ sub) with (String c (pre ++ sub)).
    cbn [Str.contains]. rewrite IH. apply orb_true_r.
Qed.

Lemma truthy_str (q : string) : q ≠ "" → truthy (VStr q) = true.
Proof. intros H. simpl. by destruct q. Qed.

Lemma build_config_spec (use_default_prompt : bool) (question : string)
      (store_name : pyval) :
  ∃ config,
    build_config use_default_prompt question store_name = VDict config ∧
    dict_get config "tools" =
      Some (VList [VDict [("file_search",
                           VDict [("file_search_store_names", VList [store_name])])]]) ∧
    (is_Some (dict_get config "system_instruction") ↔ use_default_prompt = true) ∧
    (use_default_prompt = true →
     ∃ text, dict_get config "system_instruction" = Some (VStr text) ∧
             Str.contains ("Input: " ++ Str.strip question) text = true).
Proof.
  unfold build_config, sys_prompt. generalize prompt_literal. intros literal.
  destruct use_default_prompt; cbn [dict_set String.eqb Ascii.eqb Bool.eqb];
    eexists; (split; [reflexivity|]); (split; [reflexivity|]);
    cbn [dict_get String.eqb Ascii.eqb Bool.eqb]; split.
  - split; [done | intros _; by eexists].
  - intros _. eexists. split; [reflexivity|].
    apply contains_at_end.
  - split; [intros [? [=]] | done].
  - done.
Qed.

Lemma ask_question_run {W} (env : Env W) (s : state W) (question model_name : string)
      (use_default_prompt : bool) (store_name : pyval) :
  Str.strip question ≠ "" →
  ∃ s' config failed,
    ask_question env true question model_name use_default_prompt store_name s
      = (s', Ok tt) ∧
    remote_calls (new_log s s') =
      [EvGenerateContent model_name (Str.strip question) (VDict config) failed] ∧
    dict_get config "tools" =
      Some (VList [VDict [("file_search",
                           VDict [("file_search_store_names", VList [store_name])])]]) ∧
    (is_Some (dict_get config "system_instruction") ↔ use_default_prompt = true) ∧
    (use_default_prompt = true →
     ∃ text, dict_get config "system_instruction" = Some (VStr text) ∧
             Str.contains ("Input: " ++ Str.strip question) text = true).
Proof.
  intros Hq. unfold ask_question. rewrite (truthy_str _ Hq).
  cbn [andb]. cbv zeta.
  destruct (build_config_spec use_default_prompt question store_name)
    as (config & -> & Htools & Hkey & Htext).
  run. cbn [fst snd].
  destruct (generate_content env model_name (Str.strip question) (VDict config)
                             (world s)) as [w' [response|e]]; simpl.
  - destruct (hasattr response "to_dict"); simpl;
      eexists _, config, None; (split; [reflexivity|]);
      (split; [|done]);
      erewrite (new_log_app s) by (simpl; rewrite <- !app_assoc; reflexivity);
      reflexivity.
  - eexists _, config, (Some e). split; [reflexivity|].
    split; [|done].
    erewrite (new_log_app s) by (simpl; rewrite <- !app_assoc; reflexivity).
    reflexivity.
Qed.

(** C6.  With [active] the identifier of the active store and a question
    that is not empty after trimming, asking makes one [generate_content]
    call, with the trimmed question as contents and a configuration whose
    file-search tool names exactly [active]; the configuration has the key
    [system_instruction] exactly when the default prompt is switched on, and
    then the instruction text contains ["Input: "] followed by the trimmed
    question. *)
Theorem ask_config_spec {W} (env : Env W) (s : state W) (question model_name : string)
        (use_default_prompt : bool) (active : pyval) :
  session s !! "file_search_store_name" = Some active →
  truthy active = true →
  Str.strip question ≠ "" →
  ∃ s' config failed,
    ask_tab env true question model_name use_default_prompt s = (s', Ok tt) ∧
    remote_calls (new_log s s') =
      [EvGenerateContent model_name (Str.strip question) (VDict config) failed] ∧
    dict_get config "tools" =
      Some (VList [VDict [("file_search",
                           VDict [("file_search_store_names", VList [active])])]]) ∧
    (is_Some (dict_get config "system_instruction") ↔ use_default_prompt = true) ∧
    (use_default_prompt = true →
     ∃ text, dict_get config "system_instruction" = Some (VStr text) ∧
             Str.contains ("Input: " ++ Str.strip question) text = true).
Proof.
  intros Hactive Htruthy Hq.
  destruct (ask_question_run
              env (set_session (<["_use_default_sys_prompt" := VBool use_default_prompt]>
                                  (session s)) s)
              question model_name use_default_prompt active Hq)
    as (s' & config & failed & Hrun & Hrest).
  exists s', config, failed. split; [|exact Hrest].
  unfold ask_tab. unfold mbind at 1, M_bind at 1, bind at 1, session_get, get.
  cbn -[ask_question]. rewrite Hactive. cbn -[ask_question].
  rewrite Htruthy. exact Hrun.
Qed.

(** The question [Acme Corp], padded with white space (spaces, a no-break
    space and a newline), with the default prompt switched on. *)
Lemma ask_config_spec_witness :
  let s := fresh {[ "file_search_store_name" := VStr "fileSearchStores/a" ]} in
  ∃ s' config failed,
    ask_tab (listing_env (Returns (RVal (VList [])))) true
            ("  Acme Corp" ++ nbsp ++ nl) "gemini-2.5-flash" true s = (s', Ok tt) ∧
    remote_calls (new_log s s') =
      [EvGenerateContent "gemini-2.5-flash" "Acme Corp" (VDict config) failed] ∧
    dict_get config "tools" =
      Some (VList [VDict [("file_search",
                           VDict [("file_search_store_names",
                                   VList [VStr "fileSearchStores/a"])])]]) ∧
    (∃ text, dict_get config "system_instruction" = Some (VStr text) ∧
             Str.contains "Input: Acme Corp" text = true).
Proof.
  intros s.
  destruct (ask_config_spec (listing_env (Returns (RVal (VList [])))) s
                            ("  Acme Corp" ++ nbsp ++ nl)
                            "gemini-2.5-flash" true (VStr "fileSearchStores/a"))
    as (s' & config & failed & Hrun & Hcalls & Htools & Hkey & Htext).
  - reflexivity.
  - reflexivity.
  - vm_compute. discriminate.
  - exists s', config, failed. split; [exact Hrun|]. split; [exact Hcalls|].
    split; [exact Htools|]. exact (Htext eq_refl).
Defined.

(** ** Upload and import: the polling loop *)

Lemma done_after_step {W} (env : Env W) n operation w final w' :
  done_after env (S n) operation w final w' →
  not_done operation = true ∧
  ∃ w1 operation1,
    operations_get env operation w = (w1, Returns operation1) ∧
    done_after env n operation1 w1 final w'.
Proof.
  intros (Hre & Hdone & Hbefore). split.
  - destruct (Hbefore 0%nat) as (o & wk & [= <- <-] & Hnd); [lia | exact Hnd].
  - simpl in Hre.
    destruct (operations_get env operation w) as [w1 [operation1|e]] eqn:Hget;
      [|discriminate].
    exists w1, operation1. split; [reflexivity|].
    split; [exact Hre|]. split; [exact Hdone|].
    intros k Hk. destruct (Hbefore (S k)) as (o & wk & Hk' & Hnd); [lia|].
    simpl in Hk'. rewrite Hget in Hk'. eauto.
Qed.

Lemma never_done_step {W} (env : Env W) operation w :
  never_done env operation w →
  not_done operation = true ∧
  ∃ w1 operation1,
    operations_get env operation w = (w1, Returns operation1) ∧
    never_done env operation1 w1.
Proof.
  intros Hnever. split.
  - destruct (Hnever 0%nat) as (o & wk & [= <- <-] & Hnd). exact Hnd.
  - destruct (Hnever 1%nat) as (o & wk & H1 & _). simpl in H1.
    destruct (operations_get env operation w) as [w1 [operation1|e]] eqn:Hget;
      [|discriminate].
    exists w1, operation1. split; [reflexivity|].
    intros k. destruct (Hnever (S k)) as (o' & wk' & Hk & Hnd).
    simpl in Hk. rewrite Hget in Hk. eauto.
Qed.

(** When the import is done after [n] status checks, the loop makes exactly
    these [n] checks and returns the final handle, given [n] rounds or more. *)
Lemma poll_done {W} (env : Env W) (n : nat) : ∀ operation (s : state W) final w' fuel,
  done_after env n operation (world s) final w' →
  (n ≤ fuel)%nat →
  poll env fuel operation s =
    (State w' (session s) (files s) (display_name s) (temp_path s) (results s)
           (log s ++ poll_log env n operation (world s)),
     Ok final).
Proof.
  induction n as [|n IH]; intros operation s final w' fuel Hdone Hfuel.
  - destruct Hdone as ([= <- <-] & Hd & _).
    destruct s; destruct fuel; simpl in *; rewrite Hd; unfold ret;
      by rewrite app_nil_r.
  - destruct fuel as [|fuel]; [lia|].
    apply done_after_step in Hdone as (Hnd & w1 & op1 & Hget & Hdone).
    simpl. rewrite Hnd. run. simpl. rewrite Hget. simpl.
    erewrite IH; [| exact Hdone | lia].
    simpl. by rewrite <- !app_assoc.
Qed.

Lemma poll_log_sleeps {W} (env : Env W) (n : nat) : ∀ operation w final w',
  done_after env n operation w final w' →
  List.filter is_sleep (poll_log env n operation w) = repeat (EvSleep 2) n.
Proof.
  induction n as [|n IH]; intros operation w final w' Hdone; [done|].
  apply done_after_step in Hdone as (_ & w1 & op1 & Hget & Hdone).
  simpl. rewrite Hget. simpl. f_equal. eapply IH, Hdone.
Qed.

(** When the import is never done, the loop uses up every budget. *)
Lemma poll_never_done {W} (env : Env W) (fuel : nat) : ∀ operation (s : state W),
  never_done env operation (world s) →
  snd (poll env fuel operation s) = Diverge.
Proof.
  induction fuel as [|fuel IH]; intros operation s Hnever;
    apply never_done_step in Hnever as (Hnd & w1 & op1 & Hget & Hnever);
    simpl; rewrite Hnd; [reflexivity|].
  run. simpl. rewrite Hget. simpl. apply IH. exact Hnever.
Qed.

Lemma removed_not_in (path : string) (l : list string) :
  path ∉ filter (fun p => p ≠ path) l.
Proof. intros Hin. apply list_elem_of_filter in Hin as [Hne _]. by apply Hne. Qed.

(** C9.  When the temporary file is written and the upload call returns a
    handle, then: if the handle's import is done after [n] status checks,
    the upload of the file completes for every budget of at least [n]
    rounds, after exactly [n] sleeps of 2 seconds, with the success record
    whose display name is the file name without its extension; and if the
    import is never done, the upload is still polling when any budget is
    used up. *)
Theorem upload_terminates_when_done {W} (env : Env W) (s : state W)
        (store_name : pyval) (f : uploaded_file) (tmp : string) (w1 w2 w3 : W)
        (operation : pyval) :
  named_temporary_file env (snd (OsPath.splitext (uf_name f))) (world s)
    = (w1, Returns tmp) →
  tmp_write env tmp (uf_buffer f) w1 = (w2, Returns tt) →
  upload_to_file_search_store env tmp store_name
                              (fst (OsPath.splitext (uf_name f))) w2
    = (w3, Returns operation) →
  (∀ n final w', done_after env n operation w3 final w' →
     ∀ fuel, (n ≤ fuel)%nat →
       ∃ s', upload_one env fuel store_name f s = (s', Ok tt) ∧
             results s' = (results s ++ [success_record (guess_type env) (uf_name f)])%list ∧
             world s' = w' ∧
             List.filter is_sleep (new_log s s') = repeat (EvSleep 2) n ∧
             tmp ∉ files s')
  ∧
  (never_done env operation w3 →
   ∀ fuel, snd (upload_one env fuel store_name f s) = Diverge).
Proof.
  intros Htmp Hwrite Hup. split.
  - intros n final w' Hdone fuel Hfuel.
    unfold upload_one, upload_try, upload_except, upload_finally, try_finally,
      try_except, create_temp, read_var, append_result.
    run. cbn [fst snd world set_world add_log set_files].
    rewrite Htmp. cbn. rewrite Hwrite. cbn. rewrite Hup. cbn.
    erewrite poll_done; [| exact Hdone | exact Hfuel].
    unfold os_remove. cbn.
    rewrite bool_decide_true by (left; reflexivity). cbn.
    eexists. split; [reflexivity|]. cbn.
    split; [reflexivity|]. split; [reflexivity|]. split.
    + erewrite (new_log_app s) by (cbn; rewrite <- !app_assoc; reflexivity).
      cbn. rewrite !List.filter_app. cbn. rewrite app_nil_r.
      eapply poll_log_sleeps, Hdone.
    + destruct (decide (tmp ≠ tmp)) as [Hne|_]; [by destruct Hne|].
      apply removed_not_in.
  - intros Hnever fuel.
    unfold upload_one, upload_try, upload_except, upload_finally, try_finally,
      try_except, create_temp, read_var, append_result.
    run. cbn [fst snd world set_world add_log set_files].
    rewrite Htmp. cbn. rewrite Hwrite. cbn. rewrite Hup. cbn.
    match goal with
    | |- context [poll env fuel operation ?st] =>
        pose proof (poll_never_done env fuel operation st Hnever) as Hpoll;
        destruct (poll env fuel operation st) as [sp rp]
    end.
    cbn in Hpoll. subst rp. reflexivity.
Qed.


Lemma flagless_refetch (k : nat) : ∀ w,
  refetch flagless_env k (VObj [("name", VStr "operations/1")]) w
  = Some (VObj [("name", VStr "operations/1")], (k + w)%nat).
Proof.
  induction k as [|k IH]; intros w; [reflexivity|].
  simpl. rewrite IH. do 2 f_equal. lia.
Qed.

Lemma flagless_never_done (w : nat) :
  never_done flagless_env (VObj [("name", VStr "operations/1")]) w.
Proof. intros k. eexists _, _. split; [apply flagless_refetch | reflexivity]. Qed.

(** An import that is done at the third status check, and an import whose
    handles never carry the flag. *)
Lemma upload_terminates_when_done_witness :
  let f := UploadedFile "Q3 report.pdf" "%PDF-1.7" in
  let store := VStr "fileSearchStores/a" in
  (∃ s', upload_one (importing_env 3) 3 store f (fresh ∅) = (s', Ok tt) ∧
         results s' =
           [VDict [("file", VStr "Q3 report.pdf"); ("display_name", VStr "Q3 report");
                   ("mime_type", VStr "application/pdf"); ("status", VStr "success")]] ∧
         List.filter is_sleep (new_log (fresh ∅) s')
           = [EvSleep 2; EvSleep 2; EvSleep 2]) ∧
  snd (upload_one flagless_env 1000 store f (fresh ∅)) = Diverge.
Proof.
  intros f store. split.
  - destruct (proj1 (upload_terminates_when_done
                       (importing_env 3) (fresh ∅) store f "/tmp/tmpk3x9.pdf"
                       0%nat 0%nat 0%nat
                       (VObj [("name", VStr "operations/1"); ("done", VBool false)])
                       eq_refl eq_refl eq_refl)
                    3%nat
                    (VObj [("name", VStr "operations/1"); ("done", VBool true)])
                    3%nat)
      with (fuel := 3%nat) as (s' & Hrun & Hres & Hw & Hsleeps & Hfile).
    + split; [reflexivity|]. split; [reflexivity|].
      intros k Hk.
      destruct k as [|[|[|k]]]; [eexists _, _; split; reflexivity ..| lia].
    + lia.
    + exists s'. split; [exact Hrun|]. split; [exact Hres|]. exact Hsleeps.
  - apply (proj2 (upload_terminates_when_done
                    flagless_env (fresh ∅) store f "/tmp/tmpk3x9.pdf"
                    0%nat 0%nat 0%nat (VObj [("name", VStr "operations/1")])
                    eq_refl eq_refl eq_refl)).
    apply flagless_never_done.
Defined.

(** C10.  The guard of the polling loop is the total function [not_done]:
    it reads the attribute [done] of the handle with the default [False].  A
    handle without that attribute counts as not done, so the loop sleeps and
    fetches the status again; and when no handle ever has the attribute, the
    loop keeps polling for every budget: it neither returns nor raises. *)
Theorem poll_guard_defaults_to_not_done {W} (env : Env W) :
  (∀ operation, hasattr operation "done" = false → not_done operation = true) ∧
  (∀ operation fuel (s : state W),
     hasattr operation "done" = false →
     poll env (S fuel) operation s =
       (emit (EvSleep 2);;
        operation' ← call (operations_get env operation) (EvOperationsGet operation);
        poll env fuel operation') s) ∧
  (∀ operation (s : state W),
     (∀ k, ∃ o wk, refetch env k operation (world s) = Some (o, wk) ∧
                   hasattr o "done" = false) →
     ∀ fuel, snd (poll env fuel operation s) = Diverge).
Proof.
  assert (∀ operation, hasattr operation "done" = false → not_done operation = true)
    as Hguard.
  { intros operation H. unfold not_done, getattr, hasattr in *.
    destruct operation; try reflexivity.
    destruct (dict_get attrs "done"); [|reflexivity].
    apply bool_decide_eq_false in H. exfalso. apply H. by eexists. }
  split; [exact Hguard|]. split.
  - intros operation fuel s H. simpl. by rewrite (Hguard _ H).
  - intros operation s Hnever fuel. apply poll_never_done.
    intros k. destruct (Hnever k) as (o & wk & Hk & Hattr).
    exists o, wk. split; [exact Hk | by apply Hguard].
Qed.

(** A handle with a [name] only. *)
Lemma poll_guard_defaults_to_not_done_witness :
  not_done (VObj [("name", VStr "operations/1")]) = true ∧
  snd (poll flagless_env 1000 (VObj [("name", VStr "operations/1")]) (fresh ∅))
    = Diverge.
Proof.
  split.
  - apply (proj1 (poll_guard_defaults_to_not_done flagless_env)). reflexivity.
  - apply (proj2 (proj2 (poll_guard_defaults_to_not_done flagless_env))).
    intros k. eexists _, _. split; [apply flagless_refetch | reflexivity].
Defined.

(** ** Upload and import: failures inside the loop *)

(** The polling loop touches the world and the log only. *)
Lemma poll_frame {W} (env : Env W) (fuel : nat) : ∀ operation (s : state W),
  session (fst (poll env fuel operation s)) = session s ∧
  files (fst (poll env fuel operation s)) = files s ∧
  display_name (fst (poll env fuel operation s)) = display_name s ∧
  temp_path (fst (poll env fuel operation s)) = temp_path s ∧
  results (fst (poll env fuel operation s)) = results s.
Proof.
  induction fuel as [|fuel IH]; intros operation s; simpl;
    destruct (not_done operation); try (repeat split; reflexivity).
  run. simpl.
  destruct (operations_get env operation (world s)) as [w' [operation'|e]]; simpl.
  - apply (IH operation'
              (add_log (EvOperationsGet operation None)
                       (set_world w' (add_log (EvSleep 2) s)))).
  - repeat split.
Qed.

(** The [finally] block always completes; it removes the file [temp_path]
    names, if the variable is bound and the file is there. *)
Lemma upload_finally_run {W} (s : state W) :
  upload_finally s =
    match temp_path s with
    | None => (s, Ok tt)
    | Some tp =>
        if bool_decide (tp ∈ files s)
        then (add_log (EvRemove tp None)
                      (set_files (filter (fun p => p ≠ tp) (files s)) s), Ok tt)
        else (add_log (EvRemove tp (Some (PyExc "FileNotFoundError"
                                                "No such file or directory"))) s,
              Ok tt)
    end.
Proof.
  unfold upload_finally, try_except, read_var, os_remove. run.
  destruct (temp_path s) as [tp|]; [|reflexivity].
  destruct (bool_decide (tp ∈ files s)); reflexivity.
Qed.

(** The handler collects a failure record when [display_name] is bound, and
    raises [NameError] itself when it is not. *)
Lemma upload_except_bound {W} (f : uploaded_file) (e : exn) (s : state W) (d : string) :
  display_name s = Some d →
  upload_except f e s =
    (add_log (EvUi StError [Lit "Upload/import failed for "; Lit (uf_name f);
                            Lit ": "; Lit (str_of_exn e)])
             (set_results (results s ++
                             [VDict [("file", VStr (uf_name f));
                                     ("display_name", VStr d);
                                     ("status", VStr ("error: " ++ str_of_exn e))]])
                          s),
     Ok tt).
Proof.
  intros Hd. unfold upload_except, read_var, append_result. run.
  rewrite Hd. reflexivity.
Qed.

Lemma upload_except_unbound {W} (f : uploaded_file) (e : exn) (s : state W) :
  display_name s = None →
  upload_except f e s =
    (s, Raise (PyExc "NameError" "name 'display_name' is not defined")).
Proof.
  intros Hd. unfold upload_except, read_var. run. rewrite Hd. reflexivity.
Qed.




(** The failing path in general.  In a run in which [display_name] and
    [temp_path] are not bound yet, a file whose temporary file is created but cannot be written
    makes the body of the loop raise [NameError]; no record is collected and
    the temporary file stays on disk. *)
Lemma upload_one_unbound_write_failure {W} (env : Env W) (fuel : nat)
      (store_name : pyval) (f : uploaded_file) (s : state W) (tmp : string)
      (w1 w2 : W) (e : exn) :
  display_name s = None →
  named_temporary_file env (snd (OsPath.splitext (uf_name f))) (world s)
    = (w1, Returns tmp) →
  tmp_write env tmp (uf_buffer f) w1 = (w2, Raises e) →
  temp_path s = None →
  ∃ s', upload_one env fuel store_name f s
        = (s', Raise (PyExc "NameError" "name 'display_name' is not defined")) ∧
        results s' = results s ∧
        tmp ∈ files s'.
Proof.
  intros Hd Htmp Hwrite Htp.
  assert (upload_try env fuel store_name f s =
            (add_log (EvTempWrite tmp (Some e))
                     (set_world w2
                        (set_files (tmp :: files s)
                           (add_log (EvTempFile (snd (OsPath.splitext (uf_name f))) None)
                                    (set_world w1 s)))),
             Raise e)) as Htry.
  { unfold upload_try, create_temp. run.
    cbn [fst snd world set_world add_log set_files].
    rewrite Htmp. cbn. rewrite Hwrite. reflexivity. }
  unfold upload_one, try_finally, try_except. rewrite Htry.
  rewrite upload_except_unbound by exact Hd.
  rewrite upload_finally_run. cbn. rewrite Htp.
  eexists. split; [reflexivity|]. split; [reflexivity|]. by left.
Qed.

(** Where the cleanup works.  Once the temporary file has been written,
    [temp_path] names it, and the [finally] block removes it however the rest
    of the attempt goes: import done, upload call raising, or a status check
    raising. *)
Lemma upload_try_written {W} (env : Env W) (fuel : nat) (store_name : pyval)
      (f : uploaded_file) (s : state W) (tmp : string) (w1 w2 : W) :
  named_temporary_file env (snd (OsPath.splitext (uf_name f))) (world s)
    = (w1, Returns tmp) →
  tmp_write env tmp (uf_buffer f) w1 = (w2, Returns tt) →
  temp_path (fst (upload_try env fuel store_name f s)) = Some tmp ∧
  files (fst (upload_try env fuel store_name f s)) = tmp :: files s ∧
  is_Some (display_name (fst (upload_try env fuel store_name f s))).
Proof.
  intros Htmp Hwrite.
  unfold upload_try, create_temp, read_var, append_result. run.
  cbn [fst snd world set_world add_log set_files].
  rewrite Htmp. cbn. rewrite Hwrite. cbn.
  destruct (upload_to_file_search_store env tmp store_name _ w2)
    as [w3 [operation|e]]; cbn;
    [|split; [reflexivity | split; [reflexivity | eexists; reflexivity]]].
  match goal with
  | |- context [poll env fuel operation ?st0] =>
      pose proof (poll_frame env fuel operation st0) as (_ & Hf & Hdn & Htp & _);
      destruct (poll env fuel operation st0) as [sp [final|e|]]
  end; cbn [fst] in Hf, Hdn, Htp; cbn; rewrite Hf, Hdn, Htp;
    (split; [reflexivity | split; [reflexivity | eexists; reflexivity]]).
Qed.

Lemma upload_one_removes_written_temp {W} (env : Env W) (fuel : nat)
      (store_name : pyval) (f : uploaded_file) (s : state W) (tmp : string)
      (w1 w2 : W) :
  named_temporary_file env (snd (OsPath.splitext (uf_name f))) (world s)
    = (w1, Returns tmp) →
  tmp_write env tmp (uf_buffer f) w1 = (w2, Returns tt) →
  match upload_one env fuel store_name f s with
  | (_, Diverge) => True
  | (s', _) => tmp ∉ files s'
  end.
Proof.
  intros Htmp Hwrite.
  destruct (upload_try_written env fuel store_name f s tmp w1 w2 Htmp Hwrite)
    as (Htp & Hf & [d Hd]).
  unfold upload_one, try_finally, try_except.
  destruct (upload_try env fuel store_name f s) as [s1 [[]|e|]];
    cbn [fst] in Htp, Hf, Hd; [| |exact I].
  - rewrite upload_finally_run, Htp, Hf.
    rewrite bool_decide_true by (by left). cbn.
    destruct (decide (tmp ≠ tmp)) as [Hne|_]; [by destruct Hne|].
    apply removed_not_in.
  - rewrite (upload_except_bound f e s1 d Hd), upload_finally_run. cbn.
    rewrite Htp, Hf. rewrite bool_decide_true by (by left). cbn.
    destruct (decide (tmp ≠ tmp)) as [Hne|_]; [by destruct Hne|].
    apply removed_not_in.
Qed.

(** C1 at its failing input.  Two files are uploaded in a fresh script run
    and writing the temporary file of the first one raises.  The handler of
    the loop reads [display_name], which is not bound yet: a [NameError]
    leaves the loop, no failure record is collected for the first file, and
    the second file is never processed. *)
Theorem upload_loop_stops_at_first_write_failure :
  let uploaded := [UploadedFile "a.pdf" "%PDF-1.7"; UploadedFile "b.txt" "notes"] in
  let run := upload_and_import (write_failing_env "/tmp/tmpk3x9.pdf") 5 true uploaded
                               (VStr "fileSearchStores/a") (fresh ∅) in
  snd run = Raise (PyExc "NameError" "name 'display_name' is not defined") ∧
  results (fst run) = [] ∧
  log (fst run) =
    [EvTempFile ".pdf" None;
     EvTempWrite "/tmp/tmpk3x9.pdf"
                 (Some (PyExc "OSError" "[Errno 28] No space left on device"))].
Proof. vm_compute. repeat split. Qed.

(** C2 at its failing input.  The second of two files cannot be written to
    its temporary file.  [temp_path] is assigned after the write only, so the
    cleanup removes the path of the first file again (which fails and is
    ignored) and the temporary file of the second file stays on disk. *)
Theorem temp_file_left_after_write_failure :
  let uploaded := [UploadedFile "b.txt" "notes"; UploadedFile "a.pdf" "%PDF-1.7"] in
  let run := upload_and_import (write_failing_env "/tmp/tmpk3x9.pdf") 5 true uploaded
                               (VStr "fileSearchStores/a") (fresh ∅) in
  snd run = Ok tt ∧
  files (fst run) = ["/tmp/tmpk3x9.pdf"] ∧
  List.filter (fun e => match e with EvRemove _ _ => true | _ => false end)
              (log (fst run)) =
    [EvRemove "/tmp/tmpk3x9.txt" None;
     EvRemove "/tmp/tmpk3x9.txt"
              (Some (PyExc "FileNotFoundError" "No such file or directory"))].
Proof. vm_compute. repeat split. Qed.

(** * Further properties *)

(** ** File names *)

Lemma substring_all (p : string) : substring 0 (String.length p) p = p.
Proof. induction p as [|c p IH]; simpl; [done | by rewrite IH]. Qed.

Lemma substring_split (p : string) : ∀ n,
  substring 0 n p ++ substring n (String.length p - n) p = p.
Proof.
  induction p as [|c p IH]; intros [|n]; simpl; try done.
  - by rewrite substring_all.
  - change (String c (substring 0 n p ++ substring n (String.length p - n) p)
            = String c p).
    by rewrite IH.
Qed.

Lemma append_empty (p : string) : p ++ "" = p.
Proof.
  induction p as [|c p IH]; [done|].
  change (String c (p ++ "") = String c p). by rewrite IH.
Qed.

(** X1.  The display name of an upload followed by the suffix of its
    temporary file is the name of the uploaded file: the two halves
    [os.path.splitext] cuts a name into lose nothing and add nothing. *)
Theorem display_name_and_suffix_recombine (filename : string) :
  fst (OsPath.splitext filename) ++ snd (OsPath.splitext filename) = filename.
Proof.
  unfold OsPath.splitext.
  destruct (_ && _); simpl; [apply substring_split | apply append_empty].
Qed.

Lemma common_values_not_empty (ext m : string) :
  dict_get common ext = Some m → m ≠ "".
Proof.
  unfold common. cbn [dict_get].
  repeat (destruct (String.eqb _ ext); [intros [= <-]; discriminate|]).
  discriminate.
Qed.

(** X2.  [guess_mime] never answers with the empty string, whatever the
    platform table says: an empty platform answer counts as a miss. *)
Theorem guess_mime_not_empty (guess : string → option string) (filename : string) :
  guess_mime guess filename ≠ "".
Proof.
  unfold guess_mime.
  destruct (dict_get common (Str.lower (snd (OsPath.splitext filename))))
    as [m'|] eqn:Hget.
  - apply common_values_not_empty in Hget.
    destruct (guess filename) as [[|c m]|]; destruct m'; simpl; congruence.
  - destruct (guess filename) as [[|c m]|]; simpl; discriminate.
Qed.

Lemma get_Some_lt (s : string) : ∀ k c,
  String.get k s = Some c → (k < String.length s)%nat.
Proof.
  induction s as [|a s IH]; intros [|k] c; simpl; try discriminate; [lia|].
  intros H. apply IH in H. lia.
Qed.

(** What [rfind] returns: the value for "not found" when the character does
    not occur, and otherwise the position of its last occurrence. *)
Lemma rfind_from_spec (c : ascii) (s : string) : ∀ i last,
  (Str.rfind_from c s i last = last ∧ ∀ k, String.get k s ≠ Some c) ∨
  (∃ k, Str.rfind_from c s i last = (i + Z.of_nat k)%Z ∧
        String.get k s = Some c ∧
        ∀ j, (k < j)%nat → String.get j s ≠ Some c).
Proof.
  induction s as [|a s IH]; intros i last; simpl.
  - left. split; [done|]. by intros [|k].
  - destruct (IH (i + 1)%Z (if Ascii.eqb a c then i else last))
      as [[Hr Hno] | (k & Hr & Hk & Hafter)].
    + destruct (Ascii.eqb_spec a c) as [->|Hne].
      * right. exists 0%nat. rewrite Hr. split; [lia|]. split; [done|].
        intros [|j] Hj; [lia|]. simpl. apply Hno.
      * left. split; [exact Hr|]. intros [|k]; simpl; [congruence | apply Hno].
    + right. exists (S k). rewrite Hr. split; [lia|]. split; [exact Hk|].
      intros [|j] Hj; [lia|]. simpl. apply Hafter. lia.
Qed.

(** X3.  The suffix given to the temporary file is an extension and nothing
    else: it is empty or starts with a dot, it has no other dot, and it
    never contains a path separator. *)
Theorem temp_suffix_is_an_extension (filename : string) :
  let suffix := snd (OsPath.splitext filename) in
  (suffix = "" ∨ String.get 0 suffix = Some "."%char) ∧
  (∀ k, (0 < k)%nat → String.get k suffix ≠ Some "."%char) ∧
  (∀ k, String.get k suffix ≠ Some "/"%char).
Proof.
  unfold OsPath.splitext, Str.rfind.
  destruct (rfind_from_spec "." filename 0 (-1))
    as [[Hd Hnodot] | (d & Hd & Hdot & Hlast)]; rewrite Hd.
  - (* no dot at all *)
    assert (Z.ltb (Str.rfind_from "/" filename 0 (-1)) (-1) = false) as ->.
    { apply Z.ltb_ge.
      destruct (rfind_from_spec "/" filename 0 (-1))
        as [[-> _] | (k & -> & _)]; lia. }
    simpl. split; [by left|]. split; by intros [|k].
  - destruct (_ && _) eqn:Hcond; simpl;
      [|split; [by left|]; split; by intros [|k]].
    apply andb_prop in Hcond as [Hlt _]. apply Z.ltb_lt in Hlt.
    unfold Str.slice_from. rewrite Z.add_0_l, Nat2Z.id.
    pose proof (get_Some_lt _ _ _ Hdot) as Hlen.
    assert (∀ k, String.get k (substring d (String.length filename - d) filename)
                 = if decide (k < String.length filename - d)%nat
                   then String.get (k + d) filename else None) as Hget.
    { intros k. case_decide.
      - by apply substring_correct1.
      - apply substring_correct2. lia. }
    split; [|split].
    + right. rewrite Hget. rewrite decide_True by lia. exact Hdot.
    + intros k Hk. rewrite Hget. case_decide; [|done]. apply Hlast. lia.
    + intros k. rewrite Hget. case_decide; [|done].
      destruct (rfind_from_spec "/" filename 0 (-1))
        as [[_ Hno] | (sep & Hs & _ & Hafter)]; [apply Hno|].
      apply Hafter. lia.
Qed.

(** ** Listings *)

Lemma list_stores_frame {W} (env : Env W) (s : state W) :
  untouched s (fst (list_stores env s)).
Proof.
  rewrite list_stores_run.
  destruct (file_search_stores_list env 20 (world s)) as [w' [pager|e]]; simpl.
  - destruct (drain "stores" pager []) as [v [[]|e]]; repeat split.
  - repeat split.
Qed.

Lemma list_store_documents_untouched {W} (env : Env W) parent (s : state W) :
  untouched s (fst (list_store_documents env parent s)).
Proof.
  rewrite list_store_documents_run.
  destruct (documents_list env parent 20 (world s)) as [w' [pager|e]]; simpl.
  - destruct (drain "documents" pager []) as [v [[]|e]]; repeat split.
  - repeat split.
Qed.

Lemma list_stores_calls {W} (env : Env W) (s : state W) :
  remote_calls (new_log s (fst (list_stores env s)))
  = [EvListStores 20 (failure (snd (file_search_stores_list env 20 (world s))))].
Proof.
  rewrite list_stores_run.
  destruct (file_search_stores_list env 20 (world s)) as [w' [pager|e]]; simpl.
  - destruct (drain "stores" pager []) as [v [[]|e]]; simpl;
      erewrite (new_log_app s) by (simpl; rewrite <- ?app_assoc; reflexivity);
      reflexivity.
  - erewrite (new_log_app s) by (simpl; rewrite <- ?app_assoc; reflexivity).
    reflexivity.
Qed.

Lemma list_store_documents_calls {W} (env : Env W) parent (s : state W) :
  remote_calls (new_log s (fst (list_store_documents env parent s)))
  = [EvListDocuments parent 20
                     (failure (snd (documents_list env parent 20 (world s))))].
Proof.
  rewrite list_store_documents_run.
  destruct (documents_list env parent 20 (world s)) as [w' [pager|e]]; simpl.
  - destruct (drain "documents" pager []) as [v [[]|e]]; simpl;
      erewrite (new_log_app s) by (simpl; rewrite <- ?app_assoc; reflexivity);
      reflexivity.
  - erewrite (new_log_app s) by (simpl; rewrite <- ?app_assoc; reflexivity).
    reflexivity.
Qed.

(** X4.  A listing only reads: whatever the service answers, [list_stores]
    and [list_store_documents] make exactly one remote call (further pages
    come from the pager the call returned) and leave the session, the files
    on disk and the script's variables as they were; caching the result is
    left to the caller. *)
Theorem listings_only_read {W} (env : Env W) (s : state W) (parent : pyval) :
  untouched s (fst (list_stores env s)) ∧
  untouched s (fst (list_store_documents env parent s)) ∧
  (∃ failed, remote_calls (new_log s (fst (list_stores env s)))
             = [EvListStores 20 failed]) ∧
  (∃ failed, remote_calls (new_log s (fst (list_store_documents env parent s)))
             = [EvListDocuments parent 20 failed]).
Proof.
  split; [apply list_stores_frame|].
  split; [apply list_store_documents_untouched|].
  split; eexists; [apply list_stores_calls | apply list_store_documents_calls].
Qed.

Lemma robj_nested_ind (P : robj → Prop) :
  (∀ v, P (RVal v)) →
  (∀ attrs has_next_page e, P (RPager attrs has_next_page (Raises e))) →
  (∀ attrs has_next_page next, P next → P (RPager attrs has_next_page (Returns next))) →
  ∀ pager, P pager.
Proof.
  intros Hv Hraise Hnext.
  refine (fix go (pager : robj) : P pager :=
            match pager with
            | RVal v => Hv v
            | RPager attrs h (Raises e) => Hraise attrs h e
            | RPager attrs h (Returns next) => Hnext attrs h next (go next)
            end).
Qed.

Lemma extend_appends (xs : list pyval) (v : pyval) (ys : list pyval) :
  extend xs v = Returns ys → ∃ more, ys = (xs ++ more)%list.
Proof. destruct v; simpl; intros [= <-]; eauto. Qed.

(** The loop over the further pages only ever appends. *)
Lemma next_pages_appends (pager : robj) : ∀ acc,
  ∃ more, fst (next_pages pager acc) = (acc ++ more)%list.
Proof.
  induction pager as [v | attrs h e | attrs h next IH] using robj_nested_ind;
    intros acc; simpl.
  - exists []. rewrite app_nil_r. by destruct (hasattr v "has_next_page").
  - exists []. rewrite app_nil_r. destruct h as [more|e']; [|done].
    by destruct (truthy more).
  - destruct h as [more|e']; [|exists []; by rewrite app_nil_r].
    destruct (truthy more); [|exists []; by rewrite app_nil_r].
    destruct (extend acc _) as [acc'|e'] eqn:Hext;
      [|exists []; by rewrite app_nil_r].
    apply extend_appends in Hext as [m1 ->].
    destruct (IH (acc ++ m1)%list) as [m2 ->].
    exists (m1 ++ m2)%list. by rewrite app_assoc.
Qed.

(** X5.  The first page is never lost.  When the listing result has a
    [page] that is a list, the drain returns a list that starts with that
    page, whatever the pager does afterwards (further pages, a method that
    raises, a next page of another shape); no error is reported. *)
Theorem first_page_is_kept (collection : string) (pager : robj) (page : list pyval) :
  robj_hasattr pager "page" = true →
  robj_getattr pager "page" VNone = VList page →
  ∃ more, drain collection pager [] = (VList (page ++ more), Returns tt).
Proof.
  intros Hhas Hpage. unfold drain. rewrite Hhas, Hpage. simpl.
  destruct (next_pages_appends pager page) as [more ->]. by exists more.
Qed.

Lemma first_page_is_kept_witness :
  ∃ more,
    drain "stores"
          (RPager [("page", VList (named "s" ["1"; "2"]))]
                  (Raises (PyExc "ServerError" "503"))
                  (Raises (PyExc "IndexError" "No more pages to fetch.")))
          []
    = (VList (named "s" ["1"; "2"] ++ more), Returns tt).
Proof.
  apply first_page_is_kept; reflexivity.
Defined.

(** X6.  Items handed back without a [page] are dropped.  When
    [next_page()] returns a value that has neither a [page] attribute nor a
    [has_next_page] method (the next page as a plain list, say), nothing of it
    is added: the drain ends with the first page only, and reports
    nothing. *)
Theorem next_page_without_page_is_dropped (collection : string)
        (attrs : list (string * pyval)) (page : list pyval) (more v : pyval) :
  dict_get attrs "page" = Some (VList page) →
  truthy more = true →
  hasattr v "page" = false →
  hasattr v "has_next_page" = false →
  drain collection (RPager attrs (Returns more) (Returns (RVal v))) []
  = (VList page, Returns tt).
Proof.
  intros Hpage Hmore Hnopage Hnonext. unfold drain. simpl.
  rewrite Hpage. simpl. rewrite Hmore.
  assert (getattr v "page" (VList []) = VList []) as ->.
  { unfold getattr, hasattr in *. destruct v; try reflexivity.
    destruct (dict_get attrs0 "page"); [|reflexivity].
    apply bool_decide_eq_false in Hnopage. exfalso. apply Hnopage. by eexists. }
  simpl. rewrite Hnonext. simpl. by rewrite app_nil_r.
Qed.

Lemma next_page_without_page_is_dropped_witness :
  drain "documents"
        (RPager [("page", VList (named "d" ["1"; "2"]))] (Returns (VBool true))
                (Returns (RVal (VList (named "d" ["3"; "4"])))))
        []
  = (VList (named "d" ["1"; "2"]), Returns tt).
Proof.
  apply next_page_without_page_is_dropped; reflexivity.
Defined.

(** X7.  Listing results the drain cannot use, for both listings.  A
    returned object with neither a [page] attribute nor the attribute of the
    collection ([stores], [documents]) that is no list and no tuple gives the
    empty list without any message; a returned object whose [page] cannot be
    iterated (it is [None], say) gives the empty list and one error message,
    which carries the text of the [TypeError].  In both cases the listing
    returns normally. *)
Theorem unusable_listing_result {W} (env : Env W) (s : state W) (parent : pyval)
        (w' : W) (pager : robj) :
  (robj_hasattr pager "page" = false →
   (∀ xs, pager ≠ RVal (VList xs)) → (∀ xs, pager ≠ RVal (VTuple xs)) →
   (file_search_stores_list env 20 (world s) = (w', Returns pager) →
    robj_hasattr pager "stores" = false →
    list_stores env s
    = (add_log (EvListStores 20 None) (set_world w' s), Ok (VList []))) ∧
   (documents_list env parent 20 (world s) = (w', Returns pager) →
    robj_hasattr pager "documents" = false →
    list_store_documents env parent s
    = (add_log (EvListDocuments parent 20 None) (set_world w' s), Ok (VList []))))
  ∧
  (robj_hasattr pager "page" = true →
   ∀ e, extend [] (robj_getattr pager "page" VNone) = Raises e →
   (file_search_stores_list env 20 (world s) = (w', Returns pager) →
    list_stores env s
    = (add_log (EvUi SidebarError [Lit "Failed to list stores: "; Lit (str_of_exn e)])
               (add_log (EvListStores 20 None) (set_world w' s)),
       Ok (VList []))) ∧
   (documents_list env parent 20 (world s) = (w', Returns pager) →
    list_store_documents env parent s
    = (add_log (EvUi StError [Lit "Failed to list store files: "; Lit (str_of_exn e)])
               (add_log (EvListDocuments parent 20 None) (set_world w' s)),
       Ok (VList [])))).
Proof.
  split.
  - intros Hpage Hlist Htuple. split.
    + intros Hcall Hstores.
      rewrite list_stores_run, Hcall. simpl.
      unfold drain. rewrite Hpage, Hstores.
      destruct pager as [[ | | | xs | xs | | ]|]; try reflexivity.
      * by destruct (Hlist xs).
      * by destruct (Htuple xs).
    + intros Hcall Hdocs.
      rewrite list_store_documents_run, Hcall. simpl.
      unfold drain. rewrite Hpage, Hdocs.
      destruct pager as [[ | | | xs | xs | | ]|]; try reflexivity.
      * by destruct (Hlist xs).
      * by destruct (Htuple xs).
  - intros Hpage e Hext. split; intros Hcall.
    + rewrite list_stores_run, Hcall. simpl.
      unfold drain. rewrite Hpage, Hext. reflexivity.
    + rewrite list_store_documents_run, Hcall. simpl.
      unfold drain. rewrite Hpage, Hext. reflexivity.
Qed.

Lemma unusable_listing_result_witness :
  let plain := listing_env (Returns (RVal (VStr ""))) in
  let pageless := listing_env (Returns (RVal (VObj [("page", VNone)]))) in
  let a := VStr "fileSearchStores/a" in
  (list_stores plain (fresh ∅)
   = (add_log (EvListStores 20 None) (fresh ∅), Ok (VList [])) ∧
   list_store_documents plain a (fresh ∅)
   = (add_log (EvListDocuments a 20 None) (fresh ∅), Ok (VList []))) ∧
  (list_stores pageless (fresh ∅)
   = (add_log (EvUi SidebarError [Lit "Failed to list stores: ";
                                  Lit "'NoneType' object is not iterable"])
              (add_log (EvListStores 20 None) (fresh ∅)),
      Ok (VList [])) ∧
   list_store_documents pageless a (fresh ∅)
   = (add_log (EvUi StError [Lit "Failed to list store files: ";
                             Lit "'NoneType' object is not iterable"])
              (add_log (EvListDocuments a 20 None) (fresh ∅)),
      Ok (VList []))).
Proof.
  intros plain pageless a. split.
  - destruct (proj1 (unusable_listing_result plain (fresh ∅) a 0%nat (RVal (VStr "")))
                    eq_refl ltac:(discriminate) ltac:(discriminate))
      as [Hstores Hdocs].
    split; [exact (Hstores eq_refl eq_refl) | exact (Hdocs eq_refl eq_refl)].
  - destruct (proj2 (unusable_listing_result pageless (fresh ∅) a 0%nat
                                             (RVal (VObj [("page", VNone)])))
                    eq_refl (PyExc "TypeError" "'NoneType' object is not iterable")
                    eq_refl)
      as [Hstores Hdocs].
    split; [exact (Hstores eq_refl) | exact (Hdocs eq_refl)].
Defined.

(** ** The sidebar *)

Lemma activate_falsy {W} (env : Env W) (s : state W) (store : pyval) :
  truthy store = false → activate env store s = (s, Ok tt).
Proof.
  intros H. unfold activate.
  unfold mbind at 1, M_bind at 1, bind at 1, session_get, get. simpl.
  by rewrite H.
Qed.

Lemma activate_quiet {W} (env : Env W) (s : state W) (store : pyval) :
  truthy store = true →
  truthy (_safe_get store "name" (VStr "")) = false ∨
  _safe_get store "name" (VStr "")
    = default (VStr "") (session s !! "file_search_store_name") →
  activate env store s =
    (add_log (EvUi SidebarSuccess [Lit "Active store: ";
                                   Val (_safe_get store "name" (VStr ""))]) s,
     Ok tt).
Proof.
  intros Hstore Hnoop. unfold activate.
  unfold mbind at 1, M_bind at 1, bind at 1, session_get, get. simpl.
  rewrite Hstore.
  assert (truthy (_safe_get store "name" (VStr ""))
          && negb (py_eq (_safe_get store "name" (VStr ""))
                         (default (VStr "") (session s !! "file_search_store_name")))
          = false) as ->.
  { destruct Hnoop as [-> | <-]; [reflexivity|].
    rewrite py_eq_refl. apply andb_false_r. }
  reflexivity.
Qed.

Lemma activate_switch {W} (env : Env W) (s : state W) (store : pyval) :
  truthy store = true →
  truthy (_safe_get store "name" (VStr "")) = true →
  _safe_get store "name" (VStr "")
    ≠ default (VStr "") (session s !! "file_search_store_name") →
  let sel_name := _safe_get store "name" (VStr "") in
  let sess :=
    <["file_search_store_display_name" := _safe_get store "display_name" (VStr "")]>
      (<["file_search_store_name" := sel_name]>
         (<["file_search_store" := store]> (session s))) in
  activate env store s =
    (add_log (EvUi SidebarSuccess [Lit "Active store: "; Val sel_name])
       (set_session
          (<["_store_docs_for" := sel_name]>
             (<["store_documents" :=
                  default VNone
                    match snd (list_store_documents env sel_name (set_session sess s))
                    with Ok docs => Some docs | _ => None end]> sess))
          (fst (list_store_documents env sel_name (set_session sess s)))),
     Ok tt).
Proof.
  intros Hstore Hname Hne. cbv zeta.
  set (sel_name := _safe_get store "name" (VStr "")) in *.
  set (sess :=
         <["file_search_store_display_name" := _safe_get store "display_name" (VStr "")]>
           (<["file_search_store_name" := sel_name]>
              (<["file_search_store" := store]> (session s)))).
  unfold activate.
  destruct (list_store_documents_returns env sel_name (set_session sess s))
    as (s1 & docs & Hlist).
  apply py_eq_false_iff in Hne.
  unfold mbind at 1, M_bind at 1, bind at 1, session_get, get. simpl.
  rewrite Hstore. fold sel_name. rewrite Hname, Hne. simpl.
  unfold ensure_store_in_state.
  unfold mbind, M_bind, bind, session_set, modify at 1. simpl.
  rewrite attr_safe_get by exact Hname. fold sel_name. simpl.
  unfold set_session at 1 2 3. simpl. fold sess.
  change (State (world s) sess (files s) (display_name s) (temp_path s)
                (results s) (log s)) with (set_session sess s).
  rewrite Hlist. simpl.
  destruct (list_store_documents_frame _ _ _ _ _ Hlist) as (-> & _).
  reflexivity.
Qed.

(** After an activation the selected store, when it has an identifier, is the
    active one. *)
Lemma activate_makes_active {W} (env : Env W) (s : state W) (store : pyval) :
  truthy store = true →
  truthy (_safe_get store "name" (VStr "")) = true →
  snd (activate env store s) = Ok tt ∧
  session (fst (activate env store s)) !! "file_search_store_name"
    = Some (_safe_get store "name" (VStr "")).
Proof.
  intros Hstore Hname.
  destruct (py_eq (_safe_get store "name" (VStr ""))
                  (default (VStr "") (session s !! "file_search_store_name")))
    eqn:Hcmp; [apply py_eq_true_iff in Hcmp as Heq
              | apply py_eq_false_iff in Hcmp as Hne].
  - rewrite activate_quiet by (done || by right). simpl. split; [done|].
    destruct (session s !! "file_search_store_name") as [a|] eqn:Ha.
    + simpl in Heq. by rewrite Heq.
    + simpl in Heq. rewrite Heq in Hname. discriminate.
  - rewrite activate_switch by done. simpl. split; [done|].
    rewrite !lookup_insert_ne by done. apply lookup_insert_eq.
Qed.

(** X8.  Activation is idempotent.  Running the activation branch again on
    the store it has just been run on calls nothing and leaves the session as
    the first run left it: a rerun of the script with the same selection does
    not reload the documents. *)
Theorem activate_again_is_quiet {W} (env : Env W) (s : state W) (store : pyval) :
  let s1 := fst (activate env store s) in
  ∃ s2, activate env store s1 = (s2, Ok tt) ∧
        session s2 = session s1 ∧ world s2 = world s1 ∧
        remote_calls (new_log s1 s2) = [].
Proof.
  intros s1.
  destruct (truthy store) eqn:Hstore.
  - exists (add_log (EvUi SidebarSuccess
                            [Lit "Active store: ";
                             Val (_safe_get store "name" (VStr ""))]) s1).
    split; [|split; [reflexivity|split; [reflexivity|]]].
    + apply activate_quiet; [exact Hstore|].
      destruct (truthy (_safe_get store "name" (VStr ""))) eqn:Hname;
        [right | by left].
      destruct (activate_makes_active env s store Hstore Hname) as [_ Hactive].
      fold s1 in Hactive. by rewrite Hactive.
    + by erewrite new_log_app by reflexivity.
  - exists s1. rewrite activate_falsy by exact Hstore.
    split; [reflexivity|]. split; [reflexivity|]. split; [reflexivity|].
    unfold new_log. by rewrite drop_all.
Qed.

Lemma default_idx_from_cases (active_name : pyval) (stores_list : list pyval) :
  ∀ i d,
    (default_idx_from i stores_list active_name d = d ∧
     ∀ s, s ∈ stores_list → _safe_get s "name" (VStr "") ≠ active_name) ∨
    (∃ k s0, default_idx_from i stores_list active_name d = (i + k)%nat ∧
             stores_list !! k = Some s0 ∧
             _safe_get s0 "name" (VStr "") = active_name ∧
             ∀ j s', (j < k)%nat → stores_list !! j = Some s' →
                     _safe_get s' "name" (VStr "") ≠ active_name).
Proof.
  induction stores_list as [|s rest IH]; intros i d; simpl.
  - left. split; [done|]. intros s Hs. by apply elem_of_nil in Hs.
  - destruct (py_eq (_safe_get s "name" (VStr "")) active_name) eqn:Hcmp.
    + right. exists 0%nat, s. apply py_eq_true_iff in Hcmp.
      split; [lia|]. split; [done|]. split; [done|]. intros j s' Hj. lia.
    + apply py_eq_false_iff in Hcmp.
      destruct (IH (S i) d) as [[Hd Hnone] | (k & s0 & Hk & Hs0 & Hname & Hfirst)].
      * left. split; [exact Hd|]. intros s' Hs'.
        apply elem_of_cons in Hs' as [->|Hs']; [exact Hcmp | by apply Hnone].
      * right. exists (S k), s0. split; [lia|]. split; [exact Hs0|].
        split; [exact Hname|]. intros [|j] s' Hj Hs'.
        -- simpl in Hs'. by injection Hs' as <-.
        -- simpl in Hs'. apply (Hfirst j s'); [lia | exact Hs'].
Qed.

(** X9.  The preselected position.  For a non-empty store list the index
    handed to the radio button is always inside the list.  When a store of
    the list carries the active identifier, the index is the position of the
    first such store; when none does, the index is 0. *)
Theorem default_idx_is_the_active_store (stores_list : list pyval) (active_name : pyval) :
  (stores_list ≠ [] →
   (default_idx stores_list active_name < List.length stores_list)%nat) ∧
  ((∃ s, s ∈ stores_list ∧ _safe_get s "name" (VStr "") = active_name) →
   ∃ s0, stores_list !! default_idx stores_list active_name = Some s0 ∧
         _safe_get s0 "name" (VStr "") = active_name ∧
         ∀ j s', (j < default_idx stores_list active_name)%nat →
                 stores_list !! j = Some s' →
                 _safe_get s' "name" (VStr "") ≠ active_name) ∧
  ((∀ s, s ∈ stores_list → _safe_get s "name" (VStr "") ≠ active_name) →
   default_idx stores_list active_name = 0%nat).
Proof.
  unfold default_idx.
  destruct (default_idx_from_cases active_name stores_list 0 0)
    as [[Hd Hnone] | (k & s0 & Hk & Hs0 & Hname & Hfirst)].
  - split; [|split].
    + intros Hne. rewrite Hd. destruct stores_list; [done | simpl; lia].
    + intros (s & Hin & Hs). by destruct (Hnone s Hin).
    + intros _. exact Hd.
  - rewrite Hk. simpl. split; [|split].
    + intros _. by apply lookup_lt_Some in Hs0.
    + intros _. exists s0. split; [exact Hs0|]. split; [exact Hname | exact Hfirst].
    + intros Hnone. exfalso. apply (Hnone s0); [|exact Hname].
      by apply list_elem_of_lookup_2 in Hs0.
Qed.

Lemma default_idx_is_the_active_store_witness :
  let stores := named "fileSearchStores/" ["a"; "b"; "c"] in
  (default_idx stores (VStr "fileSearchStores/c") < 3)%nat ∧
  stores !! default_idx stores (VStr "fileSearchStores/c")
    = Some (VObj [("name", VStr "fileSearchStores/c")]) ∧
  default_idx stores (VStr "") = 0%nat.
Proof.
  intros stores. split; [|split].
  - apply (proj1 (default_idx_is_the_active_store stores (VStr "fileSearchStores/c"))).
    discriminate.
  - destruct (proj1 (proj2 (default_idx_is_the_active_store
                              stores (VStr "fileSearchStores/c"))))
      as (s0 & Hs0 & _).
    + exists (VObj [("name", VStr "fileSearchStores/c")]).
      split; [|reflexivity]. do 2 right. left.
    + rewrite Hs0. vm_compute in Hs0. congruence.
  - apply (proj2 (proj2 (default_idx_is_the_active_store stores (VStr "")))).
    intros s Hs.
    repeat (apply elem_of_cons in Hs as [->|Hs]; [discriminate|]).
    by apply elem_of_nil in Hs.
Defined.

(** X10.  A rerun keeps the active store.  When the session has an active
    store and the store list contains it, the store at the preselected
    position is the active one, and the activation branch run on it calls
    nothing and changes nothing in the session. *)
Theorem preselected_store_is_not_reloaded {W} (env : Env W) (s : state W)
        (stores_list : list pyval) (active_name s0 : pyval) :
  session s !! "file_search_store_name" = Some active_name →
  (∃ store, store ∈ stores_list ∧ _safe_get store "name" (VStr "") = active_name) →
  stores_list !! default_idx stores_list active_name = Some s0 →
  truthy s0 = true →
  activate env s0 s =
    (add_log (EvUi SidebarSuccess [Lit "Active store: "; Val active_name]) s, Ok tt).
Proof.
  intros Hactive Hin Hs0 Htruthy.
  assert (_safe_get s0 "name" (VStr "") = active_name) as Hname.
  { unfold default_idx in Hs0.
    destruct (default_idx_from_cases active_name stores_list 0 0)
      as [[_ Hnone] | (k & s0' & Hk & Hs0' & Hname & _)].
    - destruct Hin as (store & Hstore & Hn). by destruct (Hnone store Hstore).
    - rewrite Hk in Hs0. simpl in Hs0. rewrite Hs0 in Hs0'. by injection Hs0' as <-. }
  rewrite activate_quiet; [by rewrite Hname | exact Htruthy |].
  right. by rewrite Hactive, Hname.
Qed.

Lemma preselected_store_is_not_reloaded_witness :
  let stores := named "fileSearchStores/" ["a"; "b"; "c"] in
  let s := fresh {[ "file_search_store_name" := VStr "fileSearchStores/b" ]} in
  activate (listing_env (Returns (RVal (VList []))))
           (VObj [("name", VStr "fileSearchStores/b")]) s
  = (add_log (EvUi SidebarSuccess [Lit "Active store: "; Val (VStr "fileSearchStores/b")])
             s, Ok tt).
Proof.
  intros stores s.
  apply (preselected_store_is_not_reloaded
           (listing_env (Returns (RVal (VList [])))) s stores).
  - reflexivity.
  - exists (VObj [("name", VStr "fileSearchStores/b")]).
    split; [|reflexivity]. right. left.
  - reflexivity.
  - reflexivity.
Defined.

Lemma list_stores_session {W} (env : Env W) (s : state W) :
  session (fst (list_stores env s)) = session s.
Proof. apply list_stores_frame. Qed.

(** X11.  The [Create Store] button never lets an exception out, and it
    refreshes the cached store list exactly when the create call returned an
    object with a [name]: when the call raises, and also when it returns an
    object without a [name] (the success message cannot be built), an error
    is shown and the cached list stays as it was. *)
Theorem create_store_refreshes_on_success {W} (env : Env W)
        (create : string → W → W * reply pyval) (s : state W)
        (store_name_display : string) (w' : W) :
  (∀ e, create store_name_display (world s) = (w', Raises e) →
        create_store env create true store_name_display s
        = (add_log (EvUi StError [Lit "Failed to create store: "; Lit (str_of_exn e)])
                   (set_world w' s), Ok tt))
  ∧
  (∀ store, create store_name_display (world s) = (w', Returns store) →
            hasattr store "name" = false →
            ∃ shown, create_store env create true store_name_display s
                     = (add_log (EvUi StError shown) (set_world w' s), Ok tt))
  ∧
  (∀ store, create store_name_display (world s) = (w', Returns store) →
            hasattr store "name" = true →
            ∃ s1 stores,
              list_stores env
                (add_log (EvUi StSuccess [Lit "Store created: ";
                                          Val (getattr store "name" VNone)])
                         (set_world w' s)) = (s1, Ok stores) ∧
              create_store env create true store_name_display s
              = (set_session (<["stores_list" := stores]> (session s)) s1, Ok tt)).
Proof.
  unfold create_store, create_call, try_except.
  split; [|split].
  - intros e Hc. unfold mbind at 1, M_bind at 1, bind at 1. rewrite Hc. reflexivity.
  - intros store Hc Hno. unfold mbind at 1, M_bind at 1, bind at 1. rewrite Hc.
    unfold mbind at 1, M_bind at 1, bind at 1.
    assert (∃ e, attr store "name" (set_world w' s) = (set_world w' s, Raise e))
      as [e He].
    { unfold attr, hasattr in *. destruct store; try (eexists; reflexivity).
      destruct (dict_get attrs "name"); [|eexists; reflexivity].
      apply bool_decide_eq_false in Hno. exfalso. apply Hno. by eexists. }
    rewrite He. eexists. reflexivity.
  - intros store Hc Hhas. unfold mbind at 1, M_bind at 1, bind at 1. rewrite Hc.
    unfold mbind at 1, M_bind at 1, bind at 1.
    assert (attr store "name" (set_world w' s)
            = (set_world w' s, Ok (getattr store "name" VNone))) as ->.
    { unfold attr, hasattr, getattr in *. destruct store; try discriminate.
      destruct (dict_get attrs "name"); [reflexivity|].
      apply bool_decide_eq_true in Hhas. by destruct Hhas. }
    unfold mbind at 1, M_bind at 1, bind at 1, ui, emit, modify.
    match goal with
    | |- context [list_stores env ?st] =>
        destruct (list_stores_returns env st) as (s1 & stores & Hlist);
        pose proof (list_stores_session env st) as Hsess
    end.
    exists s1, stores. split; [exact Hlist|].
    unfold mbind, M_bind, bind, session_set, modify. rewrite Hlist.
    rewrite Hlist in Hsess. simpl in Hsess. by rewrite Hsess.
Qed.

Lemma create_store_refreshes_on_success_witness :
  let listed := named "fileSearchStores/" ["bounties"] in
  let env := listing_env (Returns (RVal (VList listed))) in
  create_store env stub_create true "" (fresh ∅)
  = (add_log (EvUi StError [Lit "Failed to create store: "; Lit "400 INVALID_ARGUMENT"])
             (fresh ∅), Ok tt) ∧
  (∃ shown,
     create_store env (fun _ w => (w, Returns (VObj []))) true "bounties" (fresh ∅)
     = (add_log (EvUi StError shown) (fresh ∅), Ok tt)) ∧
  session (fst (create_store env stub_create true "bounties" (fresh ∅)))
    !! "stores_list" = Some (VList listed).
Proof.
  intros listed env. split; [|split].
  - exact (proj1 (create_store_refreshes_on_success env stub_create (fresh ∅) "" 0%nat)
                 _ eq_refl).
  - exact (proj1 (proj2 (create_store_refreshes_on_success
                           env (fun _ w => (w, Returns (VObj []))) (fresh ∅)
                           "bounties" 0%nat))
                 (VObj []) eq_refl eq_refl).
  - destruct (proj2 (proj2 (create_store_refreshes_on_success
                              env stub_create (fresh ∅) "bounties" 0%nat))
                    _ eq_refl eq_refl) as (s1 & stores & Hlist & ->).
    simpl. rewrite lookup_insert_eq. f_equal.
    rewrite list_stores_run in Hlist. simpl in Hlist. congruence.
Defined.

(** The state the delete handler leaves its [try] statement in. *)
Lemma delete_active_store_run {W} (env : Env W) (s : state W) (store : pyval)
      (w' : W) (r : reply unit) :
  truthy store = true →
  truthy (_safe_get store "name" (VStr "")) = true →
  file_search_stores_delete env (_safe_get store "name" (VStr "")) (world s) = (w', r) →
  let name := _safe_get store "name" (VStr "") in
  let s1 :=
    match r with
    | Returns _ =>
        let s0 := add_log (EvUi SidebarSuccess [Lit "Deleted store: "; Val name])
                          (add_log (EvDeleteStore name None) (set_world w' s)) in
        if py_eq (default VNone (session s !! "file_search_store_name")) name
        then set_session
               (delete "_store_docs_for"
                  (delete "store_documents"
                     (delete "file_search_store_name"
                        (delete "file_search_store" (session s))))) s0
        else s0
    | Raises e =>
        add_log (EvUi SidebarError [Lit "Failed to delete store: "; Lit (str_of_exn e)])
                (add_log (EvDeleteStore name (Some e)) (set_world w' s))
    end in
  ∃ s2 stores,
    list_stores env s1 = (s2, Ok stores) ∧
    delete_active_store env true store s
    = (set_session (<["stores_list" := stores]> (session s1)) s2, Ok tt).
Proof.
  intros Hstore Hname Hdel name s1. fold name in Hname, Hdel.
  destruct (list_stores_returns env s1) as (s2 & stores & Hlist).
  exists s2, stores. split; [exact Hlist|].
  pose proof (list_stores_session env s1) as Hsess.
  rewrite Hlist in Hsess. simpl in Hsess. rewrite <- Hsess.
  unfold delete_active_store. rewrite Hstore. simpl. fold name.
  rewrite Hname. simpl.
  match goal with
  | |- context [try_except ?m ?h ≫= ?k] => set (block := try_except m h)
  end.
  assert (block s = (s1, Ok tt)) as Hblock.
  { unfold block, s1. run. rewrite Hdel. destruct r as [[]|e]; simpl; [|reflexivity].
    destruct (py_eq _ name); reflexivity. }
  rewrite (bind_ok _ _ _ _ _ Hblock). rewrite (bind_ok _ _ _ _ _ Hlist).
  reflexivity.
Qed.

Lemma delete_active_store_idle {W} (env : Env W) (s : state W) (clicked : bool)
      (store : pyval) :
  clicked && truthy store = false ∨ truthy (_safe_get store "name" (VStr "")) = false →
  untouched s (fst (delete_active_store env clicked store s)) ∧
  remote_calls (new_log s (fst (delete_active_store env clicked store s))) = [].
Proof.
  intros H. unfold delete_active_store.
  destruct (clicked && truthy store) eqn:Hc.
  - destruct H as [H|H]; [discriminate|]. rewrite H. simpl.
    split; [repeat split|]. by erewrite new_log_app by reflexivity.
  - simpl. split; [repeat split|]. unfold new_log. by rewrite drop_all.
Qed.

(** X12.  What deleting a store leaves alone.  The delete handler never
    touches the files on disk or the script's variables, and of the session
    it changes at most five keys: the cached store list and the four keys of
    the active store.  Those four are changed only when the deleted store is
    the active one; every other key, and so the remembered display name,
    stays as it was. *)
Theorem delete_leaves_the_rest {W} (env : Env W) (s : state W) (clicked : bool)
        (store : pyval) :
  let s' := fst (delete_active_store env clicked store s) in
  files s' = files s ∧ display_name s' = display_name s ∧
  temp_path s' = temp_path s ∧ results s' = results s ∧
  (∀ k, k ∉ ["stores_list"; "file_search_store"; "file_search_store_name";
             "store_documents"; "_store_docs_for"] →
        session s' !! k = session s !! k) ∧
  (session s !! "file_search_store_name" ≠ Some (_safe_get store "name" (VStr "")) →
   ∀ k, k ≠ "stores_list" → session s' !! k = session s !! k).
Proof.
  intros s'.
  destruct (clicked && truthy store) eqn:Hc;
    [destruct (truthy (_safe_get store "name" (VStr ""))) eqn:Hname|].
  - apply andb_prop in Hc as [-> Hstore].
    destruct (file_search_stores_delete env (_safe_get store "name" (VStr ""))
                                        (world s)) as [w' r] eqn:Hdel.
    destruct (delete_active_store_run env s store w' r Hstore Hname Hdel)
      as (s2 & stores & Hlist & Hrun).
    unfold s'. rewrite Hrun. clear Hrun. simpl.
    match type of Hlist with list_stores env ?st = _ =>
      pose proof (list_stores_frame env st) as Hframe; rewrite Hlist in Hframe;
      destruct Hframe as (_ & Hf & Hd & Ht & Hr); simpl in Hf, Hd, Ht, Hr
    end.
    rewrite Hf, Hd, Ht, Hr.
    destruct r as [[]|e]; simpl.
    + destruct (py_eq (default VNone (session s !! "file_search_store_name"))
                      (_safe_get store "name" (VStr ""))) eqn:Hcmp; simpl.
      * do 4 (split; [reflexivity|]). split.
        -- intros k Hk. rewrite lookup_insert_ne by set_solver.
           rewrite !lookup_delete_ne by set_solver. reflexivity.
        -- intros Hactive. exfalso. apply py_eq_true_iff in Hcmp.
           destruct (session s !! "file_search_store_name") as [a|];
             simpl in Hcmp; [by subst a|].
           rewrite <- Hcmp in Hname. discriminate.
      * do 4 (split; [reflexivity|]). split.
        -- intros k Hk. by rewrite lookup_insert_ne by set_solver.
        -- intros _ k Hk. by rewrite lookup_insert_ne.
    + do 4 (split; [reflexivity|]). split.
      * intros k Hk. by rewrite lookup_insert_ne by set_solver.
      * intros _ k Hk. by rewrite lookup_insert_ne.
  - destruct (delete_active_store_idle env s clicked store) as [(Hs & Hf & Hd & Ht & Hr) _];
      [by right|].
    fold s' in Hs, Hf, Hd, Ht, Hr. rewrite Hs, Hf, Hd, Ht, Hr.
    do 4 (split; [reflexivity|]). split; [done|done].
  - destruct (delete_active_store_idle env s clicked store) as [(Hs & Hf & Hd & Ht & Hr) _];
      [by left|].
    fold s' in Hs, Hf, Hd, Ht, Hr. rewrite Hs, Hf, Hd, Ht, Hr.
    do 4 (split; [reflexivity|]). split; [done|done].
Qed.

Lemma delete_leaves_the_rest_witness :
  let s := fresh {[ "file_search_store_name" := VStr "fileSearchStores/a";
                    "file_search_store_display_name" := VStr "A" ]} in
  let s' := fst (delete_active_store (listing_env (Returns (RVal (VList [])))) true
                                     (VObj [("name", VStr "fileSearchStores/b")]) s) in
  session s' !! "file_search_store_display_name" = Some (VStr "A") ∧
  session s' !! "file_search_store_name" = Some (VStr "fileSearchStores/a").
Proof.
  intros s s'.
  destruct (delete_leaves_the_rest (listing_env (Returns (RVal (VList [])))) s true
                                   (VObj [("name", VStr "fileSearchStores/b")]))
    as (_ & _ & _ & _ & Hother & Hnot_active).
  split.
  - unfold s'. rewrite Hother; [reflexivity|].
    intros H. repeat (apply elem_of_cons in H as [H|H]; [discriminate|]).
    by apply elem_of_nil in H.
  - unfold s'. rewrite Hnot_active; [reflexivity | vm_compute; discriminate | discriminate].
Defined.

(** X13.  Deleting from the sidebar clears the active store.  The selected
    store is activated before the delete handler runs, so when it has an
    identifier and the remote delete returns, the session afterwards has no
    active store, no cached documents and no cache tag, and it has a cached
    store list. *)
Theorem sidebar_delete_clears_active_store {W} (env : Env W) (s : state W)
        (store : pyval) :
  truthy store = true →
  truthy (_safe_get store "name" (VStr "")) = true →
  (∀ w, ∃ w', file_search_stores_delete env (_safe_get store "name" (VStr "")) w
              = (w', Returns tt)) →
  ∃ s', (activate env store;; delete_active_store env true store) s = (s', Ok tt) ∧
        session s' !! "file_search_store" = None ∧
        session s' !! "file_search_store_name" = None ∧
        session s' !! "store_documents" = None ∧
        session s' !! "_store_docs_for" = None ∧
        is_Some (session s' !! "stores_list").
Proof.
  intros Hstore Hname Hdel.
  destruct (activate_makes_active env s store Hstore Hname) as [Hok Hactive].
  destruct (activate env store s) as [s1 r1] eqn:Hact. simpl in Hok, Hactive.
  subst r1.
  destruct (Hdel (world s1)) as [w' Hd].
  destruct (delete_active_store_run env s1 store w' (Returns tt) Hstore Hname Hd)
    as (s2 & stores & Hlist & Hrun).
  rewrite Hactive in Hlist, Hrun. simpl in Hlist, Hrun.
  rewrite py_eq_refl in Hlist, Hrun.
  eexists. split.
  { unfold mbind, M_bind, bind. rewrite Hact. exact Hrun. }
  simpl.
  rewrite !lookup_insert_ne by done.
  split; [by rewrite !lookup_delete_ne, lookup_delete_eq by done|].
  split; [by rewrite !lookup_delete_ne, lookup_delete_eq by done|].
  split; [by rewrite !lookup_delete_ne, lookup_delete_eq by done|].
  split; [by rewrite lookup_delete_eq|].
  rewrite lookup_insert_eq. by eexists.
Qed.

Lemma sidebar_delete_clears_active_store_witness :
  let a := VObj [("name", VStr "fileSearchStores/a"); ("display_name", VStr "A")] in
  ∃ s', (activate (listing_env (Returns (RVal (VList [])))) a;;
         delete_active_store (listing_env (Returns (RVal (VList [])))) true a)
          (fresh ∅) = (s', Ok tt) ∧
        session s' !! "file_search_store_name" = None ∧
        session s' !! "store_documents" = None.
Proof.
  intros a.
  destruct (sidebar_delete_clears_active_store
              (listing_env (Returns (RVal (VList [])))) (fresh ∅) a eq_refl eq_refl)
    as (s' & Hrun & _ & Hname & Hdocs & _).
  - intros w. exists w. reflexivity.
  - exists s'. split; [exact Hrun|]. split; [exact Hname | exact Hdocs].
Defined.

(** ** The document cache *)

(** X14.  The cache invariant.  After the automatic load the session holds a
    document list tagged with the active store, whatever it held before; and
    once that is so the automatic load calls nothing, so reruns of the script
    do not list the documents again. *)
Theorem autoload_tags_the_cache {W} (env : Env W) (s : state W) (store_name : pyval) :
  store_name ≠ VNone →
  let s1 := fst (autoload_documents env store_name s) in
  snd (autoload_documents env store_name s) = Ok tt ∧
  is_Some (session s1 !! "store_documents") ∧
  session s1 !! "_store_docs_for" = Some store_name ∧
  autoload_documents env store_name s1 = (s1, Ok tt).
Proof.
  intros Hstore s1.
  assert (∀ st : state W,
            is_Some (session st !! "store_documents") →
            session st !! "_store_docs_for" = Some store_name →
            autoload_documents env store_name st = (st, Ok tt)) as Hquiet.
  { intros st Hdocs Htag. unfold autoload_documents.
    unfold mbind, M_bind, bind, session_get, get. simpl.
    rewrite bool_decide_true by exact Hdocs. rewrite Htag. simpl.
    by rewrite py_eq_refl. }
  destruct (bool_decide (is_Some (session s !! "store_documents"))) eqn:Hcached;
    [destruct (py_eq (default VNone (session s !! "_store_docs_for")) store_name)
       eqn:Hcmp|].
  - (* the cache is there and tagged with this store *)
    apply bool_decide_eq_true in Hcached. apply py_eq_true_iff in Hcmp.
    assert (session s !! "_store_docs_for" = Some store_name) as Htag.
    { destruct (session s !! "_store_docs_for") as [t|]; simpl in Hcmp;
        [by subst t | by destruct Hstore]. }
    unfold s1. rewrite (Hquiet s Hcached Htag). simpl.
    split; [done|]. split; [done|]. split; [done|]. by apply Hquiet.
  - assert (autoload_documents env store_name s
            = (set_session
                 (<["_store_docs_for" := store_name]>
                    (<["store_documents" :=
                         default VNone
                           match snd (list_store_documents env store_name s) with
                           | Ok docs => Some docs | _ => None end]> (session s)))
                 (fst (list_store_documents env store_name s)), Ok tt)) as Hrun.
    { unfold autoload_documents.
      unfold mbind at 1, M_bind at 1, bind at 1, get. simpl. rewrite Hcached.
      unfold mbind at 1, M_bind at 1, bind at 1, session_get, get. simpl.
      rewrite Hcmp. simpl.
      destruct (list_store_documents_returns env store_name s) as (s0 & docs & Hlist).
      destruct (list_store_documents_frame _ _ _ _ _ Hlist) as (Hsess & _).
      unfold mbind, M_bind, bind, session_set, modify. rewrite Hlist. simpl.
      by rewrite Hsess. }
    unfold s1. rewrite Hrun. simpl. split; [done|].
    split; [rewrite lookup_insert_ne by done; rewrite lookup_insert_eq; by eexists|].
    split; [apply lookup_insert_eq|].
    apply Hquiet; simpl.
    + rewrite lookup_insert_ne by done. rewrite lookup_insert_eq. by eexists.
    + apply lookup_insert_eq.
  - assert (autoload_documents env store_name s
            = (set_session
                 (<["_store_docs_for" := store_name]>
                    (<["store_documents" :=
                         default VNone
                           match snd (list_store_documents env store_name s) with
                           | Ok docs => Some docs | _ => None end]> (session s)))
                 (fst (list_store_documents env store_name s)), Ok tt)) as Hrun.
    { unfold autoload_documents.
      unfold mbind at 1, M_bind at 1, bind at 1, get. simpl. rewrite Hcached.
      unfold mbind at 1, M_bind at 1, bind at 1, session_get, get. simpl.
      destruct (list_store_documents_returns env store_name s) as (s0 & docs & Hlist).
      destruct (list_store_documents_frame _ _ _ _ _ Hlist) as (Hsess & _).
      unfold mbind, M_bind, bind, session_set, modify. rewrite Hlist. simpl.
      by rewrite Hsess. }
    unfold s1. rewrite Hrun. simpl. split; [done|].
    split; [rewrite lookup_insert_ne by done; rewrite lookup_insert_eq; by eexists|].
    split; [apply lookup_insert_eq|].
    apply Hquiet; simpl.
    + rewrite lookup_insert_ne by done. rewrite lookup_insert_eq. by eexists.
    + apply lookup_insert_eq.
Qed.

Lemma autoload_tags_the_cache_witness :
  let docs := named "documents/" ["1"; "2"] in
  let env := listing_env (Returns (RVal (VList docs))) in
  let s1 := fst (autoload_documents env (VStr "fileSearchStores/a") (fresh ∅)) in
  session s1 !! "_store_docs_for" = Some (VStr "fileSearchStores/a") ∧
  autoload_documents env (VStr "fileSearchStores/a") s1 = (s1, Ok tt).
Proof.
  intros docs env s1.
  destruct (autoload_tags_the_cache env (fresh ∅) (VStr "fileSearchStores/a"))
    as (_ & _ & Htag & Hquiet); [discriminate|].
  split; [exact Htag | exact Hquiet].
Defined.

Lemma list_store_documents_log_grows {W} (env : Env W) parent (s : state W) :
  ∃ added, log (fst (list_store_documents env parent s)) = (log s ++ added)%list.
Proof.
  rewrite list_store_documents_run.
  destruct (documents_list env parent 20 (world s)) as [w' [pager|e]]; simpl.
  - destruct (drain "documents" pager []) as [v [[]|e]]; simpl;
      eexists; rewrite <- ?app_assoc; reflexivity.
  - eexists; rewrite <- ?app_assoc; reflexivity.
Qed.

(** X15.  One listing per store switch.  When the selection moves to another
    store, the activation lists its documents once, and the automatic load of
    the first tab, run afterwards in the same script run, finds the cache
    tagged and calls nothing. *)
Theorem switch_lists_documents_once {W} (env : Env W) (s : state W) (store : pyval) :
  truthy store = true →
  truthy (_safe_get store "name" (VStr "")) = true →
  _safe_get store "name" (VStr "")
    ≠ default (VStr "") (session s !! "file_search_store_name") →
  let sel_name := _safe_get store "name" (VStr "") in
  let s1 := fst (activate env store s) in
  (∃ failed, remote_calls (new_log s s1) = [EvListDocuments sel_name 20 failed]) ∧
  autoload_documents env sel_name s1 = (s1, Ok tt).
Proof.
  intros Hstore Hname Hne sel_name s1. unfold s1.
  rewrite activate_switch by done. cbv zeta. fold sel_name. simpl.
  match goal with
  | |- context [list_store_documents env sel_name ?st] => set (s0 := st)
  end.
  split.
  - exists (failure (snd (documents_list env sel_name 20 (world s0)))).
    pose proof (list_store_documents_calls env sel_name s0) as Hcalls.
    unfold new_log in *. simpl in *.
    destruct (list_store_documents_log_grows env sel_name s0) as [added Hadded].
    rewrite Hadded in *. rewrite drop_app_length in Hcalls.
    rewrite <- app_assoc, drop_app_length.
    unfold remote_calls in *. rewrite List.filter_app, Hcalls. reflexivity.
  - unfold autoload_documents.
    unfold mbind, M_bind, bind, session_get, get. simpl.
    rewrite lookup_insert_eq.
    rewrite lookup_insert_ne by done. rewrite lookup_insert_eq.
    rewrite bool_decide_true by (by eexists). simpl.
    by rewrite py_eq_refl.
Qed.

Lemma switch_lists_documents_once_witness :
  let a := VObj [("name", VStr "fileSearchStores/a")] in
  let env := listing_env (Returns (RVal (VList (named "documents/" ["1"])))) in
  let s1 := fst (activate env a (fresh ∅)) in
  (∃ failed, remote_calls (new_log (fresh ∅) s1)
             = [EvListDocuments (VStr "fileSearchStores/a") 20 failed]) ∧
  autoload_documents env (VStr "fileSearchStores/a") s1 = (s1, Ok tt).
Proof.
  intros a env s1.
  apply (switch_lists_documents_once env (fresh ∅) a); [reflexivity | reflexivity |].
  vm_compute. discriminate.
Defined.

(** ** The documents panel *)

Lemma options_keys_truthy (docs : list pyval) :
  Forall (fun k => truthy k = true) (options_keys docs).
Proof.
  induction docs as [|d rest IH]; simpl; [constructor|].
  destruct (truthy (_safe_get d "name" (VStr ""))) eqn:Hd; [|exact IH].
  by constructor.
Qed.

Lemma options_keys_filter (docs : list pyval) :
  options_keys docs
  = List.filter truthy (map (fun d => _safe_get d "name" (VStr "")) docs).
Proof.
  induction docs as [|d rest IH]; simpl; [done|].
  destruct (truthy (_safe_get d "name" (VStr ""))); by rewrite IH.
Qed.

(** What a batch delete over a non-empty selection does. *)
Lemma delete_documents_run {W} (env : Env W) (s : state W) (names : list pyval)
      (store_name : pyval) :
  names ≠ [] →
  ∃ s' listed docs,
    delete_documents env true names store_name s = (s', Ok tt) ∧
    remote_calls (new_log s s') =
      (zip_with (fun n f => EvDeleteDocument n true f) names
                (fst (delete_replies env names (world s)))
       ++ [EvListDocuments store_name 20 listed])%list ∧
    session s' = <["store_documents" := docs]> (session s) ∧
    files s' = files s ∧ display_name s' = display_name s ∧
    temp_path s' = temp_path s.
Proof.
  intros Hnames. unfold delete_documents.
  assert (truthy (VList names) = true) as -> by (by destruct names).
  simpl. unfold mbind, M_bind, bind, modify at 1. rewrite delete_each_run. simpl.
  rewrite !list_store_documents_run. simpl.
  destruct (documents_list env store_name 20 _) as [w' [pager|e]]; simpl.
  - destruct (drain "documents" pager []) as [docs [[]|e]]; simpl;
      eexists _, None, docs; (split; [reflexivity|]); simpl;
      (split; [|done]);
      [ erewrite (new_log_app s) by (simpl; rewrite <- !app_assoc; reflexivity)
      | erewrite (new_log_app s) by (simpl; rewrite <- !app_assoc; reflexivity) ];
      unfold remote_calls; rewrite List.filter_app; simpl;
      fold (remote_calls (zip_with (fun n f => EvDeleteDocument n true f) names
                                   (fst (delete_replies env names (world s)))));
      by rewrite remote_calls_deletes.
  - eexists _, (Some e), (VList []). (split; [reflexivity|]); simpl.
    split; [|done].
    erewrite (new_log_app s) by (simpl; rewrite <- !app_assoc; reflexivity).
    unfold remote_calls; rewrite List.filter_app; simpl.
    fold (remote_calls (zip_with (fun n f => EvDeleteDocument n true f) names
                                 (fst (delete_replies env names (world s))))).
    by rewrite remote_calls_deletes.
Qed.

Lemma delete_documents_log_grows {W} (env : Env W) (s : state W) (names : list pyval)
      (store_name : pyval) :
  ∃ added, log (fst (delete_documents env true names store_name s))
           = (log s ++ added)%list.
Proof.
  unfold delete_documents. destruct (truthy (VList names)); simpl;
    [|exists []; by rewrite app_nil_r].
  unfold mbind, M_bind, bind, modify at 1. rewrite delete_each_run. simpl.
  rewrite !list_store_documents_run. simpl.
  destruct (documents_list env store_name 20 _) as [w' [pager|e]]; simpl.
  - destruct (drain "documents" pager []) as [docs [[]|e]]; simpl;
      eexists; rewrite <- ?app_assoc; reflexivity.
  - eexists; rewrite <- ?app_assoc; reflexivity.
Qed.

(** X16.  What [Select all documents] deletes.  With the box ticked and
    [Delete] pressed, the panel makes one forced delete for each cached
    document that has an identifier, in the order of the cache, and then one
    listing; a cached document without an identifier is left out, so no
    delete is ever made with an empty identifier; and when no cached document
    has an identifier, nothing is called at all, and of the session only the
    key of the check box is written (when the cache is not empty). *)
Theorem select_all_deletes_named_documents {W} (env : Env W) (s : state W)
        (docs chosen : list pyval) (store_name : pyval) :
  session s !! "store_documents" = Some (VList docs) →
  let keys := List.filter truthy (map (fun d => _safe_get d "name" (VStr "")) docs) in
  let s' := fst (documents_panel env false true chosen true store_name s) in
  snd (documents_panel env false true chosen true store_name s) = Ok tt ∧
  (keys ≠ [] →
   ∃ listed,
     remote_calls (new_log s s') =
       (zip_with (fun n f => EvDeleteDocument n true f) keys
                 (fst (delete_replies env keys (world s)))
        ++ [EvListDocuments store_name 20 listed])%list) ∧
  (keys = [] →
   remote_calls (new_log s s') = [] ∧
   session s' = match docs with
                | [] => session s
                | _ => <["_select_all_docs" := VBool true]> (session s)
                end).
Proof.
  intros Hdocs keys s'. unfold s'. clear s'.
  assert (documents_panel env false true chosen true store_name s
          = match docs with
            | [] => (add_log (EvUi StWrite [Lit "No files listed yet. Click 'Refresh store files' to load documents."]) s, Ok tt)
            | _ =>
                delete_documents env true keys store_name
                  (add_log (EvUi StInfo [Lit "All "; Lit (str_of_nat (List.length keys));
                                         Lit " documents will be deleted."])
                     (set_session (<["_select_all_docs" := VBool true]> (session s))
                        (add_log (EvUi StTable [Val (VList (map doc_row docs))]) s)))
            end) as ->.
  { unfold documents_panel, keys. rewrite <- options_keys_filter.
    unfold mbind, M_bind, bind, ret, session_get, session_set, get, ui, emit, modify.
    simpl. rewrite Hdocs. simpl. destruct docs; reflexivity. }
  destruct docs as [|d rest] eqn:Hd.
  - simpl. split; [done|]. split; [done|]. intros _.
    split; [|done]. by erewrite new_log_app by reflexivity.
  - rewrite <- Hd. fold keys.
    match goal with
    | |- context [delete_documents env true keys store_name ?st] => set (s0 := st)
    end.
    destruct keys as [|k ks] eqn:Hkeys.
    + simpl. split; [done|]. split; [done|]. intros _.
      split; [|done].
      by erewrite new_log_app by (simpl; rewrite <- ?app_assoc; reflexivity).
    + destruct (delete_documents_run env s0 (k :: ks) store_name)
        as (s1 & listed & ds & Hrun & Hcalls & _); [done|].
      destruct (delete_documents_log_grows env s0 (k :: ks) store_name)
        as [added Hadded].
      rewrite Hrun in *. simpl in Hadded. simpl fst. simpl snd.
      split; [done|]. split; [|done]. intros _.
      exists listed.
      unfold new_log in *. simpl in Hcalls.
      rewrite Hadded in *. rewrite drop_app_length in Hcalls.
      rewrite <- !app_assoc, drop_app_length.
      unfold remote_calls in *. rewrite !List.filter_app. simpl.
      exact Hcalls.
Qed.

Lemma select_all_deletes_named_documents_witness :
  let docs := [VObj [("name", VStr "documents/1")];
               VObj [("display_name", VStr "draft")];
               VObj [("name", VStr "documents/3")]] in
  let s := fresh {[ "store_documents" := VList docs ]} in
  let s' := fst (documents_panel (deleting_env "documents/9") false true [] true
                                 (VStr "fileSearchStores/a") s) in
  ∃ listed,
    remote_calls (new_log s s') =
      [EvDeleteDocument (VStr "documents/1") true None;
       EvDeleteDocument (VStr "documents/3") true None;
       EvListDocuments (VStr "fileSearchStores/a") 20 listed].
Proof.
  intros docs s s'.
  destruct (select_all_deletes_named_documents
              (deleting_env "documents/9") s docs [] (VStr "fileSearchStores/a") eq_refl)
    as (_ & Hsome & _).
  destruct Hsome as [listed Hcalls]; [discriminate|].
  exists listed. exact Hcalls.
Defined.

(** ** Upload and import: what a failure leaves behind *)

(** The [try] block up to the upload call, when the temporary file is
    written. *)
Lemma upload_try_upload_raises {W} (env : Env W) (fuel : nat) (store_name : pyval)
      (f : uploaded_file) (s : state W) (tmp : string) (w1 w2 w3 : W) (e : exn) :
  named_temporary_file env (snd (OsPath.splitext (uf_name f))) (world s)
    = (w1, Returns tmp) →
  tmp_write env tmp (uf_buffer f) w1 = (w2, Returns tt) →
  upload_to_file_search_store env tmp store_name
                              (fst (OsPath.splitext (uf_name f))) w2
    = (w3, Raises e) →
  upload_try env fuel store_name f s =
    (State w3 (session s) (tmp :: files s)
           (Some (fst (OsPath.splitext (uf_name f)))) (Some tmp) (results s)
           (log s ++
            [EvTempFile (snd (OsPath.splitext (uf_name f))) None;
             EvTempWrite tmp None;
             EvUi StWrite [Lit "Uploading to File Search store: "; Lit (uf_name f);
                           Lit " (detected mime: ";
                           Lit (guess_mime (guess_type env) (uf_name f)); Lit ")"];
             EvUi StWrite [Lit "Uploading & importing into File Search store: ";
                           Val store_name; Lit " (display name: ";
                           Lit (fst (OsPath.splitext (uf_name f))); Lit ")"];
             EvUpload tmp store_name (fst (OsPath.splitext (uf_name f))) (Some e)]),
     Raise e).
Proof.
  intros Htmp Hwrite Hup. destruct s as [w se fi dn tp rs lg].
  cbn [world] in Htmp.
  unfold upload_try, create_temp, read_var, append_result. run.
  cbn [fst snd world set_world add_log set_files].
  rewrite Htmp. cbn. rewrite Hwrite. cbn. rewrite Hup. cbn.
  cbv [add_log set_world set_display_name set_temp_path set_files
       world session files display_name temp_path results log].
  rewrite <- !app_assoc. reflexivity.
Qed.

(** X17.  An upload call that raises.  When the temporary file is written and
    the upload call raises, the file gets the failure record with the message
    of the exception and the file's base name, the temporary file is removed,
    no status check is made, and the body of the loop completes, so that the
    next file is processed. *)
Theorem upload_call_failure_is_recorded {W} (env : Env W) (fuel : nat)
        (store_name : pyval) (f : uploaded_file) (s : state W) (tmp : string)
        (w1 w2 w3 : W) (e : exn) :
  named_temporary_file env (snd (OsPath.splitext (uf_name f))) (world s)
    = (w1, Returns tmp) →
  tmp_write env tmp (uf_buffer f) w1 = (w2, Returns tt) →
  upload_to_file_search_store env tmp store_name
                              (fst (OsPath.splitext (uf_name f))) w2
    = (w3, Raises e) →
  ∃ s', upload_one env fuel store_name f s = (s', Ok tt) ∧
        results s' =
          (results s ++
           [VDict [("file", VStr (uf_name f));
                   ("display_name", VStr (fst (OsPath.splitext (uf_name f))));
                   ("status", VStr ("error: " ++ str_of_exn e))]])%list ∧
        (tmp ∉ files s') ∧
        remote_calls (new_log s s') =
          [EvUpload tmp store_name (fst (OsPath.splitext (uf_name f))) (Some e)] ∧
        session s' = session s.
Proof.
  intros Htmp Hwrite Hup.
  unfold upload_one, try_finally, try_except.
  rewrite (upload_try_upload_raises env fuel store_name f s tmp w1 w2 w3 e
             Htmp Hwrite Hup).
  erewrite upload_except_bound by reflexivity.
  rewrite upload_finally_run. cbn.
  rewrite bool_decide_true by (by left). cbn.
  eexists. split; [reflexivity|]. cbn.
  split; [reflexivity|]. split; [|split; [|reflexivity]].
  - destruct (decide (tmp ≠ tmp)) as [Hne|_]; [by destruct Hne|].
    apply removed_not_in.
  - erewrite (new_log_app s) by (cbn; rewrite <- !app_assoc; reflexivity).
    reflexivity.
Qed.

Lemma upload_call_failure_is_recorded_witness :
  let env := stub_env (Returns (RVal (VList []))) (fun _ => Returns tt)
                      (fun _ => Returns tt)
                      (Raises (PyExc "ClientError" "429 RESOURCE_EXHAUSTED"))
                      (fun _ => Returns VNone) (fun _ => None) in
  ∃ s', upload_one env 5 (VStr "fileSearchStores/a")
                   (UploadedFile "scope.md" "# Scope") (fresh ∅) = (s', Ok tt) ∧
        results s' =
          [VDict [("file", VStr "scope.md"); ("display_name", VStr "scope");
                  ("status", VStr "error: 429 RESOURCE_EXHAUSTED")]] ∧
        files s' = [].
Proof.
  intros env.
  destruct (upload_call_failure_is_recorded
              env 5 (VStr "fileSearchStores/a") (UploadedFile "scope.md" "# Scope")
              (fresh ∅) "/tmp/tmpk3x9.md" 0%nat 0%nat 0%nat
              (PyExc "ClientError" "429 RESOURCE_EXHAUSTED") eq_refl eq_refl eq_refl)
    as (s' & Hrun & Hres & _).
  exists s'. split; [exact Hrun|]. split; [exact Hres|].
  vm_compute in Hrun. injection Hrun as <-. reflexivity.
Defined.

Lemma fails_after_step {W} (env : Env W) (n : nat) (operation : pyval) (w : W)
      (e : exn) (w' : W) :
  fails_after env (S n) operation w e w' →
  not_done operation = true ∧
  ∃ w1 operation1, operations_get env operation w = (w1, Returns operation1) ∧
                   fails_after env n operation1 w1 e w'.
Proof.
  intros [(o & wn & Hre & Hget) Hnd]. split.
  - destruct (Hnd 0%nat ltac:(lia)) as (o0 & w0 & [= <- <-] & H0). exact H0.
  - simpl in Hre.
    destruct (operations_get env operation w) as [w1 [operation1|e1]] eqn:Hget1;
      [|discriminate].
    exists w1, operation1. split; [reflexivity|]. split.
    + exists o, wn. split; [exact Hre | exact Hget].
    + intros k Hk. destruct (Hnd (S k) ltac:(lia)) as (ok & wk & Hk' & Hndk).
      simpl in Hk'. rewrite Hget1 in Hk'. eauto.
Qed.

(** When the status check after [n] returning ones raises, the loop makes
    these [n + 1] checks and the exception leaves it. *)
Lemma poll_raises {W} (env : Env W) (n : nat) : ∀ operation (s : state W) e w' fuel,
  fails_after env n operation (world s) e w' →
  (n < fuel)%nat →
  poll env fuel operation s =
    (State w' (session s) (files s) (display_name s) (temp_path s) (results s)
           (log s ++ poll_log env (S n) operation (world s)),
     Raise e).
Proof.
  induction n as [|n IH]; intros operation s e w' fuel Hfail Hfuel;
    (destruct fuel as [|fuel]; [lia|]).
  - destruct Hfail as [(o & wn & [= <- <-] & Hget) Hnd].
    destruct (Hnd 0%nat ltac:(lia)) as (o0 & w0 & [= <- <-] & H0).
    destruct s as [w se fi dn tp rs lg]. cbn [world] in *.
    simpl. rewrite H0. run. simpl. rewrite Hget. simpl.
    cbv [add_log set_world world session files display_name temp_path results log].
    rewrite <- !app_assoc. reflexivity.
  - apply fails_after_step in Hfail as (Hnd & w1 & op1 & Hget & Hfail).
    destruct s as [w se fi dn tp rs lg]. cbn [world] in *.
    simpl. rewrite Hnd. run. simpl. rewrite Hget. simpl.
    erewrite IH; [| exact Hfail | lia].
    cbv [add_log set_world world session files display_name temp_path results log].
    cbn [poll_log].
    rewrite <- !app_assoc. reflexivity.
Qed.

Lemma poll_log_fails_sleeps {W} (env : Env W) (n : nat) : ∀ operation w e w',
  fails_after env n operation w e w' →
  List.filter is_sleep (poll_log env (S n) operation w) = repeat (EvSleep 2) (S n).
Proof.
  induction n as [|n IH]; intros operation w e w' Hfail.
  - destruct Hfail as [(o & wn & [= <- <-] & Hget) _].
    simpl. rewrite Hget. reflexivity.
  - apply fails_after_step in Hfail as (_ & w1 & op1 & Hget & Hfail).
    specialize (IH _ _ _ _ Hfail).
    change (poll_log env (S (S n)) operation w)
      with (let '(w', r) := operations_get env operation w in
            EvSleep 2 :: EvOperationsGet operation (failure r) ::
              match r with
              | Returns operation' => poll_log env (S n) operation' w'
              | Raises _ => []
              end).
    rewrite Hget. cbn [List.filter is_sleep]. rewrite IH. reflexivity.
Qed.

(** The [try] block when a status check raises. *)
Lemma upload_try_check_raises {W} (env : Env W) (fuel : nat) (store_name : pyval)
      (f : uploaded_file) (s : state W) (tmp : string) (w1 w2 w3 w4 : W)
      (operation : pyval) (n : nat) (e : exn) :
  named_temporary_file env (snd (OsPath.splitext (uf_name f))) (world s)
    = (w1, Returns tmp) →
  tmp_write env tmp (uf_buffer f) w1 = (w2, Returns tt) →
  upload_to_file_search_store env tmp store_name
                              (fst (OsPath.splitext (uf_name f))) w2
    = (w3, Returns operation) →
  fails_after env n operation w3 e w4 →
  (n < fuel)%nat →
  upload_try env fuel store_name f s =
    (State w4 (session s) (tmp :: files s)
           (Some (fst (OsPath.splitext (uf_name f)))) (Some tmp) (results s)
           (log s ++
            [EvTempFile (snd (OsPath.splitext (uf_name f))) None;
             EvTempWrite tmp None;
             EvUi StWrite [Lit "Uploading to File Search store: "; Lit (uf_name f);
                           Lit " (detected mime: ";
                           Lit (guess_mime (guess_type env) (uf_name f)); Lit ")"];
             EvUi StWrite [Lit "Uploading & importing into File Search store: ";
                           Val store_name; Lit " (display name: ";
                           Lit (fst (OsPath.splitext (uf_name f))); Lit ")"];
             EvUpload tmp store_name (fst (OsPath.splitext (uf_name f))) None] ++
            poll_log env (S n) operation w3),
     Raise e).
Proof.
  intros Htmp Hwrite Hup Hfail Hfuel. destruct s as [w se fi dn tp rs lg].
  cbn [world] in Htmp.
  unfold upload_try, create_temp, read_var, append_result. run.
  cbn [fst snd world set_world add_log set_files].
  rewrite Htmp. cbn. rewrite Hwrite. cbn. rewrite Hup. cbn.
  erewrite poll_raises; [| exact Hfail | exact Hfuel].
  generalize (poll_log env (S n) operation w3). intros l.
  cbv [add_log set_world set_display_name set_temp_path set_files
       world session files display_name temp_path results log].
  rewrite <- !app_assoc. reflexivity.
Qed.

(** X18.  A status check that raises.  When the temporary file is written,
    the upload call returns a handle, and the status check after [n]
    returning ones raises, then for every budget of more than [n] rounds the
    file gets the failure record with the message of the exception, the
    temporary file is removed, the loop has slept [n + 1] times, and the body
    of the loop completes. *)
Theorem status_check_failure_is_recorded {W} (env : Env W) (fuel : nat)
        (store_name : pyval) (f : uploaded_file) (s : state W) (tmp : string)
        (w1 w2 w3 w4 : W) (operation : pyval) (n : nat) (e : exn) :
  named_temporary_file env (snd (OsPath.splitext (uf_name f))) (world s)
    = (w1, Returns tmp) →
  tmp_write env tmp (uf_buffer f) w1 = (w2, Returns tt) →
  upload_to_file_search_store env tmp store_name
                              (fst (OsPath.splitext (uf_name f))) w2
    = (w3, Returns operation) →
  fails_after env n operation w3 e w4 →
  (n < fuel)%nat →
  ∃ s', upload_one env fuel store_name f s = (s', Ok tt) ∧
        results s' =
          (results s ++
           [VDict [("file", VStr (uf_name f));
                   ("display_name", VStr (fst (OsPath.splitext (uf_name f))));
                   ("status", VStr ("error: " ++ str_of_exn e))]])%list ∧
        (tmp ∉ files s') ∧
        List.filter is_sleep (new_log s s') = repeat (EvSleep 2) (S n) ∧
        session s' = session s.
Proof.
  intros Htmp Hwrite Hup Hfail Hfuel.
  unfold upload_one, try_finally, try_except.
  rewrite (upload_try_check_raises env fuel store_name f s tmp w1 w2 w3 w4
             operation n e Htmp Hwrite Hup Hfail Hfuel).
  erewrite upload_except_bound by reflexivity.
  rewrite upload_finally_run.
  pose proof (poll_log_fails_sleeps env n operation w3 e w4 Hfail) as Hsleeps.
  revert Hsleeps. generalize (poll_log env (S n) operation w3). intros l Hsleeps.
  cbn.
  rewrite bool_decide_true by (by left). cbn.
  eexists. split; [reflexivity|]. cbn.
  split; [reflexivity|]. split; [|split; [|reflexivity]].
  - destruct (decide (tmp ≠ tmp)) as [Hne|_]; [by destruct Hne|].
    apply removed_not_in.
  - erewrite (new_log_app s) by (cbn; rewrite <- !app_assoc; reflexivity).
    cbn. rewrite !List.filter_app, Hsleeps. cbn. rewrite app_nil_r. reflexivity.
Qed.

Lemma status_check_failure_is_recorded_witness :
  let env := stub_env (Returns (RVal (VList []))) (fun _ => Returns tt)
                      (fun _ => Returns tt)
                      (Returns (VObj [("name", VStr "operations/1")]))
                      (fun k => if (k <? 2)%nat
                                then Returns (VObj [("done", VBool false)])
                                else Raises (PyExc "ServerError" "503 UNAVAILABLE"))
                      (fun _ => None) in
  ∃ s', upload_one env 5 (VStr "fileSearchStores/a")
                   (UploadedFile "scope.md" "# Scope") (fresh ∅) = (s', Ok tt) ∧
        results s' =
          [VDict [("file", VStr "scope.md"); ("display_name", VStr "scope");
                  ("status", VStr "error: 503 UNAVAILABLE")]] ∧
        List.filter is_sleep (new_log (fresh ∅) s') = repeat (EvSleep 2) 3.
Proof.
  intros env.
  assert (fails_after env 2 (VObj [("name", VStr "operations/1")]) 0%nat
                      (PyExc "ServerError" "503 UNAVAILABLE") 3%nat) as Hfail.
  { split.
    - eexists _, _. split; reflexivity.
    - intros k Hk.
      destruct k as [|[|[|k]]]; [| | |lia]; eexists _, _; split; reflexivity. }
  destruct (status_check_failure_is_recorded
              env 5 (VStr "fileSearchStores/a") (UploadedFile "scope.md" "# Scope")
              (fresh ∅) "/tmp/tmpk3x9.md" 0%nat 0%nat 0%nat 3%nat
              (VObj [("name", VStr "operations/1")]) 2
              (PyExc "ServerError" "503 UNAVAILABLE")
              eq_refl eq_refl eq_refl Hfail ltac:(lia))
    as (s' & Hrun & Hres & _ & Hsleeps & _).
  exists s'. split; [exact Hrun|]. split; [exact Hres | exact Hsleeps].
Defined.

(** ** Upload and import: the whole handler *)




(** The [try] block of an upload leaves the session alone. *)
Lemma upload_try_session {W} (env : Env W) (fuel : nat) (store_name : pyval)
      (f : uploaded_file) (s : state W) :
  session (fst (upload_try env fuel store_name f s)) = session s.
Proof.
  unfold upload_try, create_temp, read_var, append_result. run.
  cbn [fst snd world set_world add_log set_files].
  destruct (named_temporary_file env _ (world s)) as [w1 [tmp|e]]; cbn;
    [|reflexivity].
  destruct (tmp_write env tmp (uf_buffer f) w1) as [w2 [[]|e]]; cbn;
    [|reflexivity].
  destruct (upload_to_file_search_store env tmp store_name _ w2)
    as [w3 [operation|e]]; cbn; [|reflexivity].
  match goal with
  | |- context [poll env fuel operation ?st0] =>
      pose proof (poll_frame env fuel operation st0) as (Hs & _);
      destruct (poll env fuel operation st0) as [sp [final|e|]]
  end; cbn [fst] in Hs; cbn; exact Hs.
Qed.

Lemma upload_one_session {W} (env : Env W) (fuel : nat) (store_name : pyval)
      (f : uploaded_file) (s : state W) :
  session (fst (upload_one env fuel store_name f s)) = session s.
Proof.
  pose proof (upload_try_session env fuel store_name f s) as Htry.
  unfold upload_one, try_finally, try_except.
  destruct (upload_try env fuel store_name f s) as [s1 [[]|e|]];
    cbn [fst] in Htry; [| |exact Htry].
  - rewrite upload_finally_run.
    destruct (temp_path s1) as [tp|]; [destruct (bool_decide (tp ∈ files s1))|];
      cbn; exact Htry.
  - destruct (display_name s1) as [d|] eqn:Hd.
    + rewrite (upload_except_bound f e s1 d Hd), upload_finally_run. cbn.
      destruct (temp_path s1) as [tp|]; [destruct (bool_decide (tp ∈ files s1))|];
        cbn; exact Htry.
    + rewrite (upload_except_unbound f e s1 Hd), upload_finally_run.
      destruct (temp_path s1) as [tp|]; [destruct (bool_decide (tp ∈ files s1))|];
        cbn; exact Htry.
Qed.

Lemma upload_each_session {W} (env : Env W) (fuel : nat) (store_name : pyval)
      (uploaded : list uploaded_file) : ∀ s : state W,
  session (fst (upload_each env fuel store_name uploaded s)) = session s.
Proof.
  induction uploaded as [|f rest IH]; intros s; [reflexivity|].
  cbn [upload_each]. unfold mbind, M_bind, bind.
  pose proof (upload_one_session env fuel store_name f s) as Hone.
  destruct (upload_one env fuel store_name f s) as [s1 [[]|e|]];
    cbn [fst] in Hone; [|exact Hone|exact Hone].
  rewrite IH. exact Hone.
Qed.

(** X20.  The upload handler never writes to the session, however it ends:
    the active store, the list of stores and the cached list of documents
    with its tag are after an upload what they were before it.  Unlike the
    batch delete, an upload does not refresh the cached list of documents. *)
Theorem upload_keeps_the_session {W} (env : Env W) (fuel : nat)
        (upload_clicked : bool) (uploaded : list uploaded_file)
        (store_name : pyval) (s : state W) :
  session (fst (upload_and_import env fuel upload_clicked uploaded store_name s))
    = session s.
Proof.
  unfold upload_and_import.
  destruct upload_clicked; [|reflexivity].
  destruct (Nat.eqb (List.length uploaded) 0); [reflexivity|].
  unfold mbind, M_bind, bind, modify.
  pose proof (upload_each_session env fuel store_name uploaded (set_results [] s))
    as Heach.
  destruct (upload_each env fuel store_name uploaded (set_results [] s))
    as [s1 [[]|e|]]; cbn [fst] in Heach; [|exact Heach|exact Heach].
  unfold get, ui, emit, modify. cbn. exact Heach.
Qed.

(** ** Upload and import: what is sent to the service *)

Lemma only_adds_refl {W} (P : event -> bool) (s : state W) : only_adds P s s.
Proof. exists []. split; [by rewrite app_nil_r | reflexivity]. Qed.

Lemma only_adds_trans {W} (P : event -> bool) (s1 s2 s3 : state W) :
  only_adds P s1 s2 → only_adds P s2 s3 → only_adds P s1 s3.
Proof.
  intros (l1 & H1 & Hp1) (l2 & H2 & Hp2). exists (l1 ++ l2)%list. split.
  - rewrite H2, H1. by rewrite <- app_assoc.
  - rewrite forallb_app, Hp1, Hp2. reflexivity.
Qed.

Lemma only_adds_event {W} (P : event -> bool) (s t : state W) (e : event) :
  P e = true → only_adds P s t → only_adds P s (add_log e t).
Proof.
  intros He Ht. apply (only_adds_trans P s t); [exact Ht|].
  exists [e]. split; [reflexivity|]. cbn. by rewrite He.
Qed.

Lemma only_adds_remote {W} (P Q : event -> bool) (s s' : state W) :
  (∀ e, P e = true → is_remote e = true → Q e = true) →
  only_adds P s s' →
  forallb Q (remote_calls (new_log s s')) = true.
Proof.
  intros HPQ (l & Hl & Hp). rewrite (new_log_app s s' l Hl). clear Hl.
  induction l as [|e l IH]; [reflexivity|].
  cbn in Hp. apply andb_prop in Hp as [He Hp].
  unfold remote_calls in *. cbn [List.filter].
  destruct (is_remote e) eqn:Hr; [|exact (IH Hp)].
  cbn [forallb]. rewrite (HPQ e He Hr). exact (IH Hp).
Qed.


Lemma only_adds_set_world {W} (P : event -> bool) (s t : state W) (w : W) :
  only_adds P s t → only_adds P s (set_world w t).
Proof. exact id. Qed.

Lemma only_adds_set_files {W} (P : event -> bool) (s t : state W) (l : list string) :
  only_adds P s t → only_adds P s (set_files l t).
Proof. exact id. Qed.

Lemma only_adds_set_display_name {W} (P : event -> bool) (s t : state W)
      (d : option string) :
  only_adds P s t → only_adds P s (set_display_name d t).
Proof. exact id. Qed.

Lemma only_adds_set_temp_path {W} (P : event -> bool) (s t : state W)
      (p : option string) :
  only_adds P s t → only_adds P s (set_temp_path p t).
Proof. exact id. Qed.

Lemma only_adds_set_results {W} (P : event -> bool) (s t : state W)
      (r : list pyval) :
  only_adds P s t → only_adds P s (set_results r t).
Proof. exact id. Qed.

Ltac adds :=
  repeat match goal with
         | |- only_adds _ ?s ?s => apply only_adds_refl
         | |- only_adds _ _ (add_log _ _) => apply only_adds_event; [reflexivity|]
         | |- only_adds _ _ (set_world _ _) => apply only_adds_set_world
         | |- only_adds _ _ (set_files _ _) => apply only_adds_set_files
         | |- only_adds _ _ (set_display_name _ _) => apply only_adds_set_display_name
         | |- only_adds _ _ (set_temp_path _ _) => apply only_adds_set_temp_path
         | |- only_adds _ _ (set_results _ _) => apply only_adds_set_results
         end.

Lemma poll_adds {W} (env : Env W) (fuel : nat) : ∀ operation (s : state W),
  only_adds upload_event s (fst (poll env fuel operation s)).
Proof.
  induction fuel as [|fuel IH]; intros operation s; simpl;
    destruct (not_done operation); try apply only_adds_refl.
  run. simpl.
  destruct (operations_get env operation (world s)) as [w' [operation'|e]]; simpl.
  - eapply only_adds_trans; [|apply IH]. adds.
  - adds.
Qed.

Lemma upload_try_adds {W} (env : Env W) (fuel : nat) (store_name : pyval)
      (f : uploaded_file) (s : state W) :
  let '(s', _) := upload_try env fuel store_name f s in
  only_adds upload_event s s'.
Proof.
  unfold upload_try, create_temp, read_var, append_result. run.
  cbn [fst snd world set_world add_log set_files].
  destruct (named_temporary_file env _ (world s)) as [w1 [tmp|e]]; cbn;
    [|adds].
  destruct (tmp_write env tmp (uf_buffer f) w1) as [w2 [[]|e]]; cbn;
    [|adds].
  destruct (upload_to_file_search_store env tmp store_name _ w2)
    as [w3 [operation|e]]; cbn; [|adds].
  match goal with
  | |- context [poll env fuel operation ?st0] =>
      pose proof (poll_adds env fuel operation st0) as Hp;
      destruct (poll env fuel operation st0) as [sp [final|e|]]
  end; cbn [fst] in Hp; cbn; adds;
    (eapply only_adds_trans; [|exact Hp]); adds.
Qed.

Lemma upload_one_adds {W} (env : Env W) (fuel : nat) (store_name : pyval)
      (f : uploaded_file) (s : state W) :
  only_adds upload_event s (fst (upload_one env fuel store_name f s)).
Proof.
  pose proof (upload_try_adds env fuel store_name f s) as Htry.
  unfold upload_one, try_finally, try_except.
  destruct (upload_try env fuel store_name f s) as [s1 [[]|e|]];
    [| |exact Htry].
  - rewrite upload_finally_run.
    destruct (temp_path s1) as [tp|]; [destruct (bool_decide (tp ∈ files s1))|];
      cbn; adds; exact Htry.
  - destruct (display_name s1) as [d|] eqn:Hd.
    + rewrite (upload_except_bound f e s1 d Hd), upload_finally_run. cbn.
      destruct (temp_path s1) as [tp|]; [destruct (bool_decide (tp ∈ files s1))|];
        cbn; adds; exact Htry.
    + rewrite (upload_except_unbound f e s1 Hd), upload_finally_run.
      destruct (temp_path s1) as [tp|]; [destruct (bool_decide (tp ∈ files s1))|];
        cbn; adds; exact Htry.
Qed.

Lemma upload_each_adds {W} (env : Env W) (fuel : nat) (store_name : pyval)
      (uploaded : list uploaded_file) : ∀ s : state W,
  only_adds upload_event s (fst (upload_each env fuel store_name uploaded s)).
Proof.
  induction uploaded as [|f rest IH]; intros s; [apply only_adds_refl|].
  cbn [upload_each]. unfold mbind, M_bind, bind.
  pose proof (upload_one_adds env fuel store_name f s) as Hone.
  destruct (upload_one env fuel store_name f s) as [s1 [[]|e|]];
    cbn [fst] in Hone; [|exact Hone|exact Hone].
  eapply only_adds_trans; [exact Hone | apply IH].
Qed.

(** X21.  What an upload sends to the service.  However the upload handler
    ends, the log it leaves extends the log it started with, and the only
    remote calls it has added are upload calls and status checks: it lists
    and deletes nothing and asks the model nothing. *)
Theorem upload_only_uploads_and_polls {W} (env : Env W) (fuel : nat)
        (upload_clicked : bool) (uploaded : list uploaded_file)
        (store_name : pyval) (s : state W) :
  let s' := fst (upload_and_import env fuel upload_clicked uploaded store_name s) in
  log s' = (log s ++ new_log s s')%list ∧
  forallb is_upload_call (remote_calls (new_log s s')) = true.
Proof.
  intros s'.
  assert (only_adds upload_event s s') as Hadds.
  { subst s'. unfold upload_and_import.
    destruct upload_clicked; [|apply only_adds_refl].
    destruct (Nat.eqb (List.length uploaded) 0).
    { unfold ui, emit, modify. cbn. adds. }
    unfold mbind, M_bind, bind, modify.
    pose proof (upload_each_adds env fuel store_name uploaded (set_results [] s))
      as Heach.
    destruct (upload_each env fuel store_name uploaded (set_results [] s))
      as [s1 [[]|e|]]; cbn [fst] in Heach;
      [|exact Heach|exact Heach].
    unfold get, ui, emit, modify. cbn. adds. exact Heach. }
  split.
  - destruct Hadds as (l & Hl & _). by rewrite (new_log_app s s' l Hl).
  - apply (only_adds_remote upload_event); [|exact Hadds].
    intros e He Hr. unfold upload_event in He. rewrite Hr in He. exact He.
Qed.

(** ** The polling loop *)

Lemma poll_rounds_log {W} (env : Env W) (fuel : nat) : ∀ operation (s : state W),
  ∃ added, log (fst (poll env fuel operation s)) = (log s ++ added)%list ∧
           poll_rounds added = true.
Proof.
  induction fuel as [|fuel IH]; intros operation s; simpl;
    destruct (not_done operation);
    try (exists []; split; [by rewrite app_nil_r | reflexivity]).
  run. simpl.
  destruct (operations_get env operation (world s)) as [w' [operation'|e]]; simpl.
  - destruct (IH operation'
                 (add_log (EvOperationsGet operation None)
                          (set_world w' (add_log (EvSleep 2) s))))
      as (l & Hl & Hp).
    exists (EvSleep 2 :: EvOperationsGet operation None :: l). split; [|exact Hp].
    rewrite Hl. cbn. by rewrite <- !app_assoc.
  - exists [EvSleep 2; EvOperationsGet operation (Some e)].
    split; [|reflexivity]. cbn. by rewrite <- !app_assoc.
Qed.

Lemma poll_returns_done {W} (env : Env W) (fuel : nat) : ∀ operation (s : state W),
  match snd (poll env fuel operation s) with
  | Ok final => not_done final = false
  | _ => True
  end.
Proof.
  induction fuel as [|fuel IH]; intros operation s; simpl;
    destruct (not_done operation) eqn:Hnd; try exact I; try exact Hnd.
  run. simpl.
  destruct (operations_get env operation (world s)) as [w' [operation'|e]]; simpl;
    [apply IH | exact I].
Qed.

(** X22.  The polling loop.  For every budget of rounds and every handle,
    the loop changes nothing but the world and the log; what it adds to the
    log is a sequence of rounds, each a sleep of 2 seconds followed by one
    status check; and a handle that leaves the loop is done (its [done]
    attribute is there and truthy). *)
Theorem poll_sleeps_before_each_check {W} (env : Env W) (fuel : nat)
        (operation : pyval) (s : state W) :
  untouched s (fst (poll env fuel operation s)) ∧
  poll_rounds (new_log s (fst (poll env fuel operation s))) = true ∧
  match snd (poll env fuel operation s) with
  | Ok final => truthy (getattr final "done" (VBool false)) = true
  | _ => True
  end.
Proof.
  split; [|split].
  - destruct (poll_frame env fuel operation s) as (H1 & H2 & H3 & H4 & H5).
    unfold untouched. split; [exact H1|]. split; [exact H2|].
    split; [exact H3|]. split; [exact H4 | exact H5].
  - destruct (poll_rounds_log env fuel operation s) as (l & Hl & Hp).
    by rewrite (new_log_app _ _ l Hl).
  - pose proof (poll_returns_done env fuel operation s) as Hd.
    destruct (snd (poll env fuel operation s)) as [final|e|]; [|exact I|exact I].
    unfold not_done in Hd. by apply negb_false_iff in Hd.
Qed.

(** ** Ask *)

Lemma utf8_chars_not_empty (s : string) :
  Forall (fun ch => ch ≠ "") (Str.utf8_chars s).
Proof.
  induction s as [|c s IH]; [constructor|]. cbn [Str.utf8_chars].
  destruct (Str.utf8_chars s) as [|[|d ch] rest].
  - apply Forall_cons. split; [discriminate | constructor].
  - apply Forall_cons. split; [discriminate | exact IH].
  - destruct (Str.is_continuation d).
    + apply Forall_cons in IH as [_ IH].
      apply Forall_cons. split; [discriminate | exact IH].
    + apply Forall_cons. split; [discriminate | exact IH].
Qed.

Lemma join_empty (l : list string) :
  Forall (fun ch => ch ≠ "") l → Str.join l = "" → l = [].
Proof.
  destruct l as [|ch l]; [done|]. intros Hne Hjoin.
  apply Forall_cons in Hne as [Hch _]. cbn [Str.join] in Hjoin.
  by destruct ch.
Qed.

Lemma lstrip_nil_iff (l : list string) :
  Str.lstrip l = [] ↔ forallb Str.is_space_char l = true.
Proof.
  induction l as [|ch l IH]; [done|]. cbn [Str.lstrip forallb].
  destruct (Str.is_space_char ch); [exact IH|]. split; discriminate.
Qed.

Lemma lstrip_all (l : list string) :
  forallb Str.is_space_char (Str.lstrip l) = forallb Str.is_space_char l.
Proof.
  induction l as [|ch l IH]; [done|]. cbn [Str.lstrip].
  destruct (Str.is_space_char ch) eqn:Hch.
  - cbn [forallb]. by rewrite Hch.
  - reflexivity.
Qed.

Lemma lstrip_not_empty (l : list string) :
  Forall (fun ch => ch ≠ "") l → Forall (fun ch => ch ≠ "") (Str.lstrip l).
Proof.
  induction l as [|ch l IH]; [done|]. intros Hne. cbn [Str.lstrip].
  destruct (Str.is_space_char ch); [|exact Hne].
  apply IH. by apply Forall_cons in Hne as [_ Hne].
Qed.

Lemma forallb_rev {A} (f : A → bool) (l : list A) :
  forallb f (rev l) = forallb f l.
Proof.
  induction l as [|a l IH]; [done|]. cbn [rev forallb].
  rewrite forallb_app, IH. cbn [forallb]. rewrite andb_true_r. apply andb_comm.
Qed.

(** A string is empty after [strip] exactly when it is white space only. *)
Lemma strip_empty_iff (q : string) : Str.strip q = "" ↔ all_space q = true.
Proof.
  unfold Str.strip, Str.rstrip, all_space.
  pose proof (utf8_chars_not_empty q) as Hne.
  generalize dependent (Str.utf8_chars q). intros l Hne. split.
  - intros Hjoin. apply join_empty in Hjoin.
    + apply (f_equal (@rev string)) in Hjoin. rewrite rev_involutive in Hjoin.
      apply lstrip_nil_iff in Hjoin.
      by rewrite forallb_rev, lstrip_all in Hjoin.
    + apply Forall_rev, lstrip_not_empty, Forall_rev, lstrip_not_empty, Hne.
  - intros Hall. by rewrite (proj2 (lstrip_nil_iff l) Hall).
Qed.

(** X23.  A blank question is not sent.  When the question is empty or white
    space only, pressing [Ask] makes no remote call: the handler shows the
    warning and nothing else happens; and without the button pressed the
    handler does nothing at all. *)
Theorem blank_question_is_not_sent {W} (env : Env W) (s : state W) (ask : bool)
        (question model_name : string) (use_default_prompt : bool)
        (store_name : pyval) :
  all_space question = true →
  ask_question env ask question model_name use_default_prompt store_name s
    = if ask
      then (add_log (EvUi StWarning [Lit "Please enter a question."]) s, Ok tt)
      else (s, Ok tt).
Proof.
  intros Hq. apply strip_empty_iff in Hq.
  unfold ask_question. rewrite Hq. destruct ask; reflexivity.
Qed.

(** A question of a tab, a newline, a no-break space and an ideographic
    space. *)
Lemma blank_question_is_not_sent_witness :
  let blank := String (ascii_of_nat 9) nl ++ nbsp ++ ideographic_space in
  ask_question (listing_env (Returns (RVal (VList [])))) true blank
               "gemini-2.5-flash" true (VStr "fileSearchStores/a") (fresh ∅)
    = (State 0%nat ∅ [] None None []
             [EvUi StWarning [Lit "Please enter a question."]], Ok tt).
Proof.
  intros blank.
  exact (blank_question_is_not_sent
           (listing_env (Returns (RVal (VList [])))) (fresh ∅) true blank
           "gemini-2.5-flash" true (VStr "fileSearchStores/a") eq_refl).
Defined.

(** X24.  The ask handler never raises and never writes to the session or to
    the script's variables, whatever the model call does; it makes one call
    when the button is pressed with a question that is not blank, and none
    otherwise. *)
Theorem ask_never_raises {W} (env : Env W) (s : state W) (ask : bool)
        (question model_name : string) (use_default_prompt : bool)
        (store_name : pyval) :
  let run := ask_question env ask question model_name use_default_prompt
                          store_name s in
  snd run = Ok tt ∧
  untouched s (fst run) ∧
  List.length (remote_calls (new_log s (fst run)))
    = if ask && negb (all_space question) then 1%nat else 0%nat.
Proof.
  intros run. subst run.
  destruct (all_space question) eqn:Hq.
  - unfold ask_question. rewrite (proj2 (strip_empty_iff question) Hq).
    rewrite andb_false_r.
    destruct ask; cbn [andb truthy String.eqb negb]; unfold ui, emit, modify, ret;
      cbn [fst snd].
    + split; [reflexivity|]. split; [by repeat split|].
      by erewrite (new_log_app s) by reflexivity.
    + split; [reflexivity|]. split; [by repeat split|].
      unfold new_log. by rewrite drop_all.
  - destruct ask.
    + assert (Str.strip question ≠ "") as Hne.
      { intros H. apply strip_empty_iff in H. congruence. }
      unfold ask_question. rewrite (truthy_str _ Hne). cbn [andb negb]. cbv zeta.
      generalize (build_config use_default_prompt question store_name).
      intros config. run. cbn [fst snd].
      destruct (generate_content env model_name (Str.strip question) config
                                 (world s)) as [w' [response|e]]; simpl.
      * destruct (hasattr response "to_dict"); simpl;
          (split; [reflexivity|]); (split; [by repeat split|]);
          erewrite (new_log_app s) by (simpl; rewrite <- !app_assoc; reflexivity);
          reflexivity.
      * split; [reflexivity|]. split; [by repeat split|].
        erewrite (new_log_app s) by (simpl; rewrite <- !app_assoc; reflexivity).
        reflexivity.
    + unfold ask_question. cbn [andb fst snd]. unfold ret. cbn [fst snd].
      split; [reflexivity|]. split; [by repeat split|].
      unfold new_log. by rewrite drop_all.
Qed.

(** ** The first tab and the session *)

Lemma preserves_ret {W A} (I : gmap string pyval -> Prop) (a : A) :
  preserves (W:=W) I (ret a).
Proof. intros s Hs. exact Hs. Qed.

Lemma preserves_bind {W A B} (I : gmap string pyval -> Prop) (m : M (W:=W) A)
      (k : A -> M B) :
  preserves I m → (∀ a, preserves I (k a)) → preserves I (bind m k).
Proof.
  intros Hm Hk s Hs. unfold bind. specialize (Hm s Hs).
  destruct (m s) as [s1 [a|e|]]; cbn [fst] in Hm; [|exact Hm|exact Hm].
  apply Hk. exact Hm.
Qed.

Lemma preserves_session_eq {W A} (I : gmap string pyval -> Prop) (m : M (W:=W) A) :
  (∀ s, session (fst (m s)) = session s) → preserves I m.
Proof. intros Hm s Hs. by rewrite Hm. Qed.

Lemma preserves_ui {W} (I : gmap string pyval -> Prop) (w : widget)
      (msg : list fpart) :
  preserves (W:=W) I (ui w msg).
Proof. apply preserves_session_eq. reflexivity. Qed.

Lemma preserves_session_get {W} (I : gmap string pyval -> Prop) (k : string)
      (d : pyval) :
  preserves (W:=W) I (session_get k d).
Proof. apply preserves_session_eq. reflexivity. Qed.

Lemma preserves_session_set {W} (I : gmap string pyval -> Prop) (k : string)
      (v : pyval) :
  (∀ σ, I σ → I (<[k := v]> σ)) → preserves (W:=W) I (session_set k v).
Proof. intros Hk s Hs. apply Hk. exact Hs. Qed.

Lemma preserves_list_store_documents {W} (env : Env W)
      (I : gmap string pyval -> Prop) (store_name : pyval) :
  preserves I (list_store_documents env store_name).
Proof.
  apply preserves_session_eq. intros s.
  apply (list_store_documents_untouched env store_name s).
Qed.

Lemma preserves_delete_documents {W} (env : Env W) (I : gmap string pyval -> Prop)
      (clicked : bool) (names : list pyval) (store_name : pyval) :
  (∀ σ v, I σ → I (<["store_documents" := v]> σ)) →
  preserves I (delete_documents env clicked names store_name).
Proof.
  intros Hset. unfold delete_documents.
  destruct (clicked && truthy (VList names)); [|apply preserves_ret].
  apply preserves_bind; [by apply preserves_session_eq|]. intros _.
  apply preserves_bind.
  { apply preserves_session_eq. intros s. by rewrite delete_each_run. }
  intros _. apply preserves_bind; [apply preserves_list_store_documents|].
  intros docs. apply preserves_bind.
  { apply preserves_session_set. intros σ. apply Hset. }
  intros _. apply preserves_bind; [apply preserves_ui|]. intros _.
  apply preserves_bind; [by apply preserves_session_eq|]. intros rs.
  apply preserves_ui.
Qed.

Lemma preserves_documents_panel {W} (env : Env W) (I : gmap string pyval -> Prop)
      (refresh_clicked select_all_docs : bool) (chosen : list pyval)
      (delete_docs_clicked : bool) (store_name : pyval) :
  (∀ σ v, I σ → I (<["store_documents" := v]> σ)) →
  (∀ σ v, I σ → I (<["_select_all_docs" := v]> σ)) →
  (∀ σ v, I σ → I (<["_selected_doc_names_some" := v]> σ)) →
  preserves I (documents_panel env refresh_clicked select_all_docs chosen
                               delete_docs_clicked store_name).
Proof.
  intros Hset Hbox Hchosen. unfold documents_panel.
  apply preserves_bind.
  { destruct refresh_clicked; [|apply preserves_ret].
    apply preserves_bind; [apply preserves_list_store_documents|]. intros docs.
    apply preserves_session_set. intros σ. apply Hset. }
  intros _. apply preserves_bind; [apply preserves_session_get|]. intros docs.
  destruct (truthy docs); [|apply preserves_ui].
  destruct (extend [] docs) as [ds|e]; [|by apply preserves_session_eq].
  apply preserves_bind; [apply preserves_ui|]. intros _.
  apply preserves_bind.
  { apply preserves_session_set. intros σ. apply Hbox. }
  intros _. apply preserves_bind.
  { destruct select_all_docs; [apply preserves_ui|].
    apply preserves_session_set. intros σ. apply Hchosen. }
  intros _. by apply preserves_delete_documents.
Qed.

Lemma preserves_upload_and_import {W} (env : Env W) (I : gmap string pyval -> Prop)
      (fuel : nat) (upload_clicked : bool) (uploaded : list uploaded_file)
      (store_name : pyval) :
  preserves I (upload_and_import env fuel upload_clicked uploaded store_name).
Proof.
  unfold upload_and_import.
  destruct upload_clicked; [|apply preserves_ret].
  destruct (Nat.eqb (List.length uploaded) 0); [apply preserves_ui|].
  apply preserves_bind; [by apply preserves_session_eq|]. intros _.
  apply preserves_bind.
  { apply preserves_session_eq. apply upload_each_session. }
  intros _. apply preserves_bind; [by apply preserves_session_eq|]. intros rs.
  apply preserves_ui.
Qed.

(** The automatic load either leaves the state as it is, the cache being
    there and tagged with the store, or stores a document list and the tag. *)
Lemma autoload_documents_cases {W} (env : Env W) (store_name : pyval) (s : state W) :
  (autoload_documents env store_name s = (s, Ok tt) ∧
   is_Some (session s !! "store_documents") ∧
   py_eq (default VNone (session s !! "_store_docs_for")) store_name = true) ∨
  (∃ docs s0,
     autoload_documents env store_name s =
       (set_session (<["_store_docs_for" := store_name]>
                       (<["store_documents" := docs]> (session s))) s0, Ok tt)).
Proof.
  assert (autoload_documents env store_name s
          = if negb (bool_decide (is_Some (session s !! "store_documents")))
               || negb (py_eq (default VNone (session s !! "_store_docs_for"))
                              store_name)
            then (docs ← list_store_documents env store_name;
                  session_set "store_documents" docs;;
                  session_set "_store_docs_for" store_name) s
            else (s, Ok tt)) as ->.
  { unfold autoload_documents.
    unfold mbind at 1, M_bind at 1, bind at 1, get. cbn [fst snd].
    unfold mbind at 1, M_bind at 1, bind at 1, session_get, get. cbn [fst snd].
    by destruct (_ || _). }
  destruct (list_store_documents_returns env store_name s) as (s0 & docs & Hlist).
  destruct (list_store_documents_frame _ _ _ _ _ Hlist) as (Hsess & _).
  destruct (bool_decide (is_Some (session s !! "store_documents"))) eqn:Hcached;
    [destruct (py_eq (default VNone (session s !! "_store_docs_for")) store_name)
       eqn:Hcmp|]; cbn [negb orb].
  - left. apply bool_decide_eq_true in Hcached. by repeat split.
  - right. exists docs, s0.
    unfold mbind, M_bind, bind, session_set, modify. rewrite Hlist. cbn.
    by rewrite Hsess.
  - right. exists docs, s0.
    unfold mbind, M_bind, bind, session_set, modify. rewrite Hlist. cbn.
    by rewrite Hsess.
Qed.

(** X25.  What the first tab writes to the session.  The tab writes at most
    four keys: the document cache and its tag ([store_documents],
    [_store_docs_for]) and the keys of its two keyed widgets
    ([_select_all_docs], [_selected_doc_names_some]).  Every other key, and so
    the active store, its display name and the list of stores, holds after
    the tab what it held before, whichever buttons are pressed and however
    the tab ends. *)
Theorem upload_tab_session_frame {W} (env : Env W) (fuel : nat)
        (refresh_clicked select_all_docs : bool) (chosen : list pyval)
        (delete_docs_clicked upload_clicked : bool)
        (uploaded : list uploaded_file) (s : state W) (k : string) :
  k ≠ "store_documents" →
  k ≠ "_store_docs_for" →
  k ≠ "_select_all_docs" →
  k ≠ "_selected_doc_names_some" →
  session (fst (upload_tab env fuel refresh_clicked select_all_docs chosen
                           delete_docs_clicked upload_clicked uploaded s)) !! k
    = session s !! k.
Proof.
  intros Hdocs Htag Hbox Hchosen.
  set (I := fun σ : gmap string pyval => σ !! k = session s !! k).
  assert (∀ k' σ v, k ≠ k' → I σ → I (<[k' := v]> σ)) as Hset.
  { intros k' σ v Hk Hσ. unfold I. by rewrite lookup_insert_ne. }
  enough (preserves I (upload_tab env fuel refresh_clicked select_all_docs chosen
                                  delete_docs_clicked upload_clicked uploaded))
    as Hkeeps by (apply (Hkeeps s); reflexivity).
  unfold upload_tab.
  apply preserves_bind; [apply preserves_session_get|]. intros store_name.
  destruct (negb (truthy store_name)); [apply preserves_ui|].
  apply preserves_bind; [apply preserves_ui|]. intros _.
  apply preserves_bind.
  { intros s1 Hs1.
    destruct (autoload_documents_cases env store_name s1)
      as [(-> & _) | (docs & s0 & ->)]; [exact Hs1|].
    cbn. apply Hset; [exact Htag|]. apply Hset; [exact Hdocs | exact Hs1]. }
  intros _. apply preserves_bind.
  { apply preserves_documents_panel; intros σ v; by apply Hset. }
  intros _. apply preserves_upload_and_import.
Qed.

(** The tab run with every button pressed and the box not ticked: the active
    store is kept, and the session holds the values of both keyed widgets. *)
Lemma upload_tab_session_frame_witness :
  let env := listing_env (Returns (RVal (VList (named "documents/" ["1"; "2"])))) in
  let s := fresh {[ "file_search_store_name" := VStr "fileSearchStores/a";
                    "stores_list" := VList [] ]} in
  let s' := fst (upload_tab env 5 true false [VStr "documents/1"] true true
                            [UploadedFile "a.pdf" "%PDF-1.7"] s) in
  session s' !! "file_search_store_name" = Some (VStr "fileSearchStores/a") ∧
  session s' !! "_select_all_docs" = Some (VBool false) ∧
  session s' !! "_selected_doc_names_some" = Some (VList [VStr "documents/1"]).
Proof.
  intros env s s'. split; [|split; reflexivity].
  unfold s'.
  rewrite (upload_tab_session_frame env 5 true false [VStr "documents/1"] true true
             [UploadedFile "a.pdf" "%PDF-1.7"] s "file_search_store_name");
    [reflexivity | discriminate ..].
Defined.

(** X26.  The cache stays tagged.  When a store is active, the session holds
    after the first tab a document list tagged with that store, whichever
    buttons are pressed and however the tab ends: refreshing and deleting
    replace the list and keep the tag, and uploading touches neither. *)
Theorem upload_tab_leaves_the_cache_tagged {W} (env : Env W) (fuel : nat)
        (refresh_clicked select_all_docs : bool) (chosen : list pyval)
        (delete_docs_clicked upload_clicked : bool)
        (uploaded : list uploaded_file) (s : state W) (store_name : pyval) :
  session s !! "file_search_store_name" = Some store_name →
  truthy store_name = true →
  cache_tagged store_name
    (session (fst (upload_tab env fuel refresh_clicked select_all_docs chosen
                              delete_docs_clicked upload_clicked uploaded s))).
Proof.
  intros Hactive Htruthy.
  assert (∀ σ v, cache_tagged store_name σ →
                 cache_tagged store_name (<["store_documents" := v]> σ)) as Hset.
  { intros σ v [_ Ht]. split.
    - rewrite lookup_insert_eq. by eexists.
    - by rewrite lookup_insert_ne. }
  unfold upload_tab.
  unfold mbind at 1, M_bind at 1, bind at 1, session_get, get. cbn [fst snd].
  rewrite Hactive. cbn [from_option id]. rewrite Htruthy. cbn [negb].
  unfold mbind at 1, M_bind at 1, bind at 1, ui, emit, modify. cbn [fst snd].
  match goal with
  | |- context [mbind _ _ ?s1] => set (st := s1)
  end.
  change (cache_tagged store_name
            (session (fst (bind (autoload_documents env store_name)
                                (fun _ =>
                                   bind (documents_panel env refresh_clicked
                                           select_all_docs chosen
                                           delete_docs_clicked store_name)
                                        (fun _ => upload_and_import env fuel
                                                    upload_clicked uploaded
                                                    store_name)) st)))).
  unfold bind at 1.
  assert (snd (autoload_documents env store_name st) = Ok tt ∧
          cache_tagged store_name
                       (session (fst (autoload_documents env store_name st))))
    as [Hok Htagged].
  { destruct (autoload_documents_cases env store_name st)
      as [(-> & Hdocs & Hcmp) | (docs & s0 & ->)]; cbn [fst snd].
    - split; [reflexivity|]. split; [exact Hdocs|].
      apply py_eq_true_iff in Hcmp.
      destruct (session st !! "_store_docs_for") as [t|];
        cbn [from_option id] in Hcmp;
        [by subst t | subst store_name; discriminate Htruthy].
    - split; [reflexivity|]. cbn. split.
      + rewrite lookup_insert_ne by done. rewrite lookup_insert_eq. by eexists.
      + apply lookup_insert_eq. }
  destruct (autoload_documents env store_name st) as [s1 r1].
  cbn [fst snd] in Hok, Htagged. subst r1.
  apply (preserves_bind (cache_tagged store_name)
           (documents_panel env refresh_clicked select_all_docs chosen
                            delete_docs_clicked store_name)
           (fun _ => upload_and_import env fuel upload_clicked uploaded store_name)).
  - apply preserves_documents_panel; [exact Hset | |];
      intros σ v [Hd Ht]; (split; [|by rewrite lookup_insert_ne]);
      by rewrite lookup_insert_ne.
  - intros _. apply preserves_upload_and_import.
  - exact Htagged.
Qed.

Lemma upload_tab_leaves_the_cache_tagged_witness :
  let env := deleting_env "documents/2" in
  let s := fresh {[ "file_search_store_name" := VStr "fileSearchStores/a";
                    "_store_docs_for" := VStr "fileSearchStores/b" ]} in
  cache_tagged (VStr "fileSearchStores/a")
    (session (fst (upload_tab env 5 true true [] true true
                              [UploadedFile "a.pdf" "%PDF-1.7"] s))).
Proof.
  intros env s.
  exact (upload_tab_leaves_the_cache_tagged env 5 true true [] true true
           [UploadedFile "a.pdf" "%PDF-1.7"] s (VStr "fileSearchStores/a")
           eq_refl eq_refl).
Defined.

(** ** The tabs after a delete *)

(** X27.  No tab works on a deleted store.  When the selected store has an
    identifier and its remote delete returns, then in the same script run,
    after the sidebar, both tabs find no active store: each shows the hint to
    create or select a store and does nothing else, so no upload, delete or
    question is sent with the identifier of the deleted store. *)
Theorem deleted_store_disables_the_tabs {W} (env : Env W) (s : state W)
        (store : pyval) (fuel : nat) (refresh_clicked select_all_docs : bool)
        (chosen : list pyval) (delete_docs_clicked upload_clicked : bool)
        (uploaded : list uploaded_file) (ask : bool) (question model_name : string)
        (use_default_prompt : bool) :
  truthy store = true →
  truthy (_safe_get store "name" (VStr "")) = true →
  (∀ w, ∃ w', file_search_stores_delete env (_safe_get store "name" (VStr "")) w
              = (w', Returns tt)) →
  let hint :=
    EvUi StInfo [Lit "Create or select a File Search store in the sidebar first."] in
  ∃ s', (activate env store;; delete_active_store env true store) s = (s', Ok tt) ∧
        upload_tab env fuel refresh_clicked select_all_docs chosen
                   delete_docs_clicked upload_clicked uploaded s'
          = (add_log hint s', Ok tt) ∧
        ask_tab env ask question model_name use_default_prompt s'
          = (add_log hint s', Ok tt).
Proof.
  intros Hstore Hname Hdel hint.
  destruct (activate_makes_active env s store Hstore Hname) as [Hok Hactive].
  destruct (activate env store s) as [s1 r1] eqn:Hact. simpl in Hok, Hactive.
  subst r1.
  destruct (Hdel (world s1)) as [w' Hd].
  destruct (delete_active_store_run env s1 store w' (Returns tt) Hstore Hname Hd)
    as (s2 & stores & Hlist & Hrun).
  rewrite Hactive in Hlist, Hrun. simpl in Hlist, Hrun.
  rewrite py_eq_refl in Hlist, Hrun.
  eexists. split.
  { unfold mbind, M_bind, bind. rewrite Hact. exact Hrun. }
  match goal with
  | |- upload_tab _ _ _ _ _ _ _ _ ?st = _ ∧ _ =>
      assert (session st !! "file_search_store_name" = None) as Hgone
  end.
  { simpl. rewrite !lookup_insert_ne by done.
    by rewrite !lookup_delete_ne, lookup_delete_eq by done. }
  split.
  - unfold upload_tab.
    unfold mbind at 1, M_bind at 1, bind at 1, session_get, get. cbn [fst snd].
    rewrite Hgone. reflexivity.
  - unfold ask_tab.
    unfold mbind at 1, M_bind at 1, bind at 1, session_get, get. cbn [fst snd].
    rewrite Hgone. reflexivity.
Qed.

Lemma deleted_store_disables_the_tabs_witness :
  let a := VObj [("name", VStr "fileSearchStores/a"); ("display_name", VStr "A")] in
  let env := listing_env (Returns (RVal (VList []))) in
  ∃ s', (activate env a;; delete_active_store env true a) (fresh ∅) = (s', Ok tt) ∧
        remote_calls
          (new_log s' (fst (upload_tab env 5 true true [] true true
                                       [UploadedFile "a.pdf" "%PDF-1.7"] s'))) = [] ∧
        remote_calls
          (new_log s' (fst (ask_tab env true "Acme Corp" "gemini-2.5-flash" true s')))
          = [].
Proof.
  intros a env.
  destruct (deleted_store_disables_the_tabs
              env (fresh ∅) a 5 true true [] true true
              [UploadedFile "a.pdf" "%PDF-1.7"] true "Acme Corp" "gemini-2.5-flash"
              true eq_refl eq_refl) as (s' & Hrun & Hup & Hask).
  - intros w. exists w. reflexivity.
  - exists s'. split; [exact Hrun|]. rewrite Hup, Hask. cbn [fst].
    split; by erewrite (new_log_app s') by reflexivity.
Defined.
